(** * Resilience layer of the health tracker: circuit breaker, retry, AI gateway

Shallow embedding of
  - src/utils/circuit-breaker.ts  (module [CB])
  - src/utils/retry.ts            (module [Retry])
  - the LiteLLM adapter           (module [LiteLLM])
followed by the properties the specification states about them.

Conventions of the embedding.
  - A JavaScript [number] that holds a count or a duration in
    milliseconds is a [Z]; [x++] is [x + 1].
  - An [async] function is a state transformer on the part of the
    program it can reach: [M S A := S -> Completion A * S].  A resolved
    promise is [Return], a rejected promise or a [throw] is [Throw].
  - The outside world (clock, timers, network) is an abstract type; the
    primitives the code calls on it ([Date.now], [setTimeout], the HTTP
    round trip of a provider) are section variables.
  - [console.log/warn/error] are not modelled. *)

From Stdlib Require Import ZArith List String Ascii Bool Lia QArith DecimalString.
Import ListNotations.
Open Scope Z_scope.

(* ================================================================== *)
(** ** JavaScript values and completions *)

Module Js.

(** What a [throw] (or a rejected promise) carries.  Only two kinds of
    value occur in the modelled code: [Error] objects, always truthy, and
    [undefined], the content of a [let] that was never assigned. *)
Inductive Thrown : Type :=
  | Undefined
  | ErrorObject (message : string).

Definition truthy (e : Thrown) : bool :=
  match e with
  | Undefined => false
  | ErrorObject _ => true
  end.

Inductive Completion (A : Type) : Type :=
  | Return (value : A)
  | Throw (error : Thrown).
Arguments Return {A} value.
Arguments Throw {A} error.

Definition M (S A : Type) : Type := S -> Completion A * S.

Definition throw {S A} (e : Thrown) : M S A := fun s => (Throw e, s).

Definition isReturn {A} (c : Completion A) : bool :=
  match c with Return _ => true | Throw _ => false end.
Definition isThrow {A} (c : Completion A) : bool :=
  match c with Return _ => false | Throw _ => true end.

(** [`${n}`] for an integer [n]. *)
Definition numberToString (n : Z) : string :=
  NilZero.string_of_int (Z.to_int n).

End Js.
Import Js.

(* ================================================================== *)
(** ** src/utils/circuit-breaker.ts *)

Module CB.

Inductive CircuitState : Type := CLOSED | OPEN | HALF_OPEN.

Definition CircuitState_eqb (a b : CircuitState) : bool :=
  match a, b with
  | CLOSED, CLOSED | OPEN, OPEN | HALF_OPEN, HALF_OPEN => true
  | _, _ => false
  end.

(** The private mutable fields of a [CircuitBreaker] instance.
    [lastFailureTime : number | null]. *)
Record CircuitBreaker : Type := mkBreaker {
    state : CircuitState;
    failures : Z;
    successes : Z;
    lastFailureTime : option Z;
    totalCalls : Z;
    totalFailures : Z;
    totalSuccesses : Z
  }.

Record CircuitBreakerStats : Type := mkStats {
    stats_state : CircuitState;
    stats_failures : Z;
    stats_successes : Z;
    stats_lastFailure : option Z;
    stats_totalCalls : Z;
    stats_totalFailures : Z;
    stats_totalSuccesses : Z
  }.

(** Field initialisers of the class. *)
Definition newBreaker : CircuitBreaker :=
  {| state := CLOSED; failures := 0; successes := 0;
     lastFailureTime := None;
     totalCalls := 0; totalFailures := 0; totalSuccesses := 0 |}.

Definition set_state (s : CircuitState) (b : CircuitBreaker) :=
  mkBreaker s (failures b) (successes b) (lastFailureTime b)
            (totalCalls b) (totalFailures b) (totalSuccesses b).
Definition set_failures (n : Z) (b : CircuitBreaker) :=
  mkBreaker (state b) n (successes b) (lastFailureTime b)
            (totalCalls b) (totalFailures b) (totalSuccesses b).
Definition set_successes (n : Z) (b : CircuitBreaker) :=
  mkBreaker (state b) (failures b) n (lastFailureTime b)
            (totalCalls b) (totalFailures b) (totalSuccesses b).
Definition set_lastFailureTime (t : option Z) (b : CircuitBreaker) :=
  mkBreaker (state b) (failures b) (successes b) t
            (totalCalls b) (totalFailures b) (totalSuccesses b).
Definition set_totalCalls (n : Z) (b : CircuitBreaker) :=
  mkBreaker (state b) (failures b) (successes b) (lastFailureTime b)
            n (totalFailures b) (totalSuccesses b).
Definition set_totalFailures (n : Z) (b : CircuitBreaker) :=
  mkBreaker (state b) (failures b) (successes b) (lastFailureTime b)
            (totalCalls b) n (totalSuccesses b).
Definition set_totalSuccesses (n : Z) (b : CircuitBreaker) :=
  mkBreaker (state b) (failures b) (successes b) (lastFailureTime b)
            (totalCalls b) (totalFailures b) n.

(** [!this.lastFailureTime]: [null] and the number [0] are both falsy. *)
Definition falsyTime (t : option Z) : bool :=
  match t with
  | None => true
  | Some n => n =? 0
  end.

Section WithHost.

(** Everything outside the breaker that a wrapped operation can read or
    change. *)
Context {Host : Type}.

(** [Date.now()]. *)
Variable dateNow : Host -> Z.

(** The race of [executeWithTimeout]: [timerFiresFirst ms h h'] tells
    whether a timer of [ms] milliseconds armed in host state [h] fires
    before an operation started in [h] settles, [h'] being the host
    state when that operation settles. *)
Variable timerFiresFirst : Z -> Host -> Host -> bool.

(** The configuration is never assigned after the constructor, so it is
    kept apart from the mutable fields. *)
Record CircuitBreakerConfig (T : Type) : Type := mkConfig {
    name : string;
    failureThreshold : Z;
    resetTimeout : Z;
    successThreshold : Z;
    timeout : Z;
    fallback : option (M Host T)
  }.
Arguments name {T} _.
Arguments failureThreshold {T} _.
Arguments resetTimeout {T} _.
Arguments successThreshold {T} _.
Arguments timeout {T} _.
Arguments fallback {T} _.

(** [Partial<CircuitBreakerConfig> & { name: string }]. *)
Record PartialConfig (T : Type) : Type := mkPartial {
    p_name : string;
    p_failureThreshold : option Z;
    p_resetTimeout : option Z;
    p_successThreshold : option Z;
    p_timeout : option Z;
    p_fallback : option (M Host T)
  }.
Arguments p_name {T} _.
Arguments p_failureThreshold {T} _.
Arguments p_resetTimeout {T} _.
Arguments p_successThreshold {T} _.
Arguments p_timeout {T} _.
Arguments p_fallback {T} _.

Definition orDefault (d : Z) (o : option Z) : Z :=
  match o with Some v => v | None => d end.

(** [{ ...DEFAULT_CONFIG, ...config }]. *)
Definition constructor {T} (config : PartialConfig T)
  : CircuitBreakerConfig T :=
  {| name := p_name config;
     failureThreshold := orDefault 5 (p_failureThreshold config);
     resetTimeout := orDefault 30000 (p_resetTimeout config);
     successThreshold := orDefault 2 (p_successThreshold config);
     timeout := orDefault 10000 (p_timeout config);
     fallback := p_fallback config |}.

Section Methods.

Context {T : Type}.
Variable config : CircuitBreakerConfig T.

Definition open (b : CircuitBreaker) : CircuitBreaker :=
  set_successes 0 (set_state OPEN b).

Definition close (b : CircuitBreaker) : CircuitBreaker :=
  set_successes 0 (set_failures 0 (set_state CLOSED b)).

Definition shouldAttemptReset (b : CircuitBreaker) (h : Host) : bool :=
  if falsyTime (lastFailureTime b) then true
  else
    match lastFailureTime b with
    | Some t => dateNow h - t >=? resetTimeout config
    | None => true
    end.

Definition circuitOpenError : Thrown :=
  ErrorObject ("[CircuitBreaker:" ++ name config
               ++ "] Circuit is OPEN - service unavailable").

Definition handleOpenCircuit : M Host T :=
  match fallback config with
  | Some fb => fb
  | None => throw circuitOpenError
  end.

Definition timeoutError : Thrown :=
  ErrorObject ("Circuit breaker timeout after "
               ++ numberToString (timeout config) ++ "ms").

(** [Promise.race([fn(), rejectAfter(timeout)])]: [fn] is always
    started; the result is its own completion unless the timer
    fires first.  The host handed on is the one in which [fn] settles,
    also when the timer fires first: the code rejects as soon as the
    timer fires, so after a timed-out call [Date.now()] reads later here
    than in the code. *)
Definition executeWithTimeout (fn : M Host T) : M Host T :=
  fun h =>
    let '(c, h') := fn h in
    if timerFiresFirst (timeout config) h h'
    then (Throw timeoutError, h')
    else (c, h').

Definition onSuccess (b : CircuitBreaker) : CircuitBreaker :=
  let b := set_totalSuccesses (totalSuccesses b + 1) b in
  match state b with
  | HALF_OPEN =>
      let b := set_successes (successes b + 1) b in
      if successes b >=? successThreshold config then close b else b
  | _ => set_failures 0 b
  end.

(** [now] is the [Date.now()] read inside [onFailure]. *)
Definition onFailure (now : Z) (b : CircuitBreaker) : CircuitBreaker :=
  let b := set_totalFailures (totalFailures b + 1) b in
  let b := set_failures (failures b + 1) b in
  let b := set_lastFailureTime (Some now) b in
  match state b with
  | HALF_OPEN => open b
  | _ => if failures b >=? failureThreshold config then open b else b
  end.

(** The [try { ... } catch { ... }] block of [execute]. *)
Definition attempt (fn : M Host T) : M (CircuitBreaker * Host) T :=
  fun '(b, h) =>
    match executeWithTimeout fn h with
    | (Return result, h') => (Return result, (onSuccess b, h'))
    | (Throw error, h') => (Throw error, (onFailure (dateNow h') b, h'))
    end.

Definition execute (fn : M Host T) : M (CircuitBreaker * Host) T :=
  fun '(b, h) =>
    let b := set_totalCalls (totalCalls b + 1) b in
    match state b with
    | OPEN =>
        if shouldAttemptReset b h
        then attempt fn (set_state HALF_OPEN b, h)
        else
          let '(c, h') := handleOpenCircuit h in (c, (b, h'))
    | _ => attempt fn (b, h)
    end.

Definition getStats (b : CircuitBreaker) : CircuitBreakerStats :=
  {| stats_state := state b;
     stats_failures := failures b;
     stats_successes := successes b;
     stats_lastFailure :=
       if falsyTime (lastFailureTime b) then None
       else lastFailureTime b;
     stats_totalCalls := totalCalls b;
     stats_totalFailures := totalFailures b;
     stats_totalSuccesses := totalSuccesses b |}.

Definition getState (b : CircuitBreaker) : CircuitState := state b.

Definition reset (b : CircuitBreaker) : CircuitBreaker :=
  set_lastFailureTime None
    (set_successes 0 (set_failures 0 (set_state CLOSED b))).

Definition isHealthy (b : CircuitBreaker) : bool :=
  negb (CircuitState_eqb (state b) OPEN).

(** The breaker as [execute] leaves it right after [this.totalCalls++]. *)
Definition counted (b : CircuitBreaker) : CircuitBreaker :=
  set_totalCalls (totalCalls b + 1) b.

(** The outcome of a call the breaker turns away: the fallback's
  completion if one is configured, the circuit-open error otherwise;
  only [totalCalls] moves. *)
Definition rejection (b : CircuitBreaker) (h : Host)
  : Completion T * (CircuitBreaker * Host) :=
  match fallback config with
  | Some fb => let '(c, h') := fb h in (c, (counted b, h'))
  | None => (Throw circuitOpenError, (counted b, h))
  end.

(** The specification's sentence "counters reset on state transition",
  read for one call: if [execute] leaves the breaker in another state
  than it found it, both consecutive counters are 0 afterwards. *)
Definition resetsCountersOnTransition (fn : M Host T) (b : CircuitBreaker)
  (h : Host) : Prop :=
  let b' := fst (snd (execute fn (b, h))) in
  state b' <> state b -> failures b' = 0 /\ successes b' = 0.

(** *** Drivers used to state properties about runs *)

(** One call made by a client: [before] is whatever happens in the
    host between the previous call and this one (time passing, other
    work); the completion of the call is kept, as a caller that
    writes [.catch(() => {})] would see it. *)
Record Call : Type := mkCall {
    before : Host -> Host;
    op : M Host T
  }.

Fixpoint executeAll (calls : list Call) (s : CircuitBreaker * Host)
  : list (Completion T) * (CircuitBreaker * Host) :=
  match calls with
  | [] => ([], s)
  | c :: rest =>
      let '(r, s1) := execute (op c) (fst s, before c (snd s)) in
      let '(rs, s2) := executeAll rest s1 in
      (r :: rs, s2)
  end.

(** The public operations that change a breaker, and host activity
    in between. *)
Inductive Action : Type :=
  | DoExecute (fn : M Host T)
  | DoReset
  | DoElapse (env : Host -> Host).

Definition step (a : Action) (s : CircuitBreaker * Host)
  : CircuitBreaker * Host :=
  match a with
  | DoExecute fn => snd (execute fn s)
  | DoReset => (reset (fst s), snd s)
  | DoElapse env => (fst s, env (snd s))
  end.

Fixpoint run (acts : list Action) (s : CircuitBreaker * Host)
  : CircuitBreaker * Host :=
  match acts with
  | [] => s
  | a :: rest => run rest (step a s)
  end.

End Methods.

(** [createCircuitBreaker(config)]: the configuration after defaults
    and the freshly initialised fields. *)
Definition createCircuitBreaker {T} (config : PartialConfig T)
  : CircuitBreakerConfig T * CircuitBreaker :=
  (constructor config, newBreaker).

End WithHost.

Arguments name {Host T} _.
Arguments failureThreshold {Host T} _.
Arguments resetTimeout {Host T} _.
Arguments successThreshold {Host T} _.
Arguments timeout {Host T} _.
Arguments fallback {Host T} _.
Arguments mkConfig {Host T} _ _ _ _ _ _.
Arguments mkPartial {Host T} _ _ _ _ _ _.
Arguments mkCall {Host T} _ _.
Arguments before {Host T} _ _.
Arguments op {Host T} _ _.
Arguments DoExecute {Host T} _.
Arguments DoReset {Host T}.
Arguments DoElapse {Host T} _.

End CB.

(* ================================================================== *)
(** ** src/utils/retry.ts *)

Module Retry.

Section WithHost.

Context {Host : Type}.

(** The host state once a timer armed with [setTimeout(resolve, ms)] has
    fired. *)
Variable setTimeout : Z -> Host -> Host.

(** All four numbers are taken to be integers (the defaults are). *)
Record RetryConfig : Type := mkRetryConfig {
  maxRetries : Z;
  initialDelay : Z;
  maxDelay : Z;
  backoffMultiplier : Z;
  isRetryable : option (Thrown -> bool)
}.

(** [Partial<RetryConfig>]. *)
Record PartialRetryConfig : Type := mkPartialRetry {
  p_maxRetries : option Z;
  p_initialDelay : option Z;
  p_maxDelay : option Z;
  p_backoffMultiplier : option Z;
  p_isRetryable : option (Thrown -> bool)
}.

Definition DEFAULT_RETRY_CONFIG : RetryConfig :=
  {| maxRetries := 3;
     initialDelay := 1000;
     maxDelay := 10000;
     backoffMultiplier := 2;
     isRetryable := None |}.

Definition orElse {A} (o : option A) (d : A) : A :=
  match o with Some v => v | None => d end.

(** [{ ...DEFAULT_RETRY_CONFIG, ...config }]. *)
Definition mergeConfig (config : PartialRetryConfig) : RetryConfig :=
  {| maxRetries := orElse (p_maxRetries config) (maxRetries DEFAULT_RETRY_CONFIG);
     initialDelay := orElse (p_initialDelay config) (initialDelay DEFAULT_RETRY_CONFIG);
     maxDelay := orElse (p_maxDelay config) (maxDelay DEFAULT_RETRY_CONFIG);
     backoffMultiplier :=
       orElse (p_backoffMultiplier config) (backoffMultiplier DEFAULT_RETRY_CONFIG);
     isRetryable :=
       match p_isRetryable config with
       | Some p => Some p
       | None => isRetryable DEFAULT_RETRY_CONFIG
       end |}.

Definition sleep (ms : Z) : M Host unit :=
  fun h => (Return tt, setTimeout ms h).

(** [isRetryable && !isRetryable(error)]. *)
Definition refusesRetry (cfg : RetryConfig) (error : Thrown) : bool :=
  match isRetryable cfg with
  | Some p => negb (p error)
  | None => false
  end.

Section Loop.

Context {T : Type}.
Variable fn : M Host T.
Variable cfg : RetryConfig.

(** The [for] loop of [withRetry] together with the [throw lastError] that
    follows it.  [attempt], [delay] and [lastError] are the loop's
    variables; [fuel] bounds the number of iterations still possible and
    is decreased once per iteration. *)
Fixpoint retryLoop (fuel : nat) (attempt delay : Z) (lastError : Thrown)
  : M Host T :=
  fun h =>
    match fuel with
    | O => (Throw lastError, h)
    | S fuel' =>
        if attempt <=? maxRetries cfg then
          match fn h with
          | (Return v, h1) => (Return v, h1)
          | (Throw error, h1) =>
              if attempt >=? maxRetries cfg then (Throw error, h1)
              else if refusesRetry cfg error then (Throw error, h1)
              else
                let '(_, h2) := sleep delay h1 in
                retryLoop fuel' (attempt + 1)
                          (Z.min (delay * backoffMultiplier cfg) (maxDelay cfg))
                          error h2
          end
        else (Throw lastError, h)
    end.

End Loop.

(** [attempt] runs from 0 while [attempt <= maxRetries]: at most
    [maxRetries + 1] iterations. *)
Definition withRetry {T} (fn : M Host T) (config : PartialRetryConfig)
  : M Host T :=
  let cfg := mergeConfig config in
  retryLoop fn cfg (Z.to_nat (maxRetries cfg + 1)) 0 (initialDelay cfg) Undefined.

End WithHost.

(** *** Observing a run

    A host that also keeps a journal of what [withRetry] did:
    every invocation of the operation (as a test spy would record it) and
    every timer it armed. *)

Inductive Event (T : Type) : Type :=
| Invoked (c : Completion T)
| Slept (ms : Z).
Arguments Invoked {T} c.
Arguments Slept {T} ms.

Definition Journal (Host T : Type) : Type := (Host * list (Event T))%type.

Definition spy {Host T} (fn : M Host T) : M (Journal Host T) T :=
  fun '(h, log) =>
    let '(c, h') := fn h in (c, (h', log ++ [Invoked c])).

Definition setTimeoutLogged {Host T} (setTimeout : Z -> Host -> Host)
  (ms : Z) (j : Journal Host T) : Journal Host T :=
  (setTimeout ms (fst j), snd j ++ [Slept ms]).

Definition invocations {T} (log : list (Event T)) : list (Completion T) :=
  flat_map (fun ev => match ev with Invoked c => [c] | Slept _ => [] end) log.

Definition sleeps {T} (log : list (Event T)) : list Z :=
  flat_map (fun ev => match ev with Invoked _ => [] | Slept ms => [ms] end) log.

(** The delay schedule as the specification words it:
    [delay_0 = initialDelay],
    [delay_(i+1) = min (delay_i * backoffMultiplier) maxDelay]. *)
Fixpoint specDelay (cfg : RetryConfig) (i : nat) : Z :=
  match i with
  | O => initialDelay cfg
  | S j => Z.min (specDelay cfg j * backoffMultiplier cfg) (maxDelay cfg)
  end.

(** [withRetry] run under observation, from an empty journal. *)
Definition observed {Host T} (setTimeout : Z -> Host -> Host)
  (fn : M Host T) (config : PartialRetryConfig) (h : Host)
  : Completion T * Journal Host T :=
  withRetry (setTimeoutLogged setTimeout) (spy fn) config (h, []).

(** Journals in which invocations and sleeps alternate, beginning and
    ending with an invocation. *)
Inductive Interleaved {T : Type} : list (Event T) -> Prop :=
| il_none : Interleaved []
| il_last (c : Completion T) : Interleaved [Invoked c]
| il_more (c : Completion T) (ms : Z) (rest : list (Event T)) :
    rest <> [] -> Interleaved rest ->
    Interleaved (Invoked c :: Slept ms :: rest).

End Retry.

(* ================================================================== *)
(** ** The LiteLLM adapter (provider gateway with cache and breaker) *)

Module LiteLLM.

Inductive Role : Type := user | assistant | system.

Record Message : Type := mkMessage {
  role : Role;
  content : string;
  msg_timestamp : option Z
}.

Record CacheEntry : Type := mkEntry {
  response : string;
  timestamp : Z
}.

(** [Map<string, CacheEntry>]: a JavaScript [Map] iterates in insertion
    order and [set] on a present key keeps the key's place, so the map is
    an association list with distinct keys, oldest insertion first. *)
Definition Cache : Type := list (string * CacheEntry).

Fixpoint Map_get (key : string) (m : Cache) : option CacheEntry :=
  match m with
  | [] => None
  | (k, v) :: rest => if String.eqb k key then Some v else Map_get key rest
  end.

Fixpoint Map_set (key : string) (v : CacheEntry) (m : Cache) : Cache :=
  match m with
  | [] => [(key, v)]
  | (k, v0) :: rest =>
      if String.eqb k key then (k, v) :: rest
      else (k, v0) :: Map_set key v rest
  end.

Fixpoint Map_delete (key : string) (m : Cache) : Cache :=
  match m with
  | [] => []
  | (k, v) :: rest =>
      if String.eqb k key then rest else (k, v) :: Map_delete key rest
  end.

Definition Map_size (m : Cache) : Z := Z.of_nat (List.length m).

(** [m.keys().next().value]. *)
Definition Map_firstKey (m : Cache) : option string :=
  match m with
  | [] => None
  | (k, _) :: _ => Some k
  end.

(** Truthiness of a [string | null] / [string | undefined]: [null],
    [undefined] and the empty string are falsy. *)
Definition truthyString (s : option string) : bool :=
  match s with
  | None => false
  | Some EmptyString => false
  | Some _ => true
  end.

(** [model.split('/')[0]]. *)
Fixpoint providerOf (model : string) : string :=
  match model with
  | EmptyString => EmptyString
  | String c rest =>
      if Ascii.eqb c "/"%char then EmptyString
      else String c (providerOf rest)
  end.

(** [model.split('/').slice(1).join('/')]. *)
Fixpoint modelNameOf (model : string) : string :=
  match model with
  | EmptyString => EmptyString
  | String c rest =>
      if Ascii.eqb c "/"%char then rest else modelNameOf rest
  end.

(** The fields of [LiteLLMConfig] read by the modelled methods
    ([baseUrl], [model] and [temperature] only shape the HTTP requests). *)
Record LiteLLMConfig : Type := mkLiteLLMConfig {
  primaryModel : string;
  fallbackModels : list string;
  cacheEnabled : bool;
  cacheTTLSeconds : Z;
  timeout : Z;
  maxRetries : Z;
  circuitBreakerEnabled : bool
}.

(** [Partial<LiteLLMConfig>] as handed to the constructor. *)
Record PartialLiteLLMConfig : Type := mkPartialLiteLLM {
  p_primaryModel : option string;
  p_fallbackModels : option (list string);
  p_cacheEnabled : option bool;
  p_cacheTTLSeconds : option Z;
  p_timeout : option Z;
  p_maxRetries : option Z;
  p_circuitBreakerEnabled : option bool
}.

Definition noConfig : PartialLiteLLMConfig :=
  mkPartialLiteLLM None None None None None None None.

Definition defaultPrimary : string := "ollama/llama3.2".

Definition nullish {A} (o : option A) (d : A) : A :=
  match o with Some v => v | None => d end.

(** The [this.config = { ... }] of the constructor: [||] for the model
    names, [??] for the rest. *)
Definition constructorConfig (config : PartialLiteLLMConfig) : LiteLLMConfig :=
  {| primaryModel :=
       if truthyString (p_primaryModel config)
       then nullish (p_primaryModel config) defaultPrimary
       else defaultPrimary;
     fallbackModels := nullish (p_fallbackModels config) [];
     cacheEnabled := nullish (p_cacheEnabled config) true;
     cacheTTLSeconds := nullish (p_cacheTTLSeconds config) 300;
     timeout := nullish (p_timeout config) 30000;
     maxRetries := nullish (p_maxRetries config) 2;
     circuitBreakerEnabled := nullish (p_circuitBreakerEnabled config) true |}.

(** The mutable fields of an adapter. *)
Record LiteLLMAdapter : Type := mkAdapter {
  cache : Cache;
  circuitBreaker : CB.CircuitBreaker
}.

Definition newAdapter : LiteLLMAdapter :=
  {| cache := []; circuitBreaker := CB.newBreaker |}.

(** One HTTP round trip to a provider, as [callOllama], [callOpenAI] and
    [callAnthropic] make it: the text of the answer (possibly empty,
    [data.message?.content || '']), or a thrown [Error] object
    ([new Error(...)], or the error [fetch] or [json()] rejected with). *)
Inductive HttpOutcome : Type :=
| Failed (message : string)
| Answered (text : string).

Section WithWorld.

Context {World : Type}.

(** [Date.now()]. *)
Variable dateNow : World -> Z.

(** The race inside the breaker's [executeWithTimeout], see [CB]. *)
Variable timerFiresFirst : Z -> World -> World -> bool.

(** [JSON.stringify(messages)]. *)
Variable JSON_stringify : list Message -> string.

Variable callOllama : string -> list Message -> World -> HttpOutcome * World.
Variable callOpenAI : string -> list Message -> World -> HttpOutcome * World.
Variable callAnthropic : string -> list Message -> World -> HttpOutcome * World.

Definition settle (r : HttpOutcome * World) : Completion string * World :=
  match r with
  | (Failed message, w) => (Throw (ErrorObject message), w)
  | (Answered text, w) => (Return text, w)
  end.

Definition callModel (model : string) (messages : list Message)
  : M World string :=
  fun w =>
    let provider := providerOf model in
    let modelName := modelNameOf model in
    if String.eqb provider "ollama" then settle (callOllama modelName messages w)
    else if String.eqb provider "openai" then settle (callOpenAI modelName messages w)
    else if String.eqb provider "anthropic"
         then settle (callAnthropic modelName messages w)
    else (Throw (ErrorObject ("Unsupported provider: " ++ provider)), w).

(** What the closure handed to the breaker can reach: [this.cache] and
    the outside world. *)
Definition Host : Type := (Cache * World)%type.

Definition hostNow (h : Host) : Z := dateNow (snd h).

Definition hostTimerFiresFirst (ms : Z) (h h' : Host) : bool :=
  timerFiresFirst ms (snd h) (snd h').

Section Methods.

Variable config : LiteLLMConfig.

(** The breaker built by the constructor. *)
Definition breakerConfig : @CB.CircuitBreakerConfig Host string :=
  CB.constructor
    (CB.mkPartial "LiteLLM-AI" (Some 3) (Some 60000) (Some 2)
                  (Some (timeout config)) None).

Definition getCacheKey (messages : list Message) : string :=
  JSON_stringify messages.

(** [age = (Date.now() - entry.timestamp) / 1000], a fraction of seconds. *)
Definition age (now : Z) (entry : CacheEntry) : Q :=
  (inject_Z (now - timestamp entry) / inject_Z 1000)%Q.

(** [age > this.config.cacheTTLSeconds]. *)
Definition expired (now : Z) (entry : CacheEntry) : bool :=
  negb (Qle_bool (age now entry) (inject_Z (cacheTTLSeconds config))).

(** Returns the [string | null] and the cache after the lazy deletion. *)
Definition getFromCache (key : string) (h : Host) : option string * Cache :=
  let '(c, w) := h in
  if negb (cacheEnabled config) then (None, c)
  else
    match Map_get key c with
    | None => (None, c)
    | Some entry =>
        if expired (dateNow w) entry then (None, Map_delete key c)
        else (Some (response entry), c)
    end.

Definition setCache (key : string) (resp : string) (h : Host) : Cache :=
  let '(c, w) := h in
  let c := Map_set key {| response := resp; timestamp := dateNow w |} c in
  if Map_size c >? 1000 then
    if truthyString (Map_firstKey c)
    then match Map_firstKey c with
         | Some firstKey => Map_delete firstKey c
         | None => c
         end
    else c
  else c.

Definition allModelsFailed : Thrown := ErrorObject "All models failed".

(** [lastError || new Error('All models failed')]. *)
Definition lastErrorOr (lastError : option Thrown) : Thrown :=
  match lastError with
  | Some e => if truthy e then e else allModelsFailed
  | None => allModelsFailed
  end.

(** The [for (const model of models)] loop of [executeWithFallbacks] and
    the [throw] after it. *)
Fixpoint tryModels (messages : list Message) (cacheKey : string)
  (models : list string) (lastError : option Thrown) : M Host string :=
  fun h =>
    match models with
    | [] => (Throw (lastErrorOr lastError), h)
    | model :: rest =>
        match callModel model messages (snd h) with
        | (Return resp, w1) =>
            let c := if cacheEnabled config
                     then setCache cacheKey resp (fst h, w1)
                     else fst h in
            (Return resp, (c, w1))
        | (Throw error, w1) =>
            tryModels messages cacheKey rest (Some error) (fst h, w1)
        end
    end.

Definition executeWithFallbacks (messages : list Message) (cacheKey : string)
  : M Host string :=
  tryModels messages cacheKey
            (primaryModel config :: fallbackModels config) None.

Definition chatSync (messages : list Message)
  : M (LiteLLMAdapter * World) string :=
  fun '(a, w) =>
    let cacheKey := getCacheKey messages in
    let '(cached, c) := getFromCache cacheKey (cache a, w) in
    if truthyString cached then
      (Return (nullish cached EmptyString),
       ({| cache := c; circuitBreaker := circuitBreaker a |}, w))
    else if circuitBreakerEnabled config then
      let '(r, (b', (c', w'))) :=
        CB.execute hostNow hostTimerFiresFirst breakerConfig
                   (executeWithFallbacks messages cacheKey)
                   (circuitBreaker a, (c, w)) in
      (r, ({| cache := c'; circuitBreaker := b' |}, w'))
    else
      let '(r, (c', w')) := executeWithFallbacks messages cacheKey (c, w) in
      (r, ({| cache := c'; circuitBreaker := circuitBreaker a |}, w')).

(** [FailThrough messages models w w']: called one after the other from
    world [w], every model of [models] fails, and [w'] is the world the
    last of them leaves. *)
Inductive FailThrough (messages : list Message)
  : list string -> World -> World -> Prop :=
| ft_none (w : World) : FailThrough messages [] w w
| ft_next (model : string) (rest : list string) (w w1 w' : World) (e : Thrown) :
    callModel model messages w = (Throw e, w1) ->
    FailThrough messages rest w1 w' ->
    FailThrough messages (model :: rest) w w'.

(** The request is not answered from the cache. *)
Definition cacheMiss (messages : list Message) (a : LiteLLMAdapter) (w : World)
  : Prop :=
  truthyString (fst (getFromCache (getCacheKey messages) (cache a, w))) = false.

(** The request gets to the provider iteration and the iteration settles
    before the breaker's timer: circuit-breaker integration is off, or the
    breaker is not OPEN or is due for a probe, and the timer does not fire
    first. *)
Definition reachesProviders (messages : list Message) (a : LiteLLMAdapter)
  (w : World) : Prop :=
  let key := getCacheKey messages in
  let h := (snd (getFromCache key (cache a, w)), w) in
  circuitBreakerEnabled config = false
  \/ ((CB.state (circuitBreaker a) <> CB.OPEN
       \/ CB.shouldAttemptReset hostNow breakerConfig (circuitBreaker a) h = true)
      /\ hostTimerFiresFirst (CB.timeout breakerConfig) h
           (snd (executeWithFallbacks messages key h)) = false).

(** The second half of the specification's sentence on fallbacks, read
    for every cache-miss request: if every provider of the chain fails,
    [chatSync] throws what the last one threw. *)
Definition raisesLastProviderError (messages : list Message)
  (a : LiteLLMAdapter) (w : World) : Prop :=
  cacheMiss messages a w ->
  forall (pre : list string) (m : string) (w1 w2 : World) (e : Thrown),
    primaryModel config :: fallbackModels config = pre ++ [m] ->
    FailThrough messages pre w w1 ->
    callModel m messages w1 = (Throw e, w2) ->
    fst (chatSync messages (a, w)) = Throw e.

Definition clearCache (a : LiteLLMAdapter) : LiteLLMAdapter :=
  {| cache := []; circuitBreaker := circuitBreaker a |}.

Definition getCacheStats_size (a : LiteLLMAdapter) : Z := Map_size (cache a).

End Methods.

End WithWorld.

End LiteLLM.

(* ================================================================== *)
(** ** src/utils/retry.ts: the default retryability test *)

Module Classify.

(** [String.prototype.toLowerCase] on one code unit.  Messages are taken
    to be ASCII: only [A]-[Z] change. *)
Definition lowerChar (c : ascii) : ascii :=
  let n := nat_of_ascii c in
  if ((65 <=? n)%nat && (n <=? 90)%nat)%bool then ascii_of_nat (n + 32) else c.

Fixpoint toLowerCase (s : string) : string :=
  match s with
  | EmptyString => EmptyString
  | String c rest => String (lowerChar c) (toLowerCase rest)
  end.

(** [s.includes(needle)]. *)
Fixpoint includes (s needle : string) : bool :=
  (String.prefix needle s
   || match s with
      | EmptyString => false
      | String _ rest => includes rest needle
      end)%bool.

Definition isNetworkError (error : Thrown) : bool :=
  match error with
  | ErrorObject m =>
      let message := toLowerCase m in
      (includes message "network"
       || includes message "timeout"
       || includes message "econnrefused"
       || includes message "enotfound"
       || includes message "socket hang up"
       || includes message "503"
       || includes message "502"
       || includes message "504")%bool
  | Undefined => false
  end.

(** The eight substrings the test looks for. *)
Definition markers : list string :=
  ["network"; "timeout"; "econnrefused"; "enotfound"; "socket hang up";
   "503"; "502"; "504"]%string.

(** Sum of a list of durations. *)
Definition total (l : list Z) : Z := fold_right Z.add 0 l.

End Classify.

(* ================================================================== *)
(** ** Runs of calls through one breaker *)

Module Runs.

(** The consecutive-failure count a CLOSED breaker would show after each
    of the given completions, starting from count [n]: a throw adds one,
    a return clears it. *)
Fixpoint streaks {T} (n : Z) (results : list (Completion T)) : list Z :=
  match results with
  | [] => []
  | r :: rest =>
      let n' := if isThrow r then n + 1 else 0 in
      n' :: streaks n' rest
  end.

(** Every call of the list finds the breaker OPEN and not yet due for a
    probe. *)
Fixpoint allInWindow {Host T} (dateNow : Host -> Z)
  (cfg : @CB.CircuitBreakerConfig Host T) (b : CB.CircuitBreaker)
  (calls : list (@CB.Call Host T)) (h : Host) : Prop :=
  match calls with
  | [] => True
  | c :: rest =>
      CB.shouldAttemptReset dateNow cfg b (CB.before c h) = false
      /\ allInWindow dateNow cfg b rest (CB.before c h)
  end.

(** The host after the idle periods of the calls, none of the operations
    having run. *)
Fixpoint idleOnly {Host T} (calls : list (@CB.Call Host T)) (h : Host) : Host :=
  match calls with
  | [] => h
  | c :: rest => idleOnly rest (CB.before c h)
  end.

(** What holds of a breaker between calls: CLOSED with no success count
    and fewer failures than the threshold; OPEN with no success count, a
    recorded failure time and at least the threshold of failures;
    HALF_OPEN with some successes, fewer than the success threshold. *)
Definition consistent {Host T} (cfg : @CB.CircuitBreakerConfig Host T)
  (b : CB.CircuitBreaker) : Prop :=
  match CB.state b with
  | CB.CLOSED =>
      CB.successes b = 0 /\ 0 <= CB.failures b < CB.failureThreshold cfg
  | CB.OPEN =>
      CB.successes b = 0 /\ CB.lastFailureTime b <> None
      /\ CB.failureThreshold cfg <= CB.failures b
  | CB.HALF_OPEN =>
      1 <= CB.successes b < CB.successThreshold cfg
      /\ CB.lastFailureTime b <> None
      /\ CB.failureThreshold cfg <= CB.failures b
  end.

End Runs.

(* ================================================================== *)
(** ** The LiteLLM adapter: what it sends over HTTP *)

Module Http.

Inductive Method : Type := GET | POST.

(** The object a request hands to [JSON.stringify] as its body;
    [messages] are [{ role, content }] pairs. *)
Inductive Body : Type :=
| NoBody
| OllamaChat (model : string) (messages : list (string * string))
             (stream : bool) (temperature : Q)
| OpenAIChat (model : string) (messages : list (string * string))
             (temperature : Q)
| AnthropicMessages (model : string) (system : string)
                    (messages : list (string * string))
                    (max_tokens : Z) (temperature : Q).

(** [fetch(url, { method, headers, body, signal: AbortSignal.timeout(ms) })]. *)
Record Request : Type := mkRequest {
  url : string;
  method : Method;
  headers : list (string * string);
  body : Body;
  signalTimeout : option Z
}.

(** What the adapter reads of a parsed response body:
    [data.message?.content], [data.choices?.[0]?.message?.content] and
    [data.content?.[0]?.text], each possibly [undefined]. *)
Record Data : Type := mkData {
  message_content : option string;
  choices_0_message_content : option string;
  content_0_text : option string
}.

(** [await response.json()]. *)
Inductive JsonOutcome : Type :=
| JsonRejected (message : string)
| JsonParsed (data : Data).

Record Response : Type := mkResponse {
  ok : bool;
  statusText : string;
  json : JsonOutcome
}.

Inductive FetchOutcome : Type :=
| FetchRejected (message : string)
| FetchResolved (response : Response).

(** The fields of [LiteLLMConfig] that only shape requests. *)
Record HttpConfig : Type := mkHttpConfig {
  baseUrl : string;
  temperature : Q
}.

Definition roleName (r : LiteLLM.Role) : string :=
  match r with
  | LiteLLM.user => "user"
  | LiteLLM.assistant => "assistant"
  | LiteLLM.system => "system"
  end.

Definition isSystem (m : LiteLLM.Message) : bool :=
  match LiteLLM.role m with
  | LiteLLM.system => true
  | _ => false
  end.

Definition formatMessages (messages : list LiteLLM.Message)
  : list (string * string) :=
  map (fun m => (roleName (LiteLLM.role m), LiteLLM.content m)) messages.

(** [value || ''] for a [string | undefined]. *)
Definition orEmpty (o : option string) : string :=
  match o with
  | Some s => s
  | None => EmptyString
  end.

(** [messages.find(m => m.role === 'system')?.content || '']. *)
Definition systemMessage (messages : list LiteLLM.Message) : string :=
  orEmpty (option_map LiteLLM.content (find isSystem messages)).

(** [userMessages.map(m => ({ role: m.role === 'assistant' ? 'assistant'
    : 'user', content: m.content }))] over
    [messages.filter(m => m.role !== 'system')]. *)
Definition userMessages (messages : list LiteLLM.Message)
  : list (string * string) :=
  map (fun m =>
         (match LiteLLM.role m with
          | LiteLLM.assistant => "assistant"%string
          | _ => "user"%string
          end, LiteLLM.content m))
      (filter (fun m => negb (isSystem m)) messages).

Section WithWorld.

Context {World : Type}.

Variable fetch : Request -> World -> FetchOutcome * World.

(** [process.env[name]]. *)
Variable getenv : string -> World -> option string.

Variable http : HttpConfig.
Variable config : LiteLLM.LiteLLMConfig.

Definition jsonHeaders : list (string * string) :=
  [("Content-Type", "application/json")]%string.

Definition ollamaRequest (model : string) (messages : list LiteLLM.Message)
  : Request :=
  {| url := baseUrl http ++ "/api/chat";
     method := POST;
     headers := jsonHeaders;
     body := OllamaChat model (formatMessages messages) false (temperature http);
     signalTimeout := Some (LiteLLM.timeout config) |}.

Definition callOllama (model : string) (messages : list LiteLLM.Message)
  (w : World) : LiteLLM.HttpOutcome * World :=
  match fetch (ollamaRequest model messages) w with
  | (FetchRejected m, w') => (LiteLLM.Failed m, w')
  | (FetchResolved response, w') =>
      if negb (ok response)
      then (LiteLLM.Failed ("Ollama request failed: " ++ statusText response), w')
      else
        match json response with
        | JsonRejected m => (LiteLLM.Failed m, w')
        | JsonParsed data =>
            (LiteLLM.Answered (orEmpty (message_content data)), w')
        end
  end.

Definition openAIRequest (apiKey model : string)
  (messages : list LiteLLM.Message) : Request :=
  {| url := "https://api.openai.com/v1/chat/completions";
     method := POST;
     headers := [("Content-Type", "application/json");
                 ("Authorization", "Bearer " ++ apiKey)]%string;
     body := OpenAIChat model (formatMessages messages) (temperature http);
     signalTimeout := Some (LiteLLM.timeout config) |}.

Definition callOpenAI (model : string) (messages : list LiteLLM.Message)
  (w : World) : LiteLLM.HttpOutcome * World :=
  let apiKey := getenv "OPENAI_API_KEY" w in
  if negb (LiteLLM.truthyString apiKey)
  then (LiteLLM.Failed "OPENAI_API_KEY not configured", w)
  else
    match fetch (openAIRequest (orEmpty apiKey) model messages) w with
    | (FetchRejected m, w') => (LiteLLM.Failed m, w')
    | (FetchResolved response, w') =>
        if negb (ok response)
        then (LiteLLM.Failed ("OpenAI request failed: " ++ statusText response), w')
        else
          match json response with
          | JsonRejected m => (LiteLLM.Failed m, w')
          | JsonParsed data =>
              (LiteLLM.Answered (orEmpty (choices_0_message_content data)), w')
          end
    end.

Definition anthropicRequest (apiKey model : string)
  (messages : list LiteLLM.Message) : Request :=
  {| url := "https://api.anthropic.com/v1/messages";
     method := POST;
     headers := [("Content-Type", "application/json");
                 ("x-api-key", apiKey);
                 ("anthropic-version", "2023-06-01")]%string;
     body := AnthropicMessages model (systemMessage messages)
                               (userMessages messages) 4096 (temperature http);
     signalTimeout := Some (LiteLLM.timeout config) |}.

Definition callAnthropic (model : string) (messages : list LiteLLM.Message)
  (w : World) : LiteLLM.HttpOutcome * World :=
  let apiKey := getenv "ANTHROPIC_API_KEY" w in
  if negb (LiteLLM.truthyString apiKey)
  then (LiteLLM.Failed "ANTHROPIC_API_KEY not configured", w)
  else
    match fetch (anthropicRequest (orEmpty apiKey) model messages) w with
    | (FetchRejected m, w') => (LiteLLM.Failed m, w')
    | (FetchResolved response, w') =>
        if negb (ok response)
        then (LiteLLM.Failed ("Anthropic request failed: "
                              ++ statusText response), w')
        else
          match json response with
          | JsonRejected m => (LiteLLM.Failed m, w')
          | JsonParsed data =>
              (LiteLLM.Answered (orEmpty (content_0_text data)), w')
          end
    end.

Definition tagsRequest : Request :=
  {| url := baseUrl http ++ "/api/tags";
     method := GET;
     headers := [];
     body := NoBody;
     signalTimeout := Some 5000 |}.

(** The whole body is inside [try { ... } catch { return false; }]. *)
Definition checkModelAvailability (model : string) (w : World) : bool * World :=
  let provider := LiteLLM.providerOf model in
  if String.eqb provider "ollama" then
    match fetch tagsRequest w with
    | (FetchRejected _, w') => (false, w')
    | (FetchResolved response, w') => (ok response, w')
    end
  else if String.eqb provider "openai"
       then (LiteLLM.truthyString (getenv "OPENAI_API_KEY" w), w)
  else if String.eqb provider "anthropic"
       then (LiteLLM.truthyString (getenv "ANTHROPIC_API_KEY" w), w)
  else (false, w).

(** The [for (const model of this.config.fallbackModels || [])] loop of
    [isAvailable] and the [return false] after it. *)
Fixpoint anyAvailable (models : list string) (w : World) : bool * World :=
  match models with
  | [] => (false, w)
  | model :: rest =>
      let '(available, w') := checkModelAvailability model w in
      if available then (true, w') else anyAvailable rest w'
  end.

Definition isAvailable (w : World) : bool * World :=
  let '(available, w') :=
    checkModelAvailability (LiteLLM.primaryModel config) w in
  if available then (true, w')
  else anyAvailable (LiteLLM.fallbackModels config) w'.

(** Whether the credential of a cloud model is set, as
    [checkModelAvailability] tests it; [false] for any other model. *)
Definition hasCredential (w : World) (model : string) : bool :=
  let provider := LiteLLM.providerOf model in
  if String.eqb provider "openai"
  then LiteLLM.truthyString (getenv "OPENAI_API_KEY" w)
  else if String.eqb provider "anthropic"
       then LiteLLM.truthyString (getenv "ANTHROPIC_API_KEY" w)
  else false.

(** A model that [callModel] fails without any request: a provider
    that is not supported, or a cloud provider whose key is not set. *)
Definition failsOffline (w : World) (model : string) : bool :=
  negb (String.eqb (LiteLLM.providerOf model) "ollama")
  && negb (hasCredential w model).

(** [chatSync] with the three HTTP calls above as its providers. *)
Definition chatSync (dateNow : World -> Z)
  (timerFiresFirst : Z -> World -> World -> bool)
  (JSON_stringify : list LiteLLM.Message -> string)
  (messages : list LiteLLM.Message)
  : M (LiteLLM.LiteLLMAdapter * World) string :=
  LiteLLM.chatSync dateNow timerFiresFirst JSON_stringify
                   callOllama callOpenAI callAnthropic config messages.

End WithWorld.

End Http.

(* ================================================================== *)
(** ** The LiteLLM adapter: health data in a prompt *)

Module Prompt.

Inductive HealthDataSource : Type :=
| oura_ring | apple_health | apple_watch | manual.

Inductive HealthDataType : Type :=
| steps | heart_rate | sleep_duration | sleep_quality
| hrv | calories | activity_score | readiness_score.

Definition sourceName (s : HealthDataSource) : string :=
  match s with
  | oura_ring => "oura_ring"
  | apple_health => "apple_health"
  | apple_watch => "apple_watch"
  | manual => "manual"
  end.

Definition typeName (t : HealthDataType) : string :=
  match t with
  | steps => "steps"
  | heart_rate => "heart_rate"
  | sleep_duration => "sleep_duration"
  | sleep_quality => "sleep_quality"
  | hrv => "hrv"
  | calories => "calories"
  | activity_score => "activity_score"
  | readiness_score => "readiness_score"
  end.

Definition HealthDataType_eqb (a b : HealthDataType) : bool :=
  match a, b with
  | steps, steps | heart_rate, heart_rate
  | sleep_duration, sleep_duration | sleep_quality, sleep_quality
  | hrv, hrv | calories, calories
  | activity_score, activity_score | readiness_score, readiness_score => true
  | _, _ => false
  end.

(** [value] is taken to be an integer; [timestamp] in milliseconds. *)
Record HealthData : Type := mkHealthData {
  id : string;
  userId : string;
  source : HealthDataSource;
  type : HealthDataType;
  value : Z;
  unit : string;
  timestamp : Z
}.

(** [Record<string, HealthData[]>], keys in insertion order. *)
Definition Grouped : Type := list (HealthDataType * list HealthData).

(** [if (!acc[data.type]) acc[data.type] = []; acc[data.type].push(data)]. *)
Fixpoint push (data : HealthData) (acc : Grouped) : Grouped :=
  match acc with
  | [] => [(type data, [data])]
  | (t, items) :: rest =>
      if HealthDataType_eqb t (type data)
      then (t, items ++ [data]) :: rest
      else (t, items) :: push data rest
  end.

(** [healthData.reduce((acc, data) => ..., {})]. *)
Definition groupByType (healthData : list HealthData) : Grouped :=
  fold_left (fun acc data => push data acc) healthData [].

Definition renderItem (i : HealthData) : string :=
  numberToString (value i) ++ " " ++ unit i ++ " (" ++ sourceName (source i) ++ ")".

Definition renderGroup (g : HealthDataType * list HealthData) : string :=
  typeName (fst g) ++ ": " ++ String.concat ", " (map renderItem (snd g)).

Definition newline : string := String (ascii_of_nat 10) EmptyString.

Definition formatHealthDataForPrompt (healthData : list HealthData) : string :=
  match healthData with
  | [] => "No health data available."
  | _ => String.concat newline (map renderGroup (groupByType healthData))
  end.

(** [acc] groups the data [seen] so far: one group per type met, each
    holding the data of its type in the order met. *)
Definition grouped (acc : Grouped) (seen : list HealthData) : Prop :=
  NoDup (map fst acc)
  /\ (forall t items,
         In (t, items) acc ->
         items <> []
         /\ items = filter (fun d => HealthDataType_eqb (type d) t) seen)
  /\ (forall d, In d seen -> In (type d) (map fst acc)).

End Prompt.

(* ================================================================== *)
(** ** The response cache between requests *)

Module CacheInv.

(** The keys are distinct and none is the empty string, and the cache
    holds at most 1000 entries. *)
Definition cacheOk (c : LiteLLM.Cache) : Prop :=
  NoDup (map fst c)
  /\ Forall (fun k => k <> EmptyString) (map fst c)
  /\ LiteLLM.Map_size c <= 1000.

End CacheInv.

(* ================================================================== *)
(** ** Concrete hosts for worked runs *)

Module Lab.

(** *** A host that is nothing but a clock *)

Definition clockNow (h : Z) : Z := h.

(** A timer of [ms] milliseconds fires first when the operation took at
    least that long. *)
Definition clockTimer (ms : Z) (h h' : Z) : bool := ms <=? h' - h.

(** An operation that takes 10 ms and rejects, like
    [vi.fn().mockRejectedValue(new Error('fail'))]. *)
Definition failing : M Z unit :=
  fun h => (Throw (ErrorObject "fail"), h + 10).

(** An operation that takes 10 ms and resolves. *)
Definition succeeding : M Z unit :=
  fun h => (Return tt, h + 10).

Definition waiting (ms : Z) (h : Z) : Z := h + ms.

(** The breaker of the unit tests. *)
Definition testConfig : @CB.CircuitBreakerConfig Z unit :=
  CB.constructor
    (CB.mkPartial "test" (Some 3) (Some 1000) (Some 2) (Some 5000) None).

(** A breaker that trips at the first failure. *)
Definition hairTrigger : @CB.CircuitBreakerConfig Z unit :=
  CB.constructor
    (CB.mkPartial "hair-trigger" (Some 1) (Some 1000) (Some 2) (Some 5000) None).

Definition startOfRun : Z := 1700000000000.

(** The breaker of the AI service: trips at 3 failures, probes after
    60 s, closes after 2 successes, 30 s per call. *)
Definition aiConfig : @CB.CircuitBreakerConfig Z unit :=
  CB.constructor
    (CB.mkPartial "AI" (Some 3) (Some 60000) (Some 2) (Some 30000) None).

Definition threeFailures : list (@CB.Call Z unit) :=
  [CB.mkCall (waiting 0) failing; CB.mkCall (waiting 0) failing;
   CB.mkCall (waiting 0) failing].

Definition twoSuccesses : list (@CB.Call Z unit) :=
  [CB.mkCall (waiting 0) succeeding; CB.mkCall (waiting 0) succeeding].

(** The test breaker after three failed calls: OPEN, last failure
    recorded 30 ms after the start. *)
Definition tripped : CB.CircuitBreaker :=
  Eval vm_compute in
    fst (snd (CB.executeAll clockNow clockTimer testConfig threeFailures
                            (CB.newBreaker, startOfRun))).

(** The same breaker while it probes. *)
Definition probing : CB.CircuitBreaker := CB.set_state CB.HALF_OPEN tripped.

Definition noOverrides : Retry.PartialRetryConfig :=
  Retry.mkPartialRetry None None None None None.

Definition neverRetry : Retry.PartialRetryConfig :=
  Retry.mkPartialRetry None None None None (Some (fun _ => false)).

(** A timer that advances the clock by its duration. *)
Definition clockSetTimeout (ms : Z) (h : Z) : Z := h + ms.

(** *** A world with a clock and one counter per provider *)

Record World : Type := mkWorld {
  clock : Z;
  ollamaCalls : nat;
  openaiCalls : nat;
  anthropicCalls : nat
}.

Definition worldTimer (ms : Z) (w w' : World) : bool :=
  ms <=? clock w' - clock w.

Definition freshWorld : World :=
  {| clock := startOfRun; ollamaCalls := 0; openaiCalls := 0;
     anthropicCalls := 0 |}.

(** The same world [ms] milliseconds later. *)
Definition later (ms : Z) (s : LiteLLM.LiteLLMAdapter * World)
  : LiteLLM.LiteLLMAdapter * World :=
  (fst s, mkWorld (clock (snd s) + ms) (ollamaCalls (snd s))
                  (openaiCalls (snd s)) (anthropicCalls (snd s))).

(** A stand-in for [JSON.stringify]: any function of the message list
    serves, the adapter only compares keys. *)
Definition stringify (messages : list LiteLLM.Message) : string :=
  String.concat ";" (map LiteLLM.content messages).

Definition countOllama (w : World) : World :=
  mkWorld (clock w) (S (ollamaCalls w)) (openaiCalls w) (anthropicCalls w).
Definition countOpenAI (w : World) : World :=
  mkWorld (clock w) (ollamaCalls w) (S (openaiCalls w)) (anthropicCalls w).
Definition countAnthropic (w : World) : World :=
  mkWorld (clock w) (ollamaCalls w) (openaiCalls w) (S (anthropicCalls w)).

(** Ollama is down: the request fails. *)
Definition ollamaDown (model : string) (messages : list LiteLLM.Message)
  (w : World) : LiteLLM.HttpOutcome * World :=
  (LiteLLM.Failed "Ollama request failed: Service Unavailable", countOllama w).

(** Ollama answers HTTP 200 with no [message.content]: the adapter's
    [data.message?.content || ''] is the empty string. *)
Definition ollamaSilent (model : string) (messages : list LiteLLM.Message)
  (w : World) : LiteLLM.HttpOutcome * World :=
  (LiteLLM.Answered "", countOllama w).

Definition ollamaHello (model : string) (messages : list LiteLLM.Message)
  (w : World) : LiteLLM.HttpOutcome * World :=
  (LiteLLM.Answered "Hello from AI", countOllama w).

Definition openaiDown (model : string) (messages : list LiteLLM.Message)
  (w : World) : LiteLLM.HttpOutcome * World :=
  (LiteLLM.Failed "OPENAI_API_KEY not configured", countOpenAI w).

Definition openaiHello (model : string) (messages : list LiteLLM.Message)
  (w : World) : LiteLLM.HttpOutcome * World :=
  (LiteLLM.Answered "Hello from the fallback", countOpenAI w).

Definition anthropicDown (model : string) (messages : list LiteLLM.Message)
  (w : World) : LiteLLM.HttpOutcome * World :=
  (LiteLLM.Failed "ANTHROPIC_API_KEY not configured", countAnthropic w).

Definition hello : list LiteLLM.Message :=
  [LiteLLM.mkMessage LiteLLM.user "Test" None].

(** [new LiteLLMAdapter()]: every default. *)
Definition defaults : LiteLLM.LiteLLMConfig :=
  LiteLLM.constructorConfig LiteLLM.noConfig.

(** The adapter of the unit tests: one fallback. *)
Definition withFallback : LiteLLM.LiteLLMConfig :=
  LiteLLM.constructorConfig
    (LiteLLM.mkPartialLiteLLM (Some "ollama/llama3.2"%string)
       (Some ["openai/gpt-4o-mini"%string]) (Some true) (Some 300) None None None).

(** [chatSync] against the given Ollama, the other providers down. *)
Definition chat (ollama : string -> list LiteLLM.Message -> World
                          -> LiteLLM.HttpOutcome * World)
  (config : LiteLLM.LiteLLMConfig) (messages : list LiteLLM.Message)
  : M (LiteLLM.LiteLLMAdapter * World) string :=
  LiteLLM.chatSync clock worldTimer stringify ollama openaiDown anthropicDown
                   config messages.

(** The state after [n] calls of [chat], results dropped as by
    [.catch(() => {})]. *)
Fixpoint chatTimes (n : nat)
  (ollama : string -> list LiteLLM.Message -> World
            -> LiteLLM.HttpOutcome * World)
  (config : LiteLLM.LiteLLMConfig) (messages : list LiteLLM.Message)
  (s : LiteLLM.LiteLLMAdapter * World) : LiteLLM.LiteLLMAdapter * World :=
  match n with
  | O => s
  | S n' => chatTimes n' ollama config messages
                      (snd (chat ollama config messages s))
  end.

(** *** A clock that stands at 0 *)

(** An operation that rejects at once: no time passes, as under a
    mocked clock that is not advanced. *)
Definition failingAtOnce : M Z unit :=
  fun h => (Throw (ErrorObject "fail"), h).

Definition threeFailuresAtOnce : list (@CB.Call Z unit) :=
  [CB.mkCall (waiting 0) failingAtOnce; CB.mkCall (waiting 0) failingAtOnce;
   CB.mkCall (waiting 0) failingAtOnce].

(** The test breaker after three failed calls made while [Date.now()]
    is 0: OPEN, with [lastFailureTime = 0]. *)
Definition trippedAtEpoch : CB.CircuitBreaker :=
  Eval vm_compute in
    fst (snd (CB.executeAll clockNow clockTimer testConfig threeFailuresAtOnce
                            (CB.newBreaker, 0))).

(** *** Further operations and inputs *)

(** An operation that resolves, but only after 6 s. *)
Definition lateSuccess : M Z unit :=
  fun h => (Return tt, h + 6000).

Definition upsAndDowns : list (@CB.Call Z unit) :=
  [CB.mkCall (waiting 0) failing; CB.mkCall (waiting 0) failing;
   CB.mkCall (waiting 0) succeeding; CB.mkCall (waiting 0) failing].

(** Three failures, two seconds of rest, one success. *)
Definition tripAndProbe : list (@CB.Action Z unit) :=
  [CB.DoExecute failing; CB.DoExecute failing; CB.DoExecute failing;
   CB.DoElapse (waiting 2000); CB.DoExecute succeeding].

Definition twoCallsInWindow : list (@CB.Call Z unit) :=
  [CB.mkCall (waiting 100) succeeding; CB.mkCall (waiting 100) succeeding].

Definition negativeBudget : Retry.PartialRetryConfig :=
  Retry.mkPartialRetry (Some (-1)) None None None None.

Definition worldAt (t : Z) : World :=
  {| clock := t; ollamaCalls := 0; openaiCalls := 0; anthropicCalls := 0 |}.

(** A cache of [n] entries under the keys [k<i>], [k<i+1>], ..., oldest
    first. *)
Fixpoint filledFrom (i : Z) (n : nat) : LiteLLM.Cache :=
  match n with
  | O => []
  | S n' =>
      (("k" ++ numberToString i)%string, LiteLLM.mkEntry "cached" startOfRun)
        :: filledFrom (i + 1) n'
  end.

Definition fullCache : LiteLLM.Cache := filledFrom 0 1000.

Definition oneEntry : LiteLLM.Cache :=
  [("Test"%string, LiteLLM.mkEntry "Hello from AI" startOfRun)].

(** Cache and circuit breaker both switched off. *)
Definition switchedOff : LiteLLM.LiteLLMConfig :=
  LiteLLM.constructorConfig
    (LiteLLM.mkPartialLiteLLM None None (Some false) None None None (Some false)).

(** Cloud models only. *)
Definition cloudOnly : LiteLLM.LiteLLMConfig :=
  LiteLLM.constructorConfig
    (LiteLLM.mkPartialLiteLLM (Some "openai/gpt-4o-mini"%string)
       (Some ["anthropic/claude-3-haiku-20240307"%string])
       None None None None None).

Definition briefing : list LiteLLM.Message :=
  [LiteLLM.mkMessage LiteLLM.system "Be brief." None;
   LiteLLM.mkMessage LiteLLM.user "How did I sleep?" None;
   LiteLLM.mkMessage LiteLLM.system "Be verbose." None;
   LiteLLM.mkMessage LiteLLM.assistant "Well." None].

(** *** A network that cannot be reached, with an environment *)

Record Net : Type := mkNet {
  netClock : Z;
  sent : list Http.Request;
  OPENAI_API_KEY : option string;
  ANTHROPIC_API_KEY : option string
}.

(** Every request is recorded and rejected. *)
Definition netFetch (req : Http.Request) (w : Net) : Http.FetchOutcome * Net :=
  (Http.FetchRejected "fetch failed",
   mkNet (netClock w) (req :: sent w) (OPENAI_API_KEY w) (ANTHROPIC_API_KEY w)).

Definition netGetenv (name : string) (w : Net) : option string :=
  if String.eqb name "OPENAI_API_KEY" then OPENAI_API_KEY w
  else if String.eqb name "ANTHROPIC_API_KEY" then ANTHROPIC_API_KEY w
  else None.

Definition netTimer (ms : Z) (w w' : Net) : bool :=
  ms <=? netClock w' - netClock w.

Definition noKeys : Net := mkNet startOfRun [] None None.

Definition openaiKeyOnly : Net := mkNet startOfRun [] (Some "sk-test"%string) None.

Definition localhost : Http.HttpConfig :=
  Http.mkHttpConfig "http://localhost:11434" (7 # 10).

(** *** Health data *)

Definition readings : list Prompt.HealthData :=
  [Prompt.mkHealthData "1" "u1" Prompt.oura_ring Prompt.steps 8000 "steps"
                       startOfRun;
   Prompt.mkHealthData "2" "u1" Prompt.apple_watch Prompt.heart_rate 62 "bpm"
                       startOfRun;
   Prompt.mkHealthData "3" "u1" Prompt.manual Prompt.steps 9000 "steps"
                       startOfRun].

End Lab.

(* ================================================================== *)
(** * Properties of the circuit breaker *)

Import CB.

Ltac unfold_setters :=
  unfold CB.open, CB.close, CB.reset, set_state, set_failures, set_successes,
    set_lastFailureTime, set_totalCalls, set_totalFailures,
    set_totalSuccesses in *; simpl in *.

Section BreakerFacts.

Context {Host T : Type}.
Variable dateNow : Host -> Z.
Variable timerFiresFirst : Z -> Host -> Host -> bool.
Variable cfg : @CircuitBreakerConfig Host T.

Local Abbreviation execute := (CB.execute dateNow timerFiresFirst cfg).
Local Abbreviation attempt := (CB.attempt dateNow timerFiresFirst cfg).
Local Abbreviation executeWithTimeout := (CB.executeWithTimeout timerFiresFirst cfg).
Local Abbreviation executeAll := (CB.executeAll dateNow timerFiresFirst cfg).
Local Abbreviation shouldAttemptReset := (CB.shouldAttemptReset dateNow cfg).
Local Abbreviation step := (CB.step dateNow timerFiresFirst cfg).
Local Abbreviation run := (CB.run dateNow timerFiresFirst cfg).
Local Abbreviation rejection := (CB.rejection cfg).

Lemma shouldAttemptReset_recent (b : CircuitBreaker) (h : Host) (t : Z) :
  lastFailureTime b = Some t -> t <> 0 ->
  dateNow h - t < resetTimeout cfg ->
  shouldAttemptReset b h = false.
Proof.
  intros Ht Hnz Hlt. unfold CB.shouldAttemptReset, falsyTime. rewrite Ht.
  destruct (Z.eqb_spec t 0) as [E | _]; [contradiction |].
  rewrite Z.geb_leb. apply Z.leb_gt; lia.
Qed.

Lemma shouldAttemptReset_elapsed (b : CircuitBreaker) (h : Host) (t : Z) :
  lastFailureTime b = Some t ->
  resetTimeout cfg <= dateNow h - t ->
  shouldAttemptReset b h = true.
Proof.
  intros Ht Hle. unfold CB.shouldAttemptReset, falsyTime. rewrite Ht.
  destruct (t =? 0); [reflexivity |].
  rewrite Z.geb_leb. apply Z.leb_le; lia.
Qed.

Lemma execute_open_rejects (fn : M Host T) (b : CircuitBreaker) (h : Host) :
  state b = OPEN -> shouldAttemptReset b h = false ->
  execute fn (b, h) = rejection b h.
Proof.
  intros Hs Hr. unfold CB.execute, CB.rejection, counted, handleOpenCircuit.
  replace (state (set_totalCalls (totalCalls b + 1) b)) with OPEN
    by (now rewrite <- Hs).
  replace (shouldAttemptReset (set_totalCalls (totalCalls b + 1) b) h)
    with false by (now rewrite <- Hr).
  destruct (fallback cfg) as [fb |]; [| reflexivity].
  now destruct (fb h).
Qed.

Lemma execute_open_probes (fn : M Host T) (b : CircuitBreaker) (h : Host) :
  state b = OPEN -> shouldAttemptReset b h = true ->
  execute fn (b, h) = attempt fn (set_state HALF_OPEN (counted b), h).
Proof.
  intros Hs Hr. unfold CB.execute, counted.
  replace (state (set_totalCalls (totalCalls b + 1) b)) with OPEN
    by (now rewrite <- Hs).
  replace (shouldAttemptReset (set_totalCalls (totalCalls b + 1) b) h)
    with true by (now rewrite <- Hr).
  reflexivity.
Qed.

Lemma execute_not_open (fn : M Host T) (b : CircuitBreaker) (h : Host) :
  state b <> OPEN ->
  execute fn (b, h) = attempt fn (counted b, h).
Proof.
  intros Hs. unfold CB.execute, counted.
  replace (state (set_totalCalls (totalCalls b + 1) b)) with (state b)
    by reflexivity.
  destruct (state b); [reflexivity | contradiction | reflexivity].
Qed.

(** [attempt] invokes the operation on the host it is given and hands on
    the host the operation leaves. *)
Lemma attempt_runs_operation (fn : M Host T) (b : CircuitBreaker) (h : Host) :
  snd (snd (attempt fn (b, h))) = snd (fn h).
Proof.
  unfold CB.attempt, CB.executeWithTimeout.
  destruct (fn h) as [c h'].
  destruct (timerFiresFirst (timeout cfg) h h'); [reflexivity |].
  now destruct c.
Qed.

Lemma attempt_cases (fn : M Host T) (b : CircuitBreaker) (h : Host) :
  (exists v h', executeWithTimeout fn h = (Return v, h')
                /\ attempt fn (b, h) = (Return v, (onSuccess cfg b, h')))
  \/ (exists e h', executeWithTimeout fn h = (Throw e, h')
                /\ attempt fn (b, h)
                   = (Throw e, (onFailure cfg (dateNow h') b, h'))).
Proof.
  unfold CB.attempt.
  destruct (executeWithTimeout fn h) as [[v | e] h'];
    [left | right]; eauto.
Qed.


(** After a call that threw, a breaker that was OPEN with a recorded
    failure time is again OPEN with a recorded failure time. *)
Lemma open_stays_open_on_throw (fn : M Host T) (b b' : CircuitBreaker)
  (h h' : Host) (e : Thrown) :
  state b = OPEN -> lastFailureTime b <> None ->
  execute fn (b, h) = (Throw e, (b', h')) ->
  state b' = OPEN /\ lastFailureTime b' <> None.
Proof.
  intros Hs Hl He.
  destruct (shouldAttemptReset b h) eqn:Hr.
  - rewrite (execute_open_probes fn b h Hs Hr) in He.
    destruct (attempt_cases fn (set_state HALF_OPEN (counted b)) h)
      as [(v & h1 & _ & Ha) | (e1 & h1 & _ & Ha)];
      rewrite Ha in He; inversion He; subst.
    split; [reflexivity | discriminate].
  - rewrite (execute_open_rejects fn b h Hs Hr) in He.
    unfold CB.rejection in He.
    destruct (fallback cfg) as [fb |].
    + destruct (fb h) as [c h1]. inversion He; subst. now split.
    + inversion He; subst. now split.
Qed.

(** A call that threw on a CLOSED breaker is a recorded failure. *)
Lemma closed_throw_counts (fn : M Host T) (b b' : CircuitBreaker)
  (h h' : Host) (e : Thrown) :
  state b = CLOSED ->
  execute fn (b, h) = (Throw e, (b', h')) ->
  lastFailureTime b' <> None
  /\ ((failureThreshold cfg <= failures b + 1 /\ state b' = OPEN)
      \/ (failures b + 1 < failureThreshold cfg
          /\ state b' = CLOSED /\ failures b' = failures b + 1)).
Proof.
  intros Hs He.
  rewrite execute_not_open in He by (rewrite Hs; discriminate).
  destruct (attempt_cases fn (counted b) h)
    as [(v & h1 & _ & Ha) | (e1 & h1 & _ & Ha)];
    rewrite Ha in He; inversion He; subst; clear He Ha.
  unfold CB.onFailure, counted. unfold_setters. rewrite Hs.
  destruct (Z.geb_spec (failures b + 1) (failureThreshold cfg));
    simpl; (split; [discriminate |]); [left | right]; repeat split; lia.
Qed.

Lemma failing_calls_open (calls : list (@Call Host T)) :
  forall (b : CircuitBreaker) (h : Host),
    (state b = OPEN /\ lastFailureTime b <> None)
    \/ (state b = CLOSED /\ calls <> []
        /\ failureThreshold cfg <= failures b + Z.of_nat (List.length calls)) ->
    forallb isThrow (fst (executeAll calls (b, h))) = true ->
    state (fst (snd (executeAll calls (b, h)))) = OPEN
    /\ lastFailureTime (fst (snd (executeAll calls (b, h)))) <> None.
Proof.
  induction calls as [| c rest IH]; intros b h Hinv Hall.
  - destruct Hinv as [Hopen | (_ & Hne & _)]; [exact Hopen | congruence].
  - cbn [CB.executeAll fst snd] in *.
    destruct (execute (op c) (b, before c h)) as [r [b1 h1]] eqn:He.
    specialize (IH b1 h1).
    destruct (executeAll rest (b1, h1)) as [rs s2] eqn:Hrest.
    cbn [fst snd forallb] in *.
    apply andb_prop in Hall as [Hr Hrs].
    destruct r as [v | e]; [discriminate |].
    apply IH; [| exact Hrs].
    destruct Hinv as [[Hs Hl] | (Hs & _ & Hlen)].
    + left. eapply open_stays_open_on_throw; eauto.
    + destruct (closed_throw_counts _ _ _ _ _ _ Hs He)
        as [Hl [[_ Ho] | (Hlt & Hc & Hf)]].
      * left. now split.
      * right. split; [exact Hc |]. rewrite Hf.
        cbn [List.length] in Hlen.
        split; [| lia].
        destruct rest; [cbn [List.length] in Hlen; lia | discriminate].
Qed.

(** The part of C1 that holds.  On a CLOSED breaker, [failureThreshold]
    consecutive calls to
    [execute] that each fail leave the breaker OPEN, and the next call,
    made before [resetTimeout] has elapsed since the recorded failure
    time [t], is turned away: its outcome is [rejection], which does not
    depend on the operation and hands the host to nothing but the
    configured fallback.  [0 <= failures b] holds of every breaker the
    class can produce; [t <> 0] says that the failure was not recorded at
    clock reading 0, which [!this.lastFailureTime] would take for "no
    failure yet". *)
Theorem closed_breaker_opens_after_threshold_failures
  (b : CircuitBreaker) (h : Host) (calls : list (@Call Host T)) :
  state b = CLOSED ->
  0 <= failures b ->
  0 < failureThreshold cfg ->
  Z.of_nat (List.length calls) = failureThreshold cfg ->
  forallb isThrow (fst (executeAll calls (b, h))) = true ->
  let b' := fst (snd (executeAll calls (b, h))) in
  state b' = OPEN
  /\ exists t : Z,
       lastFailureTime b' = Some t
       /\ forall (fn : M Host T) (h1 : Host),
            t <> 0 ->
            dateNow h1 - t < resetTimeout cfg ->
            execute fn (b', h1) = rejection b' h1.
Proof.
  intros Hs Hf Hthr Hlen Hall b'.
  assert (Hne : calls <> []) by (destruct calls; [cbn in Hlen; lia | discriminate]).
  destruct (failing_calls_open calls b h) as [Ho Hl]; [| exact Hall |].
  { right. repeat split; [exact Hs | exact Hne | lia]. }
  fold b' in Ho, Hl. split; [exact Ho |].
  destruct (lastFailureTime b') as [t |] eqn:Ht; [| congruence].
  exists t. split; [reflexivity |].
  intros fn h1 Hnz Hrecent.
  apply execute_open_rejects; [exact Ho |].
  eapply shouldAttemptReset_recent; eauto.
Qed.

(** The part of C4 that holds.  An OPEN breaker whose last failure was
    recorded at [t <> 0]: a call
    made while [Date.now() - t < resetTimeout] is turned away (circuit-open
    error, or the fallback's completion) whatever the operation is; a call
    made once [Date.now() - t >= resetTimeout] runs the operation, with the
    breaker switched to HALF_OPEN for the probe. *)
Theorem open_breaker_rejects_until_resetTimeout_then_probes
  (b : CircuitBreaker) (h : Host) (fn : M Host T) (t : Z) :
  state b = OPEN ->
  lastFailureTime b = Some t ->
  (t <> 0 -> dateNow h - t < resetTimeout cfg ->
   execute fn (b, h) = rejection b h)
  /\ (resetTimeout cfg <= dateNow h - t ->
      execute fn (b, h) = attempt fn (set_state HALF_OPEN (counted b), h)
      /\ state (set_state HALF_OPEN (counted b)) = HALF_OPEN
      /\ snd (snd (execute fn (b, h))) = snd (fn h)).
Proof.
  intros Hs Ht. split.
  - intros Hnz Hlt. apply execute_open_rejects; [exact Hs |].
    eapply shouldAttemptReset_recent; eauto.
  - intros Hle.
    assert (Hr : shouldAttemptReset b h = true)
      by (eapply shouldAttemptReset_elapsed; eauto).
    rewrite (execute_open_probes fn b h Hs Hr).
    repeat split. apply attempt_runs_operation.
Qed.

(** A call that returned on a CLOSED breaker clears the failure count. *)
Lemma closed_return_counts (fn : M Host T) (b b' : CircuitBreaker)
  (h h' : Host) (v : T) :
  state b = CLOSED ->
  execute fn (b, h) = (Return v, (b', h')) ->
  state b' = CLOSED /\ failures b' = 0 /\ successes b' = successes b.
Proof.
  intros Hs He.
  rewrite execute_not_open in He by (rewrite Hs; discriminate).
  destruct (attempt_cases fn (counted b) h)
    as [(v1 & h1 & _ & Ha) | (e1 & h1 & _ & Ha)];
    rewrite Ha in He; inversion He; subst; clear He Ha.
  unfold CB.onSuccess, counted. unfold_setters. rewrite Hs. simpl.
  repeat split; assumption.
Qed.

(** A call that returned on a HALF_OPEN breaker counts one success and
    closes the breaker once the threshold is reached. *)
Lemma half_open_return_counts (fn : M Host T) (b b' : CircuitBreaker)
  (h h' : Host) (v : T) :
  state b = HALF_OPEN ->
  execute fn (b, h) = (Return v, (b', h')) ->
  (successThreshold cfg <= successes b + 1
   /\ state b' = CLOSED /\ failures b' = 0 /\ successes b' = 0)
  \/ (successes b + 1 < successThreshold cfg
      /\ state b' = HALF_OPEN /\ successes b' = successes b + 1).
Proof.
  intros Hs He.
  rewrite execute_not_open in He by (rewrite Hs; discriminate).
  destruct (attempt_cases fn (counted b) h)
    as [(v1 & h1 & _ & Ha) | (e1 & h1 & _ & Ha)];
    rewrite Ha in He; inversion He; subst; clear He Ha.
  unfold CB.onSuccess, counted. unfold_setters. rewrite Hs. simpl.
  destruct (Z.geb_spec (successes b + 1) (successThreshold cfg));
    simpl; [left | right]; repeat split; try lia; assumption.
Qed.

Lemma succeeding_calls_close (calls : list (@Call Host T)) :
  forall (b : CircuitBreaker) (h : Host),
    (state b = CLOSED /\ failures b = 0 /\ successes b = 0)
    \/ (state b = HALF_OPEN /\ calls <> []
        /\ successThreshold cfg <= successes b + Z.of_nat (List.length calls)) ->
    forallb isReturn (fst (executeAll calls (b, h))) = true ->
    let b' := fst (snd (executeAll calls (b, h))) in
    state b' = CLOSED /\ failures b' = 0 /\ successes b' = 0.
Proof.
  induction calls as [| c rest IH]; intros b h Hinv Hall.
  - destruct Hinv as [Hc | (_ & Hne & _)]; [exact Hc | congruence].
  - cbn [CB.executeAll fst snd] in *.
    destruct (execute (op c) (b, before c h)) as [r [b1 h1]] eqn:He.
    specialize (IH b1 h1).
    destruct (executeAll rest (b1, h1)) as [rs s2] eqn:Hrest.
    cbn [fst snd forallb] in *.
    apply andb_prop in Hall as [Hr Hrs].
    destruct r as [v | e]; [| discriminate].
    apply IH; [| exact Hrs].
    destruct Hinv as [(Hs & Hf & Hsu) | (Hs & _ & Hlen)].
    + left. destruct (closed_return_counts _ _ _ _ _ _ Hs He) as (? & ? & ?).
      repeat split; congruence.
    + destruct (half_open_return_counts _ _ _ _ _ _ Hs He)
        as [(_ & Hc) | (Hlt & Hh & Hsu)].
      * left. exact Hc.
      * right. split; [exact Hh |]. rewrite Hsu.
        cbn [List.length] in Hlen.
        split; [| lia].
        destruct rest; [cbn [List.length] in Hlen; lia | discriminate].
Qed.

(** C5.  In HALF_OPEN a single failed call (the operation throws or its
    timer fires first) re-opens the breaker, whatever the success count
    was, and records the clock reading of that failure; and
    [successThreshold] consecutive calls that succeed leave the breaker
    CLOSED with both consecutive counters at 0. *)
Theorem half_open_failure_reopens_and_successes_close :
  (forall (b : CircuitBreaker) (h h' : Host) (fn : M Host T) (e : Thrown),
      state b = HALF_OPEN ->
      executeWithTimeout fn h = (Throw e, h') ->
      exists b' : CircuitBreaker,
        execute fn (b, h) = (Throw e, (b', h'))
        /\ state b' = OPEN
        /\ lastFailureTime b' = Some (dateNow h')
        /\ successes b' = 0)
  /\ (forall (b : CircuitBreaker) (h : Host) (calls : list (@Call Host T)),
      state b = HALF_OPEN ->
      0 <= successes b ->
      0 < successThreshold cfg ->
      Z.of_nat (List.length calls) = successThreshold cfg ->
      forallb isReturn (fst (executeAll calls (b, h))) = true ->
      let b' := fst (snd (executeAll calls (b, h))) in
      state b' = CLOSED /\ failures b' = 0 /\ successes b' = 0).
Proof.
  split.
  - intros b h h' fn e Hs Hf.
    rewrite execute_not_open by (rewrite Hs; discriminate).
    unfold CB.attempt. rewrite Hf.
    eexists; split; [reflexivity |].
    unfold CB.onFailure, counted. unfold_setters. rewrite Hs. simpl.
    repeat split.
  - intros b h calls Hs Hsu Hthr Hlen Hall.
    apply succeeding_calls_close; [| exact Hall].
    right. split; [exact Hs |].
    split; [destruct calls; [cbn in Hlen; lia | discriminate] | lia].
Qed.

(** C8, as the code has it.  Entering OPEN (from CLOSED or from HALF_OPEN)
    zeroes the success count only: the failure count keeps the value the
    failing call gave it.  Entering HALF_OPEN touches neither counter.
    Entering CLOSED zeroes both. *)
Theorem transitions_reset_counters_as_coded :
  (forall (now : Z) (b : CircuitBreaker),
      state b = CLOSED -> state (onFailure cfg now b) = OPEN ->
      successes (onFailure cfg now b) = 0
      /\ failures (onFailure cfg now b) = failures b + 1)
  /\ (forall (now : Z) (b : CircuitBreaker),
      state b = HALF_OPEN ->
      state (onFailure cfg now b) = OPEN
      /\ successes (onFailure cfg now b) = 0
      /\ failures (onFailure cfg now b) = failures b + 1)
  /\ (forall b : CircuitBreaker,
      state b = HALF_OPEN -> state (onSuccess cfg b) = CLOSED ->
      failures (onSuccess cfg b) = 0 /\ successes (onSuccess cfg b) = 0)
  /\ (forall (b : CircuitBreaker) (h : Host) (fn : M Host T),
      state b = OPEN -> shouldAttemptReset b h = true ->
      let probing := set_state HALF_OPEN (counted b) in
      execute fn (b, h) = attempt fn (probing, h)
      /\ state probing = HALF_OPEN
      /\ failures probing = failures b
      /\ successes probing = successes b).
Proof.
  split; [| split; [| split]].
  - intros now b Hs Ho.
    unfold CB.onFailure in *. unfold_setters. rewrite Hs in *.
    destruct (failures b + 1 >=? failureThreshold cfg); simpl in *;
      [split; reflexivity | congruence].
  - intros now b Hs.
    unfold CB.onFailure. unfold_setters. rewrite Hs.
    repeat split.
  - intros b Hs Hc.
    unfold CB.onSuccess in *. unfold_setters. rewrite Hs in *.
    destruct (successes b + 1 >=? successThreshold cfg); simpl in *;
      [split; reflexivity | congruence].
  - intros b h fn Hs Hr probing.
    split; [now apply execute_open_probes | repeat split].
Qed.

(** *** Lifetime counters *)

Lemma onSuccess_totals (b : CircuitBreaker) :
  totalCalls (onSuccess cfg b) = totalCalls b
  /\ totalFailures (onSuccess cfg b) = totalFailures b
  /\ totalSuccesses (onSuccess cfg b) = totalSuccesses b + 1.
Proof.
  unfold CB.onSuccess. unfold_setters.
  destruct (state b); simpl; try (repeat split; reflexivity).
  destruct (successes b + 1 >=? successThreshold cfg); repeat split.
Qed.

Lemma onFailure_totals (now : Z) (b : CircuitBreaker) :
  totalCalls (onFailure cfg now b) = totalCalls b
  /\ totalFailures (onFailure cfg now b) = totalFailures b + 1
  /\ totalSuccesses (onFailure cfg now b) = totalSuccesses b.
Proof.
  unfold CB.onFailure. unfold_setters.
  destruct (state b); simpl; try (repeat split; reflexivity);
    destruct (failures b + 1 >=? failureThreshold cfg); repeat split.
Qed.

Lemma attempt_totals (fn : M Host T) (b : CircuitBreaker) (h : Host) :
  let b' := fst (snd (attempt fn (b, h))) in
  totalCalls b' = totalCalls b
  /\ ((totalFailures b' = totalFailures b + 1
       /\ totalSuccesses b' = totalSuccesses b)
      \/ (totalFailures b' = totalFailures b
          /\ totalSuccesses b' = totalSuccesses b + 1)).
Proof.
  destruct (attempt_cases fn b h)
    as [(v & h1 & _ & Ha) | (e & h1 & _ & Ha)]; rewrite Ha; cbn [fst snd].
  - destruct (onSuccess_totals b) as (? & ? & ?). split; [| right]; auto.
  - destruct (onFailure_totals (dateNow h1) b) as (? & ? & ?).
    split; [| left]; auto.
Qed.

(** One call to [execute] adds one to [totalCalls] and at most one to
    [totalFailures] and [totalSuccesses] together. *)
Lemma execute_totals (fn : M Host T) (b : CircuitBreaker) (h : Host) :
  let b' := fst (snd (execute fn (b, h))) in
  totalCalls b' = totalCalls b + 1
  /\ totalFailures b <= totalFailures b'
  /\ totalSuccesses b <= totalSuccesses b'
  /\ totalFailures b' + totalSuccesses b'
     <= totalFailures b + totalSuccesses b + 1.
Proof.
  assert (Hatt : forall b0 : CircuitBreaker,
             totalCalls b0 = totalCalls b + 1 ->
             totalFailures b0 = totalFailures b ->
             totalSuccesses b0 = totalSuccesses b ->
             let b' := fst (snd (attempt fn (b0, h))) in
             totalCalls b' = totalCalls b + 1
             /\ totalFailures b <= totalFailures b'
             /\ totalSuccesses b <= totalSuccesses b'
             /\ totalFailures b' + totalSuccesses b'
                <= totalFailures b + totalSuccesses b + 1).
  { intros b0 Hc Hf Hs.
    destruct (attempt_totals fn b0 h) as [Hc' [[Hf' Hs'] | [Hf' Hs']]];
      cbn zeta in *; lia. }
  destruct (state b) eqn:Hs.
  - rewrite execute_not_open by (rewrite Hs; discriminate).
    now apply Hatt.
  - destruct (shouldAttemptReset b h) eqn:Hr.
    + rewrite (execute_open_probes fn b h Hs Hr). now apply Hatt.
    + rewrite (execute_open_rejects fn b h Hs Hr). unfold CB.rejection.
      destruct (fallback cfg) as [fb |]; [destruct (fb h) |];
        cbn [fst snd counted set_totalCalls totalCalls totalFailures
             totalSuccesses]; lia.
  - rewrite execute_not_open by (rewrite Hs; discriminate).
    now apply Hatt.
Qed.

Lemma step_totals (a : @Action Host T) (s : CircuitBreaker * Host) :
  let b := fst s in
  let b' := fst (step a s) in
  totalCalls b <= totalCalls b'
  /\ totalFailures b <= totalFailures b'
  /\ totalSuccesses b <= totalSuccesses b'
  /\ (totalFailures b + totalSuccesses b <= totalCalls b ->
      totalFailures b' + totalSuccesses b' <= totalCalls b').
Proof.
  destruct s as [b h]. destruct a as [fn | | env]; cbn [CB.step fst snd].
  - destruct (execute_totals fn b h) as (Hc & Hf & Hs & Hsum).
    cbn zeta in *. lia.
  - unfold_setters. lia.
  - lia.
Qed.

Lemma run_totals (acts : list (@Action Host T)) :
  forall s : CircuitBreaker * Host,
    let b := fst s in
    let b' := fst (run acts s) in
    totalCalls b <= totalCalls b'
    /\ totalFailures b <= totalFailures b'
    /\ totalSuccesses b <= totalSuccesses b'
    /\ (totalFailures b + totalSuccesses b <= totalCalls b ->
        totalFailures b' + totalSuccesses b' <= totalCalls b').
Proof.
  induction acts as [| a rest IH]; intros s; cbn [CB.run].
  - cbn zeta. lia.
  - specialize (IH (step a s)).
    pose proof (step_totals a s) as Hstep.
    cbn zeta in *. lia.
Qed.

(** C9.  Over any sequence of [execute] calls, [reset] calls and host
    activity, the three lifetime counters never decrease; and [reset]
    puts the breaker in CLOSED with both consecutive counters at 0 and no
    recorded failure time, leaving the lifetime counters as they were. *)
Theorem lifetime_counters_monotone_and_reset_closes
  (acts : list (@Action Host T)) (b : CircuitBreaker) (h : Host) :
  let b' := fst (run acts (b, h)) in
  (totalCalls b <= totalCalls b'
   /\ totalFailures b <= totalFailures b'
   /\ totalSuccesses b <= totalSuccesses b')
  /\ (state (reset b) = CLOSED
      /\ failures (reset b) = 0
      /\ successes (reset b) = 0
      /\ lastFailureTime (reset b) = None
      /\ totalCalls (reset b) = totalCalls b
      /\ totalFailures (reset b) = totalFailures b
      /\ totalSuccesses (reset b) = totalSuccesses b).
Proof.
  intros b'. split.
  - destruct (run_totals acts (b, h)) as (Hc & Hf & Hs & _).
    repeat split; assumption.
  - repeat split.
Qed.

(** C10.  A call turned away while the breaker is OPEN changes the
    statistics in [totalCalls] alone, by one, whether it throws the
    circuit-open error or returns the fallback's completion; so a
    fallback-served call is no success.  And from a new breaker on, after
    every operation, [totalCalls >= totalFailures + totalSuccesses]. *)
Theorem rejected_call_only_counts :
  (forall (b : CircuitBreaker) (h : Host) (fn : M Host T),
      state b = OPEN -> shouldAttemptReset b h = false ->
      let b' := fst (snd (execute fn (b, h))) in
      execute fn (b, h) = rejection b h
      /\ getStats b'
         = {| stats_state := stats_state (getStats b);
              stats_failures := stats_failures (getStats b);
              stats_successes := stats_successes (getStats b);
              stats_lastFailure := stats_lastFailure (getStats b);
              stats_totalCalls := stats_totalCalls (getStats b) + 1;
              stats_totalFailures := stats_totalFailures (getStats b);
              stats_totalSuccesses := stats_totalSuccesses (getStats b) |})
  /\ (forall (acts : list (@Action Host T)) (b : CircuitBreaker) (h : Host),
      totalFailures b + totalSuccesses b <= totalCalls b ->
      let b' := fst (run acts (b, h)) in
      totalFailures b' + totalSuccesses b' <= totalCalls b')
  /\ totalFailures newBreaker + totalSuccesses newBreaker
     <= totalCalls newBreaker.
Proof.
  split; [| split].
  - intros b h fn Hs Hr b'. subst b'.
    rewrite (execute_open_rejects fn b h Hs Hr). split; [reflexivity |].
    unfold CB.rejection.
    destruct (fallback cfg) as [fb |]; [destruct (fb h) |]; reflexivity.
  - intros acts b h Hinv.
    destruct (run_totals acts (b, h)) as (_ & _ & _ & Hsum).
    apply Hsum, Hinv.
  - cbn. lia.
Qed.

(** Without a fallback, a call returns only what the operation itself
    returned. *)
Lemma execute_return_is_operation (fn : M Host T) (b b' : CircuitBreaker)
  (h h' : Host) (v : T) :
  fallback cfg = None ->
  execute fn (b, h) = (Return v, (b', h')) ->
  fn h = (Return v, h').
Proof.
  intros Hfb Hrun.
  assert (Hatt : forall b0 : CircuitBreaker,
             attempt fn (b0, h) = (Return v, (b', h')) ->
             fn h = (Return v, h')).
  { intros b0 Ha.
    destruct (attempt_cases fn b0 h)
      as [(v1 & h1 & Ht & Ha') | (e & h1 & _ & Ha')];
      rewrite Ha' in Ha; inversion Ha; subst.
    unfold CB.executeWithTimeout in Ht.
    destruct (fn h) as [c0 h0].
    destruct (timerFiresFirst (timeout cfg) h h0); [discriminate | exact Ht]. }
  destruct (state b) eqn:Hst.
  - rewrite execute_not_open in Hrun by (rewrite Hst; discriminate); eauto.
  - destruct (shouldAttemptReset b h) eqn:Hr.
    + rewrite (execute_open_probes fn b h Hst Hr) in Hrun; eauto.
    + rewrite (execute_open_rejects fn b h Hst Hr) in Hrun.
      unfold CB.rejection in Hrun. rewrite Hfb in Hrun. discriminate.
  - rewrite execute_not_open in Hrun by (rewrite Hst; discriminate); eauto.
Qed.

(** *** Breakers the class can produce *)

Lemma step_counters_nonneg (a : @Action Host T) (s : CircuitBreaker * Host) :
  0 <= failures (fst s) /\ 0 <= successes (fst s) ->
  0 <= failures (fst (step a s)) /\ 0 <= successes (fst (step a s)).
Proof.
  destruct s as [b h]. cbn [fst]. intros [Hf Hs].
  assert (Hatt : forall (fn : M Host T) (b0 : CircuitBreaker),
             0 <= failures b0 -> 0 <= successes b0 ->
             0 <= failures (fst (snd (attempt fn (b0, h))))
             /\ 0 <= successes (fst (snd (attempt fn (b0, h))))).
  { intros fn b0 Hf0 Hs0.
    destruct (attempt_cases fn b0 h)
      as [(v & h1 & _ & Ha) | (e & h1 & _ & Ha)]; rewrite Ha; cbn [fst snd].
    - unfold CB.onSuccess. unfold_setters.
      destruct (state b0); simpl; try lia.
      destruct (successes b0 + 1 >=? successThreshold cfg); simpl; lia.
    - unfold CB.onFailure. unfold_setters.
      destruct (state b0); simpl; try lia;
        destruct (failures b0 + 1 >=? failureThreshold cfg); simpl; lia. }
  destruct a as [fn | | env]; cbn [CB.step fst snd].
  - destruct (state b) eqn:Hst.
    + rewrite execute_not_open by (rewrite Hst; discriminate).
      now apply Hatt.
    + destruct (shouldAttemptReset b h) eqn:Hr.
      * rewrite (execute_open_probes fn b h Hst Hr). now apply Hatt.
      * rewrite (execute_open_rejects fn b h Hst Hr). unfold CB.rejection.
        destruct (fallback cfg) as [fb |]; [destruct (fb h) |];
          cbn [fst snd]; now split.
    + rewrite execute_not_open by (rewrite Hst; discriminate).
      now apply Hatt.
  - unfold_setters. lia.
  - now split.
Qed.

(** Whatever has been done to a breaker since [new CircuitBreaker], its
    consecutive counters are not negative. *)
Lemma run_counters_nonneg (acts : list (@Action Host T)) (h : Host) :
  0 <= failures (fst (run acts (newBreaker, h)))
  /\ 0 <= successes (fst (run acts (newBreaker, h))).
Proof.
  assert (Hgen : forall s : CircuitBreaker * Host,
             0 <= failures (fst s) /\ 0 <= successes (fst s) ->
             0 <= failures (fst (run acts s))
             /\ 0 <= successes (fst (run acts s))).
  { induction acts as [| a rest IH]; intros s Hs; cbn [CB.run]; [exact Hs |].
    apply IH. now apply step_counters_nonneg. }
  apply Hgen. cbn. lia.
Qed.

End BreakerFacts.

(* ================================================================== *)
(** * Properties of the retry executor *)

Import Retry.

Section RetryFacts.

Context {Host T : Type}.
Variable setTimeout : Z -> Host -> Host.
Variable fn : M Host T.
Variable cfg : RetryConfig.

Local Abbreviation loop :=
  (retryLoop (setTimeoutLogged (T:=T) setTimeout) (spy fn) cfg).

Lemma specDelay_bounded (i : nat) :
  initialDelay cfg <= maxDelay cfg -> specDelay cfg i <= maxDelay cfg.
Proof.
  intros H. destruct i as [| j]; cbn [specDelay]; [exact H | apply Z.le_min_r].
Qed.

Lemma specDelay_nonneg (i : nat) :
  0 <= initialDelay cfg <= maxDelay cfg -> 1 <= backoffMultiplier cfg ->
  0 <= specDelay cfg i.
Proof.
  intros H Hm. induction i as [| j IH]; cbn [specDelay]; [lia |].
  apply Z.min_glb; nia.
Qed.

Lemma specDelay_step (i : nat) :
  0 <= initialDelay cfg <= maxDelay cfg -> 1 <= backoffMultiplier cfg ->
  specDelay cfg i <= specDelay cfg (S i).
Proof.
  intros H Hm.
  pose proof (specDelay_nonneg i H Hm) as Hpos.
  pose proof (specDelay_bounded i (proj2 H)) as Hmax.
  cbn [specDelay]. apply Z.min_glb; nia.
Qed.

Lemma Interleaved_counts (evs : list (Event T)) :
  Interleaved evs ->
  List.length (sleeps evs) = Nat.pred (List.length (invocations evs)).
Proof.
  induction 1 as [| c | c ms rest Hne Hrest IH]; try reflexivity.
  change (S (List.length (sleeps rest))
          = Nat.pred (S (List.length (invocations rest)))).
  rewrite IH. destruct Hrest; [congruence | reflexivity | reflexivity].
Qed.

(** What one run of the loop appends to the journal. *)
Lemma loop_journal (fuel : nat) :
  forall (i : nat) (lastError : Thrown) (h : Host) (log : list (Event T)),
    maxRetries cfg + 1 - Z.of_nat i <= Z.of_nat fuel ->
    exists evs : list (Event T),
      snd (snd (loop fuel (Z.of_nat i) (specDelay cfg i) lastError (h, log)))
      = log ++ evs
      /\ Interleaved evs
      /\ sleeps evs = map (specDelay cfg) (seq i (List.length (sleeps evs)))
      /\ (List.length (invocations evs) <= fuel)%nat
      /\ (Z.of_nat i <= maxRetries cfg -> evs <> []).
Proof.
  induction fuel as [| fuel' IH]; intros i lastError h log Hfuel.
  - exists []. cbn. rewrite app_nil_r.
    repeat split; [constructor | lia | lia].
  - cbn [retryLoop].
    destruct (Z.leb_spec (Z.of_nat i) (maxRetries cfg)) as [Hle | Hgt].
    2:{ exists []. cbn. rewrite app_nil_r.
        repeat split; [constructor | lia | lia]. }
    unfold spy at 1. destruct (fn h) as [[v | e] h1].
    + exists [Invoked (Return v)]. cbn.
      repeat split; [constructor | lia | discriminate].
    + destruct (Z.geb_spec (Z.of_nat i) (maxRetries cfg)) as [Hge | Hlt].
      { exists [Invoked (Throw e)]. cbn.
        repeat split; [constructor | lia | discriminate]. }
      destruct (refusesRetry cfg e).
      { exists [Invoked (Throw e)]. cbn.
        repeat split; [constructor | lia | discriminate]. }
      cbn [sleep setTimeoutLogged fst snd].
      replace (Z.of_nat i + 1) with (Z.of_nat (S i)) by lia.
      change (Z.min (specDelay cfg i * backoffMultiplier cfg) (maxDelay cfg))
        with (specDelay cfg (S i)).
      destruct (IH (S i) e (setTimeout (specDelay cfg i) h1)
                   ((log ++ [Invoked (Throw e)]) ++ [Slept (specDelay cfg i)]))
        as (evs & Hlog & Hil & Hsl & Hinv & Hne); [lia |].
      exists (Invoked (Throw e) :: Slept (specDelay cfg i) :: evs).
      change (setTimeoutLogged setTimeout (specDelay cfg i)
                (h1, log ++ [Invoked (Throw e)]))
        with (setTimeout (specDelay cfg i) h1,
              (log ++ [Invoked (Throw e)]) ++ [Slept (specDelay cfg i)]).
      rewrite Hlog. repeat rewrite <- app_assoc. cbn [app].
      split; [reflexivity |].
      assert (Hevs : evs <> []) by (apply Hne; lia).
      split; [constructor; assumption |].
      change (sleeps (Invoked (Throw e) :: Slept (specDelay cfg i) :: evs))
        with (specDelay cfg i :: sleeps evs).
      change (invocations (Invoked (Throw e) :: Slept (specDelay cfg i) :: evs))
        with (Throw e :: invocations evs).
      cbn [List.length seq map].
      split; [f_equal; exact Hsl |].
      split; [lia | discriminate].
Qed.

(** An operation that fails whenever it is invoked, under a policy that
    never refuses a retry, uses up every attempt the loop has left, and
    the loop throws what the last invocation threw. *)
Lemma loop_always_fails (fuel : nat) :
  forall (i : nat) (delay : Z) (lastError : Thrown) (h : Host)
         (log : list (Event T)),
    (forall h0 : Host, exists e h1, fn h0 = (Throw e, h1)) ->
    (forall e : Thrown, refusesRetry cfg e = false) ->
    Z.of_nat (S fuel) = maxRetries cfg + 1 - Z.of_nat i ->
    exists (e : Thrown) (h' : Host) (evs : list (Event T)),
      loop (S fuel) (Z.of_nat i) delay lastError (h, log)
      = (Throw e, (h', log ++ evs))
      /\ List.length (invocations evs) = S fuel
      /\ last (invocations evs) (Throw Undefined) = Throw e.
Proof.
  induction fuel as [| fuel' IH];
    intros i delay lastError h log Hfail Hretry Hfuel.
  - cbn [retryLoop].
    destruct (Z.leb_spec (Z.of_nat i) (maxRetries cfg)) as [Hle | Hgt]; [| lia].
    unfold spy at 1. destruct (Hfail h) as (e1 & h1 & Hfn). rewrite Hfn.
    destruct (Z.geb_spec (Z.of_nat i) (maxRetries cfg)) as [Hge | Hlt]; [| lia].
    exists e1, h1, [Invoked (Throw e1)]. repeat split.
  - remember (S fuel') as f eqn:Hf. cbn [retryLoop].
    destruct (Z.leb_spec (Z.of_nat i) (maxRetries cfg)) as [Hle | Hgt]; [| lia].
    unfold spy at 1. destruct (Hfail h) as (e1 & h1 & Hfn). rewrite Hfn.
    destruct (Z.geb_spec (Z.of_nat i) (maxRetries cfg)) as [Hge | Hlt]; [lia |].
    rewrite Hretry. cbn [sleep].
    change (setTimeoutLogged setTimeout delay (h1, log ++ [Invoked (Throw e1)]))
      with (setTimeout delay h1, (log ++ [Invoked (Throw e1)]) ++ [Slept delay]).
    replace (Z.of_nat i + 1) with (Z.of_nat (S i)) by lia.
    subst f.
    destruct (IH (S i) (Z.min (delay * backoffMultiplier cfg) (maxDelay cfg))
                 e1 (setTimeout delay h1)
                 ((log ++ [Invoked (Throw e1)]) ++ [Slept delay])
                 Hfail Hretry) as (e & h' & evs & Hrun & Hlen & Hlast); [lia |].
    exists e, h', (Invoked (Throw e1) :: Slept delay :: evs).
    rewrite Hrun. repeat rewrite <- app_assoc. cbn [app].
    split; [reflexivity |].
    change (invocations (Invoked (Throw e1) :: Slept delay :: evs))
      with (Throw e1 :: invocations evs).
    cbn [List.length]. split; [now rewrite Hlen |].
    destruct (invocations evs) as [| c cs]; [discriminate | exact Hlast].
Qed.

End RetryFacts.

Section RetryTheorems.

Context {Host T : Type}.
Variable setTimeout : Z -> Host -> Host.

Local Abbreviation observed := (Retry.observed (T:=T) setTimeout).

(** C6.  [withRetry] invokes the operation at most [maxRetries + 1]
    times.  An operation that fails at every invocation, under a policy
    that refuses no retry, is invoked exactly [maxRetries + 1] times (4
    times for [maxRetries = 3]) and [withRetry] throws what the last
    invocation threw.  When [isRetryable] answers [false] for what the
    first invocation threw, that invocation is the only one and its error
    is thrown on, with no sleep. *)
Theorem withRetry_attempts :
  (forall (fn : M Host T) (config : PartialRetryConfig) (h : Host),
      0 <= maxRetries (mergeConfig config) ->
      Z.of_nat (List.length (invocations (snd (snd (observed fn config h)))))
      <= maxRetries (mergeConfig config) + 1)
  /\ (forall (fn : M Host T) (config : PartialRetryConfig) (h : Host),
      0 <= maxRetries (mergeConfig config) ->
      (forall h0 : Host, exists e h1, fn h0 = (Throw e, h1)) ->
      (forall e : Thrown, refusesRetry (mergeConfig config) e = false) ->
      exists (e : Thrown) (h' : Host) (log : list (Event T)),
        observed fn config h = (Throw e, (h', log))
        /\ Z.of_nat (List.length (invocations log))
           = maxRetries (mergeConfig config) + 1
        /\ (maxRetries (mergeConfig config) = 3 ->
            List.length (invocations log) = 4%nat)
        /\ last (invocations log) (Throw Undefined) = Throw e)
  /\ (forall (fn : M Host T) (config : PartialRetryConfig) (h h1 : Host)
             (e : Thrown) (p : Thrown -> bool),
      0 <= maxRetries (mergeConfig config) ->
      isRetryable (mergeConfig config) = Some p ->
      fn h = (Throw e, h1) ->
      p e = false ->
      observed fn config h = (Throw e, (h1, [Invoked (Throw e)]))).
Proof.
  split; [| split].
  - intros fn config h Hmax. unfold Retry.observed, withRetry.
    destruct (loop_journal setTimeout fn (mergeConfig config)
                (Z.to_nat (maxRetries (mergeConfig config) + 1))
                0%nat Undefined h [])
      as (evs & Hlog & _ & _ & Hinv & _); [cbn [Z.of_nat]; lia |].
    cbn [Z.of_nat specDelay] in Hlog. rewrite Hlog. cbn [app]. lia.
  - intros fn config h Hmax Hfail Hretry. unfold Retry.observed, withRetry.
    remember (mergeConfig config) as cfg eqn:Hcfg.
    destruct (Z.to_nat (maxRetries cfg + 1)) as [| fuel] eqn:Hfuel; [lia |].
    destruct (loop_always_fails setTimeout fn cfg fuel 0%nat
                (initialDelay cfg) Undefined h [] Hfail Hretry)
      as (e & h' & evs & Hrun & Hlen & Hlast); [cbn [Z.of_nat]; lia |].
    cbn [Z.of_nat app] in Hrun.
    exists e, h', evs. rewrite Hrun.
    repeat split; [lia | lia | exact Hlast].
  - intros fn config h h1 e p Hmax Hp Hfn Hpe.
    unfold Retry.observed, withRetry.
    remember (mergeConfig config) as cfg eqn:Hcfg.
    destruct (Z.to_nat (maxRetries cfg + 1)) as [| fuel] eqn:Hfuel; [lia |].
    cbn [retryLoop].
    destruct (Z.leb_spec 0 (maxRetries cfg)) as [_ | Hgt]; [| lia].
    unfold spy at 1. rewrite Hfn. cbn [app].
    unfold refusesRetry. rewrite Hp, Hpe. cbn [negb].
    now destruct (0 >=? maxRetries cfg).
Qed.

(** C7.  The sleeps of a run are, in order, [delay_0 = initialDelay],
    [delay_(i+1) = min (delay_i * backoffMultiplier) maxDelay], one between
    each two consecutive attempts.  When [initialDelay <= maxDelay] every
    sleep is at most [maxDelay]; when moreover the delays are not negative
    and [backoffMultiplier >= 1] each sleep is at least as long as the one
    before. *)
Theorem retry_sleeps_follow_backoff_schedule
  (fn : M Host T) (config : PartialRetryConfig) (h : Host) :
  let cfg := mergeConfig config in
  let log := snd (snd (observed fn config h)) in
  let n := List.length (sleeps log) in
  sleeps log = map (specDelay cfg) (seq 0 n)
  /\ Interleaved log
  /\ n = Nat.pred (List.length (invocations log))
  /\ (initialDelay cfg <= maxDelay cfg ->
      Forall (fun d => d <= maxDelay cfg) (sleeps log))
  /\ (0 <= initialDelay cfg <= maxDelay cfg ->
      1 <= backoffMultiplier cfg ->
      forall i : nat, (S i < n)%nat ->
        nth i (sleeps log) 0 <= nth (S i) (sleeps log) 0).
Proof.
  intros cfg log n.
  destruct (loop_journal setTimeout fn cfg (Z.to_nat (maxRetries cfg + 1))
              0%nat Undefined h [])
    as (evs & Hlog & Hil & Hsl & _ & _); [cbn [Z.of_nat]; lia |].
  cbn [Z.of_nat specDelay app] in Hlog.
  subst n log. unfold Retry.observed, withRetry. fold cfg. rewrite Hlog.
  split; [exact Hsl |]. split; [exact Hil |].
  split; [now apply Interleaved_counts |]. split.
  - intros Hmax. rewrite Hsl. apply Forall_forall. intros d Hd.
    apply in_map_iff in Hd as (i & <- & _). now apply specDelay_bounded.
  - intros Hdelay Hmult i Hi. rewrite Hsl.
    rewrite !(nth_indep _ 0 (specDelay cfg 0)) by (rewrite length_map, length_seq; lia).
    rewrite !map_nth, !seq_nth by lia. cbn [Nat.add].
    now apply specDelay_step.
Qed.

End RetryTheorems.

(* ================================================================== *)
(** * Properties of the provider gateway *)

Import LiteLLM.

Section GatewayFacts.

Context {World : Type}.
Variable dateNow : World -> Z.
Variable timerFiresFirst : Z -> World -> World -> bool.
Variable JSON_stringify : list Message -> string.
Variable callOllama : string -> list Message -> World -> HttpOutcome * World.
Variable callOpenAI : string -> list Message -> World -> HttpOutcome * World.
Variable callAnthropic : string -> list Message -> World -> HttpOutcome * World.
Variable config : LiteLLMConfig.

Local Abbreviation callModel :=
  (LiteLLM.callModel callOllama callOpenAI callAnthropic).
Local Abbreviation tryModels :=
  (LiteLLM.tryModels dateNow callOllama callOpenAI callAnthropic config).
Local Abbreviation executeWithFallbacks :=
  (LiteLLM.executeWithFallbacks dateNow callOllama callOpenAI callAnthropic
                                config).
Local Abbreviation getFromCache := (LiteLLM.getFromCache dateNow config).
Local Abbreviation getCacheKey := (LiteLLM.getCacheKey JSON_stringify).
Local Abbreviation chatSync :=
  (LiteLLM.chatSync dateNow timerFiresFirst JSON_stringify
                    callOllama callOpenAI callAnthropic config).
Local Abbreviation FailThrough :=
  (LiteLLM.FailThrough callOllama callOpenAI callAnthropic).
Local Abbreviation cacheMiss :=
  (LiteLLM.cacheMiss dateNow JSON_stringify config).
Local Abbreviation reachesProviders :=
  (LiteLLM.reachesProviders dateNow timerFiresFirst JSON_stringify
                            callOllama callOpenAI callAnthropic config).

(** Whatever [callModel] throws is an [Error] object. *)
Lemma callModel_throws_object (model : string) (messages : list Message)
  (w w' : World) (e : Thrown) :
  callModel model messages w = (Throw e, w') -> truthy e = true.
Proof.
  unfold LiteLLM.callModel, settle. intros H.
  repeat match type of H with
         | (if ?c then _ else _) = _ => destruct c
         | match ?x with _ => _ end = _ => destruct x as [[m | t] w0]
         end; inversion H; reflexivity.
Qed.

(** Models that fail are passed over; the cache is not touched. *)
Lemma tryModels_skips_failures (messages : list Message) (key : string)
  (pre : list string) (w w1 : World) :
  FailThrough messages pre w w1 ->
  forall (rest : list string) (lastError : option Thrown) (c : Cache),
  exists lastError' : option Thrown,
    tryModels messages key (pre ++ rest) lastError (c, w)
    = tryModels messages key rest lastError' (c, w1).
Proof.
  induction 1 as [w | model pre w w1 w' e Hcall _ IH];
    intros rest lastError c.
  - exists lastError. reflexivity.
  - cbn [app LiteLLM.tryModels fst snd]. rewrite Hcall.
    apply IH.
Qed.

Lemma executeWithFallbacks_first_success (messages : list Message)
  (key : string) (pre post : list string) (m : string) (c : Cache)
  (w w1 w2 : World) (r : string) :
  primaryModel config :: fallbackModels config = pre ++ m :: post ->
  FailThrough messages pre w w1 ->
  callModel m messages w1 = (Return r, w2) ->
  executeWithFallbacks messages key (c, w)
  = (Return r,
     ((if cacheEnabled config then setCache dateNow key r (c, w2) else c), w2)).
Proof.
  intros Hchain Hpre Hcall. unfold LiteLLM.executeWithFallbacks.
  rewrite Hchain.
  destruct (tryModels_skips_failures messages key pre w w1 Hpre
              (m :: post) None c) as [le ->].
  cbn [LiteLLM.tryModels fst snd]. now rewrite Hcall.
Qed.

Lemma executeWithFallbacks_exhausted (messages : list Message)
  (key : string) (pre : list string) (m : string) (c : Cache)
  (w w1 w2 : World) (e : Thrown) :
  primaryModel config :: fallbackModels config = pre ++ [m] ->
  FailThrough messages pre w w1 ->
  callModel m messages w1 = (Throw e, w2) ->
  executeWithFallbacks messages key (c, w) = (Throw e, (c, w2)).
Proof.
  intros Hchain Hpre Hcall. unfold LiteLLM.executeWithFallbacks.
  rewrite Hchain.
  destruct (tryModels_skips_failures messages key pre w w1 Hpre
              [m] None c) as [le ->].
  cbn [LiteLLM.tryModels fst snd]. rewrite Hcall.
  cbn [LiteLLM.tryModels lastErrorOr].
  now rewrite (callModel_throws_object _ _ _ _ _ Hcall).
Qed.

(** Every run over a non-empty chain is of one of the two kinds. *)
Lemma chain_outcome (messages : list Message) (chain : list string) :
  chain <> [] ->
  forall w : World,
    (exists pre m post w1 w2 r,
        chain = pre ++ m :: post
        /\ FailThrough messages pre w w1
        /\ callModel m messages w1 = (Return r, w2))
    \/ (exists pre m w1 w2 e,
        chain = pre ++ [m]
        /\ FailThrough messages pre w w1
        /\ callModel m messages w1 = (Throw e, w2)).
Proof.
  induction chain as [| m rest IH]; intros Hne w; [congruence |].
  destruct (callModel m messages w) as [[r | e] w1] eqn:Hcall.
  - left. exists [], m, rest, w, w1, r.
    repeat split; [constructor | exact Hcall].
  - destruct rest as [| m' rest'].
    + right. exists [], m, w, w1, e.
      repeat split; [constructor | exact Hcall].
    + destruct (IH ltac:(discriminate) w1)
        as [(pre & m0 & post & w2 & w3 & r & Hc & Hft & Hr)
           | (pre & m0 & w2 & w3 & e0 & Hc & Hft & He)].
      * left. exists (m :: pre), m0, post, w2, w3, r.
        repeat split; [cbn; now rewrite Hc | econstructor; eauto | exact Hr].
      * right. exists (m :: pre), m0, w2, w3, e0.
        repeat split; [cbn; now rewrite Hc | econstructor; eauto | exact He].
Qed.

(** A cache-miss request that reaches the providers completes as the
    provider iteration does, in the world the iteration leaves. *)
Lemma chatSync_reaches (messages : list Message) (a : LiteLLMAdapter)
  (w : World) :
  cacheMiss messages a w ->
  reachesProviders messages a w ->
  let h := (snd (getFromCache (getCacheKey messages) (cache a, w)), w) in
  let R := executeWithFallbacks messages (getCacheKey messages) h in
  exists b' : CB.CircuitBreaker,
    chatSync messages (a, w)
    = (fst R, ({| cache := fst (snd R); circuitBreaker := b' |}, snd (snd R))).
Proof.
  unfold LiteLLM.cacheMiss, LiteLLM.reachesProviders, LiteLLM.chatSync.
  destruct (getFromCache (getCacheKey messages) (cache a, w)) as [cached c].
  cbn [fst snd]. intros Hmiss Hreach. rewrite Hmiss.
  destruct (circuitBreakerEnabled config).
  - destruct Hreach as [Hoff | [Hgate Htimer]]; [discriminate |].
    assert (Hrun :
      CB.execute (hostNow dateNow) (hostTimerFiresFirst timerFiresFirst)
        (breakerConfig config)
        (executeWithFallbacks messages (getCacheKey messages))
        (circuitBreaker a, (c, w))
      = CB.attempt (hostNow dateNow) (hostTimerFiresFirst timerFiresFirst)
          (breakerConfig config)
          (executeWithFallbacks messages (getCacheKey messages))
          (match CB.state (circuitBreaker a) with
           | CB.OPEN => CB.set_state CB.HALF_OPEN (CB.counted (circuitBreaker a))
           | _ => CB.counted (circuitBreaker a)
           end, (c, w))).
    { destruct (CB.state (circuitBreaker a)) eqn:Hs.
      - apply execute_not_open. rewrite Hs. discriminate.
      - destruct Hgate as [Hno | Hreset]; [congruence |].
        now apply execute_open_probes.
      - apply execute_not_open. rewrite Hs. discriminate. }
    rewrite Hrun. unfold CB.attempt, CB.executeWithTimeout.
    destruct (executeWithFallbacks messages (getCacheKey messages) (c, w))
      as [r [c' w']].
    cbn [fst snd] in *. rewrite Htimer.
    destruct r; eexists; reflexivity.
  - destruct (executeWithFallbacks messages (getCacheKey messages) (c, w))
      as [r [c' w']].
    eexists; reflexivity.
Qed.

(** C2, as the code has it.  A cache-miss request that reaches the
    provider iteration (the breaker is off, or lets the call through, and
    the iteration settles before the breaker's timer) tries the providers
    in chain order, primary first: the first that answers decides the
    result and no later one is called; if all fail, [chatSync] throws what
    the last provider threw. *)
Theorem chatSync_falls_back_in_chain_order
  (messages : list Message) (a : LiteLLMAdapter) (w : World) :
  let chain := primaryModel config :: fallbackModels config in
  cacheMiss messages a w ->
  reachesProviders messages a w ->
  (forall (pre post : list string) (m : string) (w1 w2 : World) (r : string),
      chain = pre ++ m :: post ->
      FailThrough messages pre w w1 ->
      callModel m messages w1 = (Return r, w2) ->
      exists a' : LiteLLMAdapter,
        chatSync messages (a, w) = (Return r, (a', w2)))
  /\ (forall (pre : list string) (m : string) (w1 w2 : World) (e : Thrown),
      chain = pre ++ [m] ->
      FailThrough messages pre w w1 ->
      callModel m messages w1 = (Throw e, w2) ->
      exists a' : LiteLLMAdapter,
        chatSync messages (a, w) = (Throw e, (a', w2)))
  /\ ((exists pre m post w1 w2 r,
          chain = pre ++ m :: post
          /\ FailThrough messages pre w w1
          /\ callModel m messages w1 = (Return r, w2))
      \/ (exists pre m w1 w2 e,
          chain = pre ++ [m]
          /\ FailThrough messages pre w w1
          /\ callModel m messages w1 = (Throw e, w2))).
Proof.
  intros chain Hmiss Hreach.
  destruct (chatSync_reaches messages a w Hmiss Hreach) as [b' Hrun].
  cbn zeta in Hrun.
  split; [| split].
  - intros pre post m w1 w2 r Hchain Hpre Hcall.
    rewrite (executeWithFallbacks_first_success messages _ pre post m _
               w w1 w2 r Hchain Hpre Hcall) in Hrun.
    eexists. exact Hrun.
  - intros pre m w1 w2 e Hchain Hpre Hcall.
    rewrite (executeWithFallbacks_exhausted messages _ pre m _
               w w1 w2 e Hchain Hpre Hcall) in Hrun.
    eexists. exact Hrun.
  - apply chain_outcome. discriminate.
Qed.

(** *** The cache *)

Lemma Map_get_set_same (key : string) (v : CacheEntry) (m : Cache) :
  Map_get key (Map_set key v m) = Some v.
Proof.
  induction m as [| [k v0] rest IH]; cbn [Map_set Map_get].
  - now rewrite String.eqb_refl.
  - destruct (String.eqb k key) eqn:Hk; cbn [Map_get]; rewrite Hk;
      [reflexivity | exact IH].
Qed.

Lemma Map_get_delete_other (k key : string) (m : Cache) :
  k <> key -> Map_get key (Map_delete k m) = Map_get key m.
Proof.
  intros Hne. induction m as [| [k0 v0] rest IH]; cbn [Map_delete Map_get];
    [reflexivity |].
  destruct (String.eqb_spec k0 k) as [-> | Hk0].
  - destruct (String.eqb_spec k key); [contradiction | reflexivity].
  - cbn [Map_get]. now rewrite IH.
Qed.

Lemma Map_size_set (key : string) (v : CacheEntry) (m : Cache) :
  Map_size (Map_set key v m)
  = match Map_get key m with
    | Some _ => Map_size m
    | None => Map_size m + 1
    end.
Proof.
  unfold Map_size.
  induction m as [| [k v0] rest IH]; cbn [Map_set Map_get List.length];
    [reflexivity |].
  destruct (String.eqb k key); cbn [List.length]; [reflexivity |].
  destruct (Map_get key rest); lia.
Qed.

Lemma Map_firstKey_set_absent (key : string) (v : CacheEntry) (m : Cache)
  (k : string) :
  Map_get key m = None -> m <> [] ->
  Map_firstKey (Map_set key v m) = Some k -> k <> key.
Proof.
  destruct m as [| [k0 v0] rest]; [congruence |].
  cbn [Map_get Map_set]. intros Hget _.
  destruct (String.eqb_spec k0 key) as [-> | Hne]; [discriminate |].
  cbn [Map_firstKey]. congruence.
Qed.

(** An entry just written is found again, provided the cache was within
    its bound of 1000 entries. *)
Lemma setCache_stores (key resp : string) (c : Cache) (w : World) :
  Map_size c <= 1000 ->
  Map_get key (setCache dateNow key resp (c, w))
  = Some {| response := resp; timestamp := dateNow w |}.
Proof.
  intros Hsize. unfold LiteLLM.setCache.
  set (v := {| response := resp; timestamp := dateNow w |}).
  pose proof (Map_size_set key v c) as Hs.
  destruct (Z.gtb_spec (Map_size (Map_set key v c)) 1000) as [Hbig | _];
    [| apply Map_get_set_same].
  destruct (Map_get key c) eqn:Hget; [lia |].
  destruct (truthyString (Map_firstKey (Map_set key v c)));
    [| apply Map_get_set_same].
  destruct (Map_firstKey (Map_set key v c)) as [k |] eqn:Hfirst;
    [| apply Map_get_set_same].
  rewrite Map_get_delete_other; [apply Map_get_set_same |].
  eapply Map_firstKey_set_absent; eauto.
  intros ->. cbn in Hs. unfold Map_size in *. cbn in *. lia.
Qed.

Lemma getFromCache_size (key : string) (c : Cache) (w : World) :
  Map_size (snd (getFromCache key (c, w))) <= Map_size c.
Proof.
  assert (Hdel : forall m : Cache, Map_size (Map_delete key m) <= Map_size m).
  { unfold Map_size. induction m as [| [k v] rest IH];
      cbn [Map_delete List.length]; [lia |].
    destruct (String.eqb k key); cbn [List.length]; lia. }
  unfold LiteLLM.getFromCache.
  destruct (negb (cacheEnabled config)); cbn [snd]; [lia |].
  destruct (Map_get key c) as [entry |]; cbn [snd]; [| lia].
  destruct (expired config (dateNow w) entry); cbn [snd]; [apply Hdel | lia].
Qed.

Lemma not_expired (now : Z) (entry : CacheEntry) :
  now - timestamp entry <= cacheTTLSeconds config * 1000 ->
  expired config now entry = false.
Proof.
  intros H. unfold expired. apply negb_false_iff, Qle_bool_iff.
  unfold age, Qle, Qdiv, Qmult, Qinv, inject_Z. cbn. lia.
Qed.

(** A request whose key has a live entry with a non-empty text is
    answered from the cache: the adapter (cache and breaker) and the
    world are left as they were. *)
Lemma chatSync_cache_hit (messages : list Message) (a : LiteLLMAdapter)
  (w : World) (entry : CacheEntry) :
  cacheEnabled config = true ->
  Map_get (getCacheKey messages) (cache a) = Some entry ->
  dateNow w - timestamp entry <= cacheTTLSeconds config * 1000 ->
  response entry <> EmptyString ->
  chatSync messages (a, w) = (Return (response entry), (a, w)).
Proof.
  intros Hon Hget Hlive Hne.
  unfold LiteLLM.chatSync, LiteLLM.getFromCache.
  rewrite Hon, Hget. cbn [negb]. rewrite (not_expired _ _ Hlive).
  destruct (response entry) as [| ch rest] eqn:Hr; [congruence |].
  cbn [truthyString nullish]. now destruct a.
Qed.

(** What a successful provider iteration leaves in the cache. *)
Lemma tryModels_return_caches (messages : list Message) (key : string)
  (models : list string) :
  forall (lastError : option Thrown) (c c' : Cache) (w w' : World) (r : string),
    tryModels messages key models lastError (c, w) = (Return r, (c', w')) ->
    c' = if cacheEnabled config then setCache dateNow key r (c, w') else c.
Proof.
  induction models as [| m rest IH]; intros lastError c c' w w' r Hrun;
    cbn [LiteLLM.tryModels fst snd] in Hrun; [discriminate |].
  destruct (callModel m messages w) as [[resp | e] w1].
  - inversion Hrun; subst. reflexivity.
  - eapply IH; eauto.
Qed.

(** The part of C3 that holds.  With caching enabled and the cache within
    its bound, a cache-miss request that returns a non-empty text [r]
    leaves an entry behind, and any request with the same messages made
    while [Date.now()] is at most [cacheTTLSeconds] later returns [r]
    with no provider call (the world is untouched) and no breaker
    interaction (the adapter is untouched). *)
Lemma cached_answer_is_served (messages : list Message)
  (a a1 : LiteLLMAdapter) (w w1 w2 : World) (r : string) :
  cacheEnabled config = true ->
  Map_size (cache a) <= 1000 ->
  cacheMiss messages a w ->
  chatSync messages (a, w) = (Return r, (a1, w1)) ->
  r <> EmptyString ->
  dateNow w2 - dateNow w1 <= cacheTTLSeconds config * 1000 ->
  chatSync messages (a1, w2) = (Return r, (a1, w2)).
Proof.
  intros Hon Hsize Hmiss Hrun Hne Hlive.
  assert (Hentry : Map_get (getCacheKey messages) (cache a1)
                   = Some {| response := r; timestamp := dateNow w1 |}).
  { unfold LiteLLM.cacheMiss in Hmiss. unfold LiteLLM.chatSync in Hrun.
    pose proof (getFromCache_size (getCacheKey messages) (cache a) w) as Hc.
    destruct (getFromCache (getCacheKey messages) (cache a, w)) as [cached c].
    cbn [fst snd] in *. rewrite Hmiss in Hrun.
    assert (Hfill : forall (c' : Cache) (w' : World),
               executeWithFallbacks messages (getCacheKey messages) (c, w)
               = (Return r, (c', w')) ->
               Map_get (getCacheKey messages) c'
               = Some {| response := r; timestamp := dateNow w' |}).
    { intros c' w' Hex. unfold LiteLLM.executeWithFallbacks in Hex.
      apply tryModels_return_caches in Hex. rewrite Hon in Hex. subst c'.
      apply setCache_stores. lia. }
    destruct (circuitBreakerEnabled config).
    - destruct (CB.execute (hostNow dateNow)
                  (hostTimerFiresFirst timerFiresFirst) (breakerConfig config)
                  (executeWithFallbacks messages (getCacheKey messages))
                  (circuitBreaker a, (c, w))) as [r0 [b' [c' w']]] eqn:Hexec.
      inversion Hrun; subst. cbn [cache].
      apply Hfill.
      eapply execute_return_is_operation; [| exact Hexec]. reflexivity.
    - destruct (executeWithFallbacks messages (getCacheKey messages) (c, w))
        as [r0 [c' w']] eqn:Hex.
      inversion Hrun; subst. cbn [cache]. now apply Hfill. }
  apply (chatSync_cache_hit messages a1 w2 _ Hon Hentry); [exact Hlive | exact Hne].
Qed.

End GatewayFacts.

(* ================================================================== *)
(** * Worked runs *)

Import Lab.

(** C8, counterexample.  A breaker with [failureThreshold = 1] goes from
    CLOSED to OPEN at its first failure and its failure count is then 1,
    not 0. *)
Lemma closed_to_open_keeps_failure_count :
  state newBreaker = CLOSED
  /\ state (fst (snd (CB.execute clockNow clockTimer hairTrigger failing
                                 (newBreaker, startOfRun)))) = OPEN
  /\ failures (fst (snd (CB.execute clockNow clockTimer hairTrigger failing
                                    (newBreaker, startOfRun)))) = 1
  /\ ~ resetsCountersOnTransition clockNow clockTimer hairTrigger failing
         newBreaker startOfRun.
Proof.
  repeat split.
  unfold resetsCountersOnTransition. vm_compute.
  intros H. destruct H as [Hf _]; discriminate.
Qed.

(** C2, counterexample.  A new adapter with every default, Ollama down.
    Three requests fail and trip the breaker.  The fourth request misses
    the cache, its only provider would fail with Ollama's error, yet
    [chatSync] throws the circuit-open error and calls no provider. *)
Lemma open_breaker_hides_provider_error :
  let s3 := chatTimes 3 ollamaDown defaults hello (newAdapter, freshWorld) in
  let r4 := chat ollamaDown defaults hello s3 in
  LiteLLM.cacheMiss clock stringify defaults hello (fst s3) (snd s3)
  /\ fst r4 = Throw (ErrorObject
        "[CircuitBreaker:LiteLLM-AI] Circuit is OPEN - service unavailable")
  /\ ollamaCalls (snd (snd r4)) = ollamaCalls (snd s3)
  /\ ~ LiteLLM.raisesLastProviderError clock worldTimer stringify
         ollamaDown openaiDown anthropicDown defaults hello (fst s3) (snd s3).
Proof.
  repeat split.
  intros H.
  specialize (H eq_refl [] "ollama/llama3.2"%string
                (snd (chatTimes 3 ollamaDown defaults hello
                                (newAdapter, freshWorld)))
                (countOllama (snd (chatTimes 3 ollamaDown defaults hello
                                             (newAdapter, freshWorld))))
                (ErrorObject "Ollama request failed: Service Unavailable")
                eq_refl
                (LiteLLM.ft_none _ _ _ _ _)
                eq_refl).
  vm_compute in H. discriminate.
Qed.

(** C3, the failing run.  A new adapter with every default (cache on,
    TTL 300 s); Ollama answers with an empty text.  The first request
    returns [""] and stores it; at the second request, made at the same
    clock reading, the entry is in the cache and not expired, yet Ollama
    is called a second time and the breaker counts a second call. *)
Theorem empty_answer_is_not_served_from_cache :
  let r1 := chat ollamaSilent defaults hello (newAdapter, freshWorld) in
  let r2 := chat ollamaSilent defaults hello (snd r1) in
  fst r1 = Return EmptyString
  /\ fst (LiteLLM.getFromCache clock defaults (stringify hello)
            (cache (fst (snd r1)), snd (snd r1))) = Some EmptyString
  /\ clock (snd (snd r1)) = clock freshWorld
  /\ ollamaCalls (snd (snd r1)) = 1%nat
  /\ ollamaCalls (snd (snd r2)) = 2%nat
  /\ totalCalls (circuitBreaker (fst (snd r1))) = 1
  /\ totalCalls (circuitBreaker (fst (snd r2))) = 2.
Proof.
  repeat split.
Qed.

(** C1, the failing run.  The test breaker ([failureThreshold = 3],
    [resetTimeout = 1000], no fallback), new, while [Date.now()] is 0:
    three calls fail and the breaker is OPEN with [lastFailureTime = 0].
    The next call is made 1 ms later, long before [resetTimeout] has
    elapsed, and is not turned away: [!this.lastFailureTime] is true of
    the number 0, so [shouldAttemptReset] answers [true], the operation
    runs (the host shows its 10 ms) and its value is returned. *)
Theorem breaker_tripped_at_clock_zero_runs_the_next_call :
  let r3 := CB.executeAll clockNow clockTimer testConfig threeFailuresAtOnce
                          (newBreaker, 0) in
  let b3 := fst (snd r3) in
  let h4 := snd (snd r3) + 1 in
  let r4 := CB.execute clockNow clockTimer testConfig succeeding (b3, h4) in
  state newBreaker = CLOSED
  /\ Z.of_nat (List.length threeFailuresAtOnce) = failureThreshold testConfig
  /\ forallb isThrow (fst r3) = true
  /\ state b3 = OPEN
  /\ lastFailureTime b3 = Some 0
  /\ clockNow h4 - 0 < resetTimeout testConfig
  /\ CB.shouldAttemptReset clockNow testConfig b3 h4 = true
  /\ fst r4 = Return tt
  /\ snd (snd r4) = h4 + 10
  /\ totalSuccesses (fst (snd r4)) = 1
  /\ r4 <> rejection testConfig b3 h4.
Proof.
  vm_compute. repeat split; discriminate.
Qed.

(** C4, the failing run.  The test breaker, OPEN with its last failure
    recorded at clock reading 0 (the state three failures at that
    reading leave): a call made at clock reading 500, with
    [Date.now() - lastFailureTime = 500 < resetTimeout = 1000], is let
    through as a probe instead of being turned away. *)
Theorem open_breaker_with_failure_time_zero_probes_early :
  let r := CB.execute clockNow clockTimer testConfig failing
                      (trippedAtEpoch, 500) in
  state trippedAtEpoch = OPEN
  /\ lastFailureTime trippedAtEpoch = Some 0
  /\ fallback testConfig = None
  /\ clockNow 500 - 0 < resetTimeout testConfig
  /\ r = CB.attempt clockNow clockTimer testConfig failing
                    (set_state HALF_OPEN (counted trippedAtEpoch), 500)
  /\ fst r = Throw (ErrorObject "fail")
  /\ snd (snd r) = 510
  /\ totalFailures (fst (snd r)) = totalFailures trippedAtEpoch + 1
  /\ r <> rejection testConfig trippedAtEpoch 500.
Proof.
  vm_compute. repeat split; discriminate.
Qed.

(** On the test breaker: three failed calls from new; the fourth call,
    100 ms later, is turned away. *)
Lemma closed_breaker_opens_after_threshold_failures_witness :
  state newBreaker = CLOSED
  /\ Z.of_nat (List.length threeFailures) = failureThreshold testConfig
  /\ forallb isThrow
       (fst (CB.executeAll clockNow clockTimer testConfig threeFailures
                           (newBreaker, startOfRun))) = true
  /\ (let b' := fst (snd (CB.executeAll clockNow clockTimer testConfig
                                        threeFailures (newBreaker, startOfRun))) in
      state b' = OPEN
      /\ exists t : Z,
           lastFailureTime b' = Some t
           /\ forall (fn : M Z unit) (h1 : Z),
                t <> 0 ->
                clockNow h1 - t < resetTimeout testConfig ->
                CB.execute clockNow clockTimer testConfig fn (b', h1)
                = rejection testConfig b' h1).
Proof.
  split; [reflexivity |]. split; [reflexivity |]. split; [reflexivity |].
  apply (closed_breaker_opens_after_threshold_failures
           clockNow clockTimer testConfig newBreaker startOfRun threeFailures).
  - reflexivity.
  - cbn; lia.
  - cbn; lia.
  - reflexivity.
  - reflexivity.
Defined.

(** On the tripped test breaker (last failure at [startOfRun + 30],
    [resetTimeout = 1000]): a call 100 ms after the start is turned away,
    a call 2000 ms after the start probes. *)
Lemma open_breaker_rejects_until_resetTimeout_then_probes_witness :
  state tripped = OPEN
  /\ lastFailureTime tripped = Some (startOfRun + 30)
  /\ CB.execute clockNow clockTimer testConfig succeeding
                (tripped, startOfRun + 100)
     = rejection testConfig tripped (startOfRun + 100)
  /\ CB.execute clockNow clockTimer testConfig succeeding
                (tripped, startOfRun + 2000)
     = CB.attempt clockNow clockTimer testConfig succeeding
                  (set_state HALF_OPEN (counted tripped), startOfRun + 2000).
Proof.
  split; [reflexivity |]. split; [reflexivity |]. split.
  - apply (proj1 (open_breaker_rejects_until_resetTimeout_then_probes
                    clockNow clockTimer testConfig tripped (startOfRun + 100)
                    succeeding (startOfRun + 30) eq_refl eq_refl)).
    + vm_compute; discriminate.
    + vm_compute; reflexivity.
  - apply (proj2 (open_breaker_rejects_until_resetTimeout_then_probes
                    clockNow clockTimer testConfig tripped (startOfRun + 2000)
                    succeeding (startOfRun + 30) eq_refl eq_refl)).
    vm_compute; discriminate.
Defined.

(** C5 on the probing test breaker: one failure re-opens it; two
    successes ([successThreshold = 2]) close it. *)
Lemma half_open_failure_reopens_and_successes_close_witness :
  state probing = HALF_OPEN
  /\ (exists b' : CircuitBreaker,
        CB.execute clockNow clockTimer testConfig failing
                   (probing, startOfRun + 2000)
        = (Throw (ErrorObject "fail"), (b', startOfRun + 2010))
        /\ state b' = OPEN
        /\ lastFailureTime b' = Some (clockNow (startOfRun + 2010))
        /\ successes b' = 0)
  /\ (let b' := fst (snd (CB.executeAll clockNow clockTimer testConfig
                                        twoSuccesses
                                        (probing, startOfRun + 2000))) in
      state b' = CLOSED /\ failures b' = 0 /\ successes b' = 0).
Proof.
  split; [reflexivity |].
  destruct (half_open_failure_reopens_and_successes_close
              clockNow clockTimer testConfig) as [Hfail Hclose].
  split.
  - apply (Hfail probing (startOfRun + 2000) (startOfRun + 2010) failing
                 (ErrorObject "fail")); reflexivity.
  - apply (Hclose probing (startOfRun + 2000) twoSuccesses).
    + reflexivity.
    + cbn; lia.
    + cbn; lia.
    + reflexivity.
    + reflexivity.
Defined.

(** C8 on the test breaker: the four transitions. *)
Lemma transitions_reset_counters_as_coded_witness :
  (successes (onFailure hairTrigger 5 newBreaker) = 0
   /\ failures (onFailure hairTrigger 5 newBreaker) = failures newBreaker + 1)
  /\ (state (onFailure testConfig 5 probing) = OPEN
      /\ successes (onFailure testConfig 5 probing) = 0
      /\ failures (onFailure testConfig 5 probing) = failures probing + 1)
  /\ (failures (onSuccess hairTrigger (set_successes 1 probing)) = 0
      /\ successes (onSuccess hairTrigger (set_successes 1 probing)) = 0)
  /\ failures (set_state HALF_OPEN (counted tripped)) = failures tripped.
Proof.
  destruct (transitions_reset_counters_as_coded clockNow clockTimer hairTrigger)
    as (Hopen & _ & Hclose & _).
  destruct (transitions_reset_counters_as_coded clockNow clockTimer testConfig)
    as (_ & Hreopen & _ & Hprobe).
  split; [apply Hopen; reflexivity |].
  split; [apply Hreopen; reflexivity |].
  split; [apply Hclose; reflexivity |].
  apply (Hprobe tripped (startOfRun + 2000) failing); reflexivity.
Defined.

(** C10 on the tripped test breaker, 100 ms after the start. *)
Lemma rejected_call_only_counts_witness :
  CB.execute clockNow clockTimer testConfig succeeding
             (tripped, startOfRun + 100)
  = rejection testConfig tripped (startOfRun + 100)
  /\ stats_totalCalls
       (getStats (fst (snd (CB.execute clockNow clockTimer testConfig
                                       succeeding (tripped, startOfRun + 100)))))
     = stats_totalCalls (getStats tripped) + 1
  /\ (let b' := fst (CB.run clockNow clockTimer testConfig
                            [DoExecute failing; DoReset; DoElapse (waiting 5);
                             DoExecute succeeding]
                            (tripped, startOfRun + 100)) in
      totalFailures b' + totalSuccesses b' <= totalCalls b').
Proof.
  destruct (rejected_call_only_counts clockNow clockTimer testConfig)
    as (Hframe & Hinv & _).
  destruct (Hframe tripped (startOfRun + 100) succeeding eq_refl eq_refl)
    as [Hrej Hstats].
  split; [exact Hrej |]. split.
  - rewrite Hstats. reflexivity.
  - apply Hinv. vm_compute. discriminate.
Defined.

(** C6 with the default policy ([maxRetries = 3]) and an operation that
    always rejects: four invocations; and with a predicate that refuses
    every error: one invocation. *)
Lemma withRetry_attempts_witness :
  Z.of_nat (List.length (invocations
              (snd (snd (Retry.observed clockSetTimeout failing noOverrides 0)))))
  <= 3 + 1
  /\ (exists (e : Thrown) (h' : Z) (log : list (Event unit)),
        Retry.observed clockSetTimeout failing noOverrides 0
        = (Throw e, (h', log))
        /\ List.length (invocations log) = 4%nat
        /\ last (invocations log) (Throw Undefined) = Throw e)
  /\ Retry.observed clockSetTimeout failing neverRetry 0
     = (Throw (ErrorObject "fail"), (10, [Invoked (Throw (ErrorObject "fail"))])).
Proof.
  destruct (@withRetry_attempts Z unit clockSetTimeout)
    as (Hbound & Hall & Hrefused).
  split; [| split].
  - apply (Hbound failing noOverrides 0). cbn; lia.
  - destruct (Hall failing noOverrides 0) as (e & h' & log & Hrun & _ & H4 & Hlast).
    + cbn; lia.
    + intros h0. exists (ErrorObject "fail"), (h0 + 10). reflexivity.
    + intros e. reflexivity.
    + exists e, h', log. split; [exact Hrun |].
      split; [apply H4; reflexivity | exact Hlast].
  - apply (Hrefused failing neverRetry 0 10 (ErrorObject "fail") (fun _ => false)).
    + cbn; lia.
    + reflexivity.
    + reflexivity.
    + reflexivity.
Defined.

(** C7 with the default policy: the sleeps are 1000, 2000, 4000, each at
    most [maxDelay = 10000] and none shorter than the one before. *)
Lemma retry_sleeps_follow_backoff_schedule_witness :
  sleeps (snd (snd (Retry.observed clockSetTimeout failing noOverrides 0)))
  = [1000; 2000; 4000]
  /\ Forall (fun d => d <= 10000)
       (sleeps (snd (snd (Retry.observed clockSetTimeout failing noOverrides 0))))
  /\ (forall i : nat, (S i < 3)%nat ->
        nth i (sleeps (snd (snd (Retry.observed clockSetTimeout failing
                                                noOverrides 0)))) 0
        <= nth (S i) (sleeps (snd (snd (Retry.observed clockSetTimeout failing
                                                       noOverrides 0)))) 0).
Proof.
  destruct (retry_sleeps_follow_backoff_schedule clockSetTimeout failing
              noOverrides 0) as (Hsched & _ & _ & Hmax & Hmono).
  split; [exact Hsched |]. split.
  - apply Hmax. cbn; lia.
  - apply Hmono; cbn; lia.
Defined.

(** C2 on the adapter of the unit tests (Ollama first, OpenAI as the
    fallback), circuit breaker on and CLOSED, empty cache: with Ollama
    down and OpenAI answering, the fallback's text is returned; with both
    down, OpenAI's error is thrown. *)
Lemma chatSync_falls_back_in_chain_order_witness :
  (exists a' : LiteLLMAdapter,
      LiteLLM.chatSync clock worldTimer stringify
                       ollamaDown openaiHello anthropicDown
                       withFallback hello (newAdapter, freshWorld)
      = (Return "Hello from the fallback"%string,
         (a', countOpenAI (countOllama freshWorld))))
  /\ (exists a' : LiteLLMAdapter,
      LiteLLM.chatSync clock worldTimer stringify
                       ollamaDown openaiDown anthropicDown
                       withFallback hello (newAdapter, freshWorld)
      = (Throw (ErrorObject "OPENAI_API_KEY not configured"),
         (a', countOpenAI (countOllama freshWorld)))).
Proof.
  split.
  - destruct (chatSync_falls_back_in_chain_order clock worldTimer stringify
                ollamaDown openaiHello anthropicDown withFallback hello
                newAdapter freshWorld) as (Hfirst & _ & _).
    + reflexivity.
    + right. split; [left; discriminate | reflexivity].
    + apply (Hfirst ["ollama/llama3.2"%string] [] "openai/gpt-4o-mini"%string
                    (countOllama freshWorld)).
      * reflexivity.
      * econstructor; [reflexivity | constructor].
      * reflexivity.
  - destruct (chatSync_falls_back_in_chain_order clock worldTimer stringify
                ollamaDown openaiDown anthropicDown withFallback hello
                newAdapter freshWorld) as (_ & Hlast & _).
    + reflexivity.
    + right. split; [left; discriminate | reflexivity].
    + apply (Hlast ["ollama/llama3.2"%string] "openai/gpt-4o-mini"%string
                   (countOllama freshWorld)).
      * reflexivity.
      * econstructor; [reflexivity | constructor].
      * reflexivity.
Defined.

(** The breaker scenario of the specification: three failures open the
    breaker; a call inside the minute is turned away; after 60 s the next
    call is let through and succeeds, leaving HALF_OPEN with one success;
    one more success closes the breaker. *)
Example breaker_scenario :
  let run calls s := CB.executeAll clockNow clockTimer aiConfig calls s in
  let s3 := snd (run threeFailures (newBreaker, startOfRun)) in
  let r4 := run [CB.mkCall (waiting 1000) succeeding] s3 in
  let r5 := run [CB.mkCall (waiting 60000) succeeding] s3 in
  let r6 := run [CB.mkCall (waiting 0) succeeding] (snd r5) in
  state (fst s3) = OPEN
  /\ fst r4 = [Throw (ErrorObject
                 "[CircuitBreaker:AI] Circuit is OPEN - service unavailable")]
  /\ snd (snd r4) = snd s3 + 1000
  /\ fst r5 = [Return tt]
  /\ state (fst (snd r5)) = HALF_OPEN
  /\ successes (fst (snd r5)) = 1
  /\ state (fst (snd r6)) = CLOSED.
Proof.
  vm_compute. repeat split.
Qed.

(** The cache scenario of the specification: TTL 300 s; two requests
    within 300 s call the provider once; a third request 301 s after the
    first calls it a second time. *)
Example cache_ttl_scenario :
  let s1 := snd (chat ollamaHello defaults hello (newAdapter, freshWorld)) in
  let r2 := chat ollamaHello defaults hello (later 300000 s1) in
  let r3 := chat ollamaHello defaults hello (later 301000 s1) in
  ollamaCalls (snd s1) = 1%nat
  /\ fst r2 = Return "Hello from AI"%string
  /\ ollamaCalls (snd (snd r2)) = 1%nat
  /\ totalCalls (circuitBreaker (fst (snd r2))) = 1
  /\ fst r3 = Return "Hello from AI"%string
  /\ ollamaCalls (snd (snd r3)) = 2%nat.
Proof.
  vm_compute. repeat split.
Qed.

(* ================================================================== *)
(** * More about the circuit breaker *)

Section BreakerMore.

Context {Host T : Type}.
Variable dateNow : Host -> Z.
Variable timerFiresFirst : Z -> Host -> Host -> bool.
Variable cfg : @CircuitBreakerConfig Host T.

Local Abbreviation execute := (CB.execute dateNow timerFiresFirst cfg).
Local Abbreviation attempt := (CB.attempt dateNow timerFiresFirst cfg).
Local Abbreviation executeWithTimeout := (CB.executeWithTimeout timerFiresFirst cfg).
Local Abbreviation executeAll := (CB.executeAll dateNow timerFiresFirst cfg).
Local Abbreviation shouldAttemptReset := (CB.shouldAttemptReset dateNow cfg).
Local Abbreviation step := (CB.step dateNow timerFiresFirst cfg).
Local Abbreviation run := (CB.run dateNow timerFiresFirst cfg).
Local Abbreviation rejection := (CB.rejection cfg).
Local Abbreviation consistent := (Runs.consistent cfg).

Lemma attempt_consistent (fn : M Host T) (b : CircuitBreaker) (h : Host) :
  (state b = CLOSED \/ state b = HALF_OPEN) ->
  (state b = CLOSED -> successes b = 0 /\ 0 <= failures b < failureThreshold cfg) ->
  (state b = HALF_OPEN ->
   0 <= successes b
   /\ lastFailureTime b <> None
   /\ failureThreshold cfg <= failures b) ->
  0 < failureThreshold cfg ->
  consistent (fst (snd (attempt fn (b, h)))).
Proof.
  intros Hst Hclosed Hhalf Hthr.
  destruct (attempt_cases dateNow timerFiresFirst cfg fn b h)
    as [(v & h1 & _ & Ha) | (e & h1 & _ & Ha)]; rewrite Ha; cbn [fst snd].
  - unfold Runs.consistent, CB.onSuccess. unfold_setters.
    destruct Hst as [Hs | Hs]; rewrite Hs in *; simpl.
    + destruct (Hclosed eq_refl). lia.
    + destruct (Hhalf eq_refl) as (? & ? & ?).
      destruct (Z.geb_spec (successes b + 1) (successThreshold cfg)); simpl;
        [lia |].
      repeat split; try lia. assumption.
  - unfold Runs.consistent, CB.onFailure. unfold_setters.
    destruct Hst as [Hs | Hs]; rewrite Hs in *; simpl.
    + destruct (Hclosed eq_refl).
      destruct (Z.geb_spec (failures b + 1) (failureThreshold cfg)); simpl.
      * repeat split; try lia. discriminate.
      * lia.
    + destruct (Hhalf eq_refl) as (? & ? & ?).
      repeat split; try lia. discriminate.
Qed.

Lemma step_consistent (a : @Action Host T) (b : CircuitBreaker) (h : Host) :
  0 < failureThreshold cfg ->
  consistent b -> consistent (fst (step a (b, h))).
Proof.
  intros Hthr Hb. destruct a as [fn | | env]; cbn [CB.step fst snd].
  - unfold Runs.consistent in Hb.
    destruct (state b) eqn:Hs.
    + rewrite execute_not_open by (rewrite Hs; discriminate).
      apply attempt_consistent; cbn; rewrite ?Hs; auto; try discriminate.
    + destruct (shouldAttemptReset b h) eqn:Hr.
      * rewrite (execute_open_probes _ _ _ fn b h Hs Hr).
        apply attempt_consistent; cbn; auto; try discriminate.
        intros _. repeat split; try lia; tauto.
      * rewrite (execute_open_rejects _ _ _ fn b h Hs Hr).
        unfold CB.rejection.
        destruct (fallback cfg) as [fb |]; [destruct (fb h) |];
          cbn [fst snd]; unfold Runs.consistent; cbn; rewrite Hs; exact Hb.
    + rewrite execute_not_open by (rewrite Hs; discriminate).
      apply attempt_consistent; cbn; rewrite ?Hs; auto; try discriminate.
      intros _. repeat split; try lia; tauto.
  - unfold Runs.consistent. cbn. lia.
  - exact Hb.
Qed.

(** X1.  Between calls a breaker is always in one of three shapes,
    whatever sequence of [execute], [reset] and host activity it has been
    through since [new CircuitBreaker] (for a positive failure threshold):
    CLOSED with [successes = 0] and [0 <= failures < failureThreshold];
    OPEN with [successes = 0], a recorded failure time and
    [failures >= failureThreshold]; HALF_OPEN with
    [1 <= successes < successThreshold] and a recorded failure time. *)
Theorem breaker_shape_between_calls (acts : list (@Action Host T)) (h : Host) :
  0 < failureThreshold cfg ->
  let b := fst (run acts (newBreaker, h)) in
  (state b = CLOSED ->
   successes b = 0 /\ 0 <= failures b < failureThreshold cfg)
  /\ (state b = OPEN ->
      successes b = 0 /\ lastFailureTime b <> None
      /\ failureThreshold cfg <= failures b)
  /\ (state b = HALF_OPEN ->
      1 <= successes b < successThreshold cfg
      /\ lastFailureTime b <> None
      /\ failureThreshold cfg <= failures b).
Proof.
  intros Hthr.
  assert (Hgen : forall s : CircuitBreaker * Host,
             consistent (fst s) -> consistent (fst (run acts s))).
  { induction acts as [| a rest IH]; intros [b0 h0] Hs; cbn [CB.run];
      [exact Hs |].
    apply IH. destruct (step a (b0, h0)) as [b1 h1] eqn:Hstep.
    pose proof (step_consistent a b0 h0 Hthr Hs) as Hc.
    now rewrite Hstep in Hc. }
  specialize (Hgen (newBreaker, h)).
  assert (H0 : consistent (fst (newBreaker, h)))
    by (unfold Runs.consistent; cbn; lia).
  specialize (Hgen H0). cbn zeta.
  unfold Runs.consistent in Hgen.
  destruct (state (fst (run acts (newBreaker, h))));
    repeat split; intros; try discriminate; tauto.
Qed.

Lemma closed_call_accounting (fn : M Host T) (b : CircuitBreaker) (h : Host) :
  state b <> OPEN ->
  let b' := fst (snd (execute fn (b, h))) in
  totalCalls b' = totalCalls b + 1
  /\ totalFailures b' + totalSuccesses b'
     = totalFailures b + totalSuccesses b + 1.
Proof.
  intros Hs. rewrite execute_not_open by exact Hs.
  destruct (attempt_totals dateNow timerFiresFirst cfg fn (counted b) h)
    as [Hc [[Hf Hsu] | [Hf Hsu]]]; cbn zeta in *;
    unfold counted in *; unfold_setters; lia.
Qed.

Lemma last_cons_default {A : Type} (x d : A) (l : list A) :
  last (x :: l) d = last l x.
Proof.
  revert x d. induction l as [| y l IH]; intros x d; [reflexivity |].
  change (last (x :: y :: l) d) with (last (y :: l) d).
  now rewrite !IH.
Qed.

(** X2.  A CLOSED breaker counts failures in a row: as long as no run of
    consecutive failing calls reaches [failureThreshold] it stays CLOSED,
    its failure count is the length of the run it is in (a success in
    between starts again from 0), and no call is turned away. *)
Theorem closed_breaker_counts_failures_in_a_row
  (calls : list (@Call Host T)) :
  forall (b : CircuitBreaker) (h : Host),
    state b = CLOSED ->
    Forall (fun k => k < failureThreshold cfg)
           (Runs.streaks (failures b) (fst (executeAll calls (b, h)))) ->
    let b' := fst (snd (executeAll calls (b, h))) in
    state b' = CLOSED
    /\ failures b'
       = last (Runs.streaks (failures b) (fst (executeAll calls (b, h))))
              (failures b)
    /\ totalCalls b' = totalCalls b + Z.of_nat (List.length calls)
    /\ totalFailures b' + totalSuccesses b'
       = totalFailures b + totalSuccesses b + Z.of_nat (List.length calls).
Proof.
  induction calls as [| c rest IH]; intros b h Hs Hlow.
  - cbn. repeat split; [exact Hs | lia | lia].
  - cbn [CB.executeAll fst snd] in *.
    pose proof (closed_call_accounting (op c) b (before c h)) as Hacc.
    destruct (execute (op c) (b, before c h)) as [r [b1 h1]] eqn:He.
    specialize (IH b1 h1).
    destruct (executeAll rest (b1, h1)) as [rs [b2 h2]] eqn:Hrest.
    cbn [fst snd Runs.streaks List.length] in *.
    destruct Hacc as [Hc1 Hsum1]; [rewrite Hs; discriminate |].
    inversion Hlow as [| k ks Hk Hks]; subst.
    assert (Hb1 : state b1 = CLOSED
                  /\ failures b1 = (if isThrow r then failures b + 1 else 0)).
    { destruct r as [v | e]; cbn [isThrow] in *.
      - destruct (closed_return_counts _ _ _ _ _ _ _ _ _ Hs He) as (? & ? & _).
        now split.
      - destruct (closed_throw_counts _ _ _ _ _ _ _ _ _ Hs He)
          as [_ [[Hge _] | (_ & Hc & Hf)]]; [lia | now split]. }
    destruct Hb1 as [Hs1 Hf1]. rewrite <- Hf1 in *.
    destruct (IH Hs1 Hks) as (Hs2 & Hf2 & Hc2 & Hsum2).
    repeat split; [exact Hs2 | | lia | lia].
    rewrite Hf2. symmetry. apply last_cons_default.
Qed.

(** X3.  A call the breaker lets through, and whose timer does not fire
    first, completes exactly as the operation does: the same value or the
    same thrown error, in the host state the operation left. *)
Theorem execute_passes_completion_through
  (fn : M Host T) (b : CircuitBreaker) (h : Host) :
  state b <> OPEN \/ shouldAttemptReset b h = true ->
  timerFiresFirst (CB.timeout cfg) h (snd (fn h)) = false ->
  fst (execute fn (b, h)) = fst (fn h)
  /\ snd (snd (execute fn (b, h))) = snd (fn h).
Proof.
  intros Hgate Htimer.
  assert (Hatt : forall b0 : CircuitBreaker,
             fst (attempt fn (b0, h)) = fst (fn h)
             /\ snd (snd (attempt fn (b0, h))) = snd (fn h)).
  { intros b0. unfold CB.attempt, CB.executeWithTimeout.
    destruct (fn h) as [c h1]. cbn [snd] in Htimer. rewrite Htimer.
    destruct c; split; reflexivity. }
  destruct (state b) eqn:Hs.
  - rewrite execute_not_open by (rewrite Hs; discriminate). apply Hatt.
  - destruct Hgate as [Hno | Hr]; [congruence |].
    rewrite (execute_open_probes _ _ _ fn b h Hs Hr). apply Hatt.
  - rewrite execute_not_open by (rewrite Hs; discriminate). apply Hatt.
Qed.

(** X4.  A call the breaker lets through and whose timer fires first
    throws the timeout error and is booked as a failure, with a failure
    time recorded, whatever the operation itself settled with: a late
    success is a failure. *)
Theorem late_call_is_a_failure
  (fn : M Host T) (b : CircuitBreaker) (h : Host) :
  state b <> OPEN \/ shouldAttemptReset b h = true ->
  timerFiresFirst (CB.timeout cfg) h (snd (fn h)) = true ->
  let b' := fst (snd (execute fn (b, h))) in
  fst (execute fn (b, h)) = Throw (timeoutError cfg)
  /\ failures b' = failures b + 1
  /\ totalFailures b' = totalFailures b + 1
  /\ totalSuccesses b' = totalSuccesses b
  /\ lastFailureTime b' <> None.
Proof.
  intros Hgate Htimer.
  assert (Hatt : forall b0 : CircuitBreaker,
             failures b0 = failures b ->
             totalFailures b0 = totalFailures b ->
             totalSuccesses b0 = totalSuccesses b ->
             let b' := fst (snd (attempt fn (b0, h))) in
             fst (attempt fn (b0, h)) = Throw (timeoutError cfg)
             /\ failures b' = failures b + 1
             /\ totalFailures b' = totalFailures b + 1
             /\ totalSuccesses b' = totalSuccesses b
             /\ lastFailureTime b' <> None).
  { intros b0 Hf Htf Hts. unfold CB.attempt, CB.executeWithTimeout.
    destruct (fn h) as [c h1]. cbn [snd] in Htimer. rewrite Htimer.
    cbn [fst snd]. unfold CB.onFailure. unfold_setters.
    destruct (state b0); simpl;
      try destruct (failures b0 + 1 >=? failureThreshold cfg); simpl;
      repeat split; try lia; discriminate. }
  destruct (state b) eqn:Hs.
  - rewrite execute_not_open by (rewrite Hs; discriminate).
    now apply Hatt.
  - destruct Hgate as [Hno | Hr]; [congruence |].
    rewrite (execute_open_probes _ _ _ fn b h Hs Hr). now apply Hatt.
  - rewrite execute_not_open by (rewrite Hs; discriminate).
    now apply Hatt.
Qed.

(** X5.  The gate of an OPEN breaker tests its failure time for
    truthiness: with [lastFailureTime] null, or 0, the next call is let
    through as a probe at any clock reading, and [getStats] reports
    [lastFailure: null]. *)
Theorem falsy_failure_time_opens_gate
  (fn : M Host T) (b : CircuitBreaker) (h : Host) :
  state b = OPEN ->
  lastFailureTime b = None \/ lastFailureTime b = Some 0 ->
  execute fn (b, h) = attempt fn (set_state HALF_OPEN (counted b), h)
  /\ snd (snd (execute fn (b, h))) = snd (fn h)
  /\ stats_lastFailure (getStats b) = None.
Proof.
  intros Hs Hfalsy.
  assert (Hr : shouldAttemptReset b h = true)
    by (unfold CB.shouldAttemptReset; destruct Hfalsy as [-> | ->]; reflexivity).
  rewrite (execute_open_probes _ _ _ fn b h Hs Hr).
  split; [reflexivity |]. split; [apply attempt_runs_operation |].
  unfold getStats. destruct Hfalsy as [-> | ->]; reflexivity.
Qed.

(** X6.  After [reset()] the next call always runs the operation,
    whatever state the breaker was in, and a second [reset()] changes
    nothing. *)
Theorem reset_lets_the_next_call_through
  (fn : M Host T) (b : CircuitBreaker) (h : Host) :
  execute fn (reset b, h) = attempt fn (counted (reset b), h)
  /\ snd (snd (execute fn (reset b, h))) = snd (fn h)
  /\ reset (reset b) = reset b
  /\ isHealthy (reset b) = true.
Proof.
  assert (Hrun : execute fn (reset b, h) = attempt fn (counted (reset b), h))
    by (apply execute_not_open; discriminate).
  rewrite Hrun. repeat split. apply attempt_runs_operation.
Qed.

Lemma counted_n (b : CircuitBreaker) (n : Z) :
  counted (set_totalCalls (totalCalls b + n) b)
  = set_totalCalls (totalCalls b + (n + 1)) b.
Proof.
  unfold counted. unfold_setters. f_equal. lia.
Qed.

(** X7.  While OPEN and not yet due for a probe, a breaker without
    fallback turns away every call: each throws the circuit-open error,
    no operation runs (the host only undergoes what happens between the
    calls), and the breaker changes in [totalCalls] alone, by the number
    of calls. *)
Theorem open_breaker_fails_fast (calls : list (@Call Host T)) :
  forall (b : CircuitBreaker) (h : Host),
    state b = OPEN ->
    fallback cfg = None ->
    Runs.allInWindow dateNow cfg b calls h ->
    executeAll calls (b, h)
    = (map (fun _ => Throw (circuitOpenError cfg)) calls,
       (set_totalCalls (totalCalls b + Z.of_nat (List.length calls)) b,
        Runs.idleOnly calls h)).
Proof.
  assert (Hgen : forall (b : CircuitBreaker) (n : Z) (h : Host),
             state b = OPEN ->
             fallback cfg = None ->
             Runs.allInWindow dateNow cfg b calls h ->
             executeAll calls (set_totalCalls (totalCalls b + n) b, h)
             = (map (fun _ => Throw (circuitOpenError cfg)) calls,
                (set_totalCalls
                   (totalCalls b + (n + Z.of_nat (List.length calls))) b,
                 Runs.idleOnly calls h))).
  { induction calls as [| c rest IH]; intros b n h Hs Hfb Hwin.
    - cbn. now replace (n + 0) with n by lia.
    - destruct Hwin as [Hr Hwin].
      cbn [CB.executeAll fst snd map Runs.idleOnly].
      rewrite (execute_open_rejects dateNow timerFiresFirst cfg (op c)
                 (set_totalCalls (totalCalls b + n) b) (before c h) Hs Hr).
      unfold CB.rejection. rewrite Hfb. rewrite counted_n.
      rewrite (IH b (n + 1) (before c h) Hs Hfb Hwin).
      replace (n + Z.of_nat (List.length (c :: rest)))
        with (n + 1 + Z.of_nat (List.length rest))
        by (cbn [List.length]; lia).
      reflexivity. }
  intros b h Hs Hfb Hwin.
  specialize (Hgen b 0 h Hs Hfb Hwin).
  replace (set_totalCalls (totalCalls b + 0) b) with b in Hgen
    by (destruct b; unfold_setters; f_equal; lia).
  exact Hgen.
Qed.

(** Without a fallback, the host after a call is the one the operation
    left, or, if the call was turned away, the one it was made in. *)
Lemma execute_host_cases (fn : M Host T) (b : CircuitBreaker) (h : Host) :
  fallback cfg = None ->
  snd (snd (execute fn (b, h))) = snd (fn h)
  \/ snd (snd (execute fn (b, h))) = h.
Proof.
  intros Hfb. destruct (state b) eqn:Hs.
  - rewrite execute_not_open by (rewrite Hs; discriminate).
    left. apply attempt_runs_operation.
  - destruct (shouldAttemptReset b h) eqn:Hr.
    + rewrite (execute_open_probes _ _ _ fn b h Hs Hr).
      left. apply attempt_runs_operation.
    + rewrite (execute_open_rejects _ _ _ fn b h Hs Hr).
      unfold CB.rejection. rewrite Hfb. now right.
  - rewrite execute_not_open by (rewrite Hs; discriminate).
    left. apply attempt_runs_operation.
Qed.

(** Without a fallback and with the timer not firing first, a call that
    throws either threw what the operation threw or was turned away. *)
Lemma execute_throw_cases (fn : M Host T) (b b' : CircuitBreaker)
  (h h' : Host) (e : Thrown) :
  fallback cfg = None ->
  timerFiresFirst (CB.timeout cfg) h (snd (fn h)) = false ->
  execute fn (b, h) = (Throw e, (b', h')) ->
  fn h = (Throw e, h') \/ h' = h.
Proof.
  intros Hfb Htimer Hrun.
  assert (Hatt : forall b0 : CircuitBreaker,
             attempt fn (b0, h) = (Throw e, (b', h')) ->
             fn h = (Throw e, h')).
  { intros b0 Ha. unfold CB.attempt, CB.executeWithTimeout in Ha.
    destruct (fn h) as [c h1]. cbn [snd] in Htimer. rewrite Htimer in Ha.
    destruct c; inversion Ha; subst; reflexivity. }
  destruct (state b) eqn:Hs.
  - rewrite execute_not_open in Hrun by (rewrite Hs; discriminate).
    left; eauto.
  - destruct (shouldAttemptReset b h) eqn:Hr.
    + rewrite (execute_open_probes _ _ _ fn b h Hs Hr) in Hrun. left; eauto.
    + rewrite (execute_open_rejects _ _ _ fn b h Hs Hr) in Hrun.
      unfold CB.rejection in Hrun. rewrite Hfb in Hrun.
      inversion Hrun; subst. now right.
  - rewrite execute_not_open in Hrun by (rewrite Hs; discriminate).
    left; eauto.
Qed.

Lemma probe_is_half_open_call (fn : M Host T) (b : CircuitBreaker) (h : Host) :
  state b = OPEN -> shouldAttemptReset b h = true ->
  execute fn (b, h) = execute fn (set_state HALF_OPEN b, h).
Proof.
  intros Hs Hr. rewrite (execute_open_probes _ _ _ fn b h Hs Hr).
  symmetry. apply (execute_not_open dateNow timerFiresFirst cfg fn
                     (set_state HALF_OPEN b) h). discriminate.
Qed.

(** X8.  Recovery.  An OPEN breaker that is due for a probe and then
    sees [successThreshold] calls in a row succeed, the probe being the
    first, ends CLOSED with both consecutive counters at 0. *)
Theorem open_breaker_recovers
  (c : @Call Host T) (calls : list (@Call Host T))
  (b : CircuitBreaker) (h : Host) :
  state b = OPEN ->
  0 <= successes b ->
  shouldAttemptReset b (before c h) = true ->
  Z.of_nat (List.length (c :: calls)) = successThreshold cfg ->
  forallb isReturn (fst (executeAll (c :: calls) (b, h))) = true ->
  let b' := fst (snd (executeAll (c :: calls) (b, h))) in
  state b' = CLOSED /\ failures b' = 0 /\ successes b' = 0.
Proof.
  intros Hs Hsu Hr Hlen Hall.
  assert (Hsame : executeAll (c :: calls) (b, h)
                  = executeAll (c :: calls) (set_state HALF_OPEN b, h)).
  { cbn [CB.executeAll fst snd].
    now rewrite (probe_is_half_open_call (op c) b (before c h) Hs Hr). }
  rewrite Hsame in *.
  apply (succeeding_calls_close dateNow timerFiresFirst cfg (c :: calls)
           (set_state HALF_OPEN b) h); [| exact Hall].
  right. split; [reflexivity |]. split; [discriminate |].
  change (successes (set_state HALF_OPEN b)) with (successes b). lia.
Qed.

End BreakerMore.

(* ================================================================== *)
(** * More about the retry executor *)

Section RetryMore.

Context {Host T : Type}.
Variable setTimeout : Z -> Host -> Host.
Variable fn : M Host T.
Variable cfg : RetryConfig.

Local Abbreviation loop :=
  (retryLoop (setTimeoutLogged (T:=T) setTimeout) (spy fn) cfg).

Lemma invocations_app (l1 l2 : list (Event T)) :
  invocations (l1 ++ l2) = invocations l1 ++ invocations l2.
Proof. apply flat_map_app. Qed.

(** The loop, entered with an attempt still allowed, invokes the
    operation until an invocation returns, throws a refused error, or is
    the last one allowed; that invocation's completion is the loop's. *)
Lemma loop_shape (fuel : nat) :
  forall (i : nat) (delay : Z) (lastError : Thrown) (h : Host)
         (log : list (Event T)),
    Z.of_nat i <= Retry.maxRetries cfg ->
    Retry.maxRetries cfg + 1 - Z.of_nat i <= Z.of_nat fuel ->
    exists (errs : list Thrown) (c : Completion T),
      invocations (snd (snd (loop fuel (Z.of_nat i) delay lastError (h, log))))
      = invocations log ++ map Throw errs ++ [c]
      /\ fst (loop fuel (Z.of_nat i) delay lastError (h, log)) = c
      /\ Forall (fun e => refusesRetry cfg e = false) errs
      /\ Z.of_nat (List.length errs) <= Retry.maxRetries cfg - Z.of_nat i.
Proof.
  induction fuel as [| fuel' IH]; intros i delay lastError h log Hle Hfuel;
    [lia |].
  cbn [retryLoop].
  destruct (Z.leb_spec (Z.of_nat i) (Retry.maxRetries cfg)) as [_ | Hgt];
    [| lia].
  assert (Hspy : spy fn (h, log)
                 = (let '(c, h') := fn h in (c, (h', log ++ [Invoked c]))))
    by reflexivity.
  rewrite Hspy. clear Hspy. destruct (fn h) as [[v | e] h1].
  - exists [], (Return v). cbn [fst snd map app List.length].
    rewrite invocations_app. repeat split; [constructor | cbn; lia].
  - destruct (Z.geb_spec (Z.of_nat i) (Retry.maxRetries cfg)) as [Hge | Hlt].
    { exists [], (Throw e). cbn [fst snd map app List.length].
      rewrite invocations_app. repeat split; [constructor | cbn; lia]. }
    destruct (refusesRetry cfg e) eqn:Href.
    { exists [], (Throw e). cbn [fst snd map app List.length].
      rewrite invocations_app. repeat split; [constructor | cbn; lia]. }
    cbn [sleep].
    change (setTimeoutLogged setTimeout delay (h1, log ++ [Invoked (Throw e)]))
      with (setTimeout delay h1, (log ++ [Invoked (Throw e)]) ++ [Slept delay]).
    replace (Z.of_nat i + 1) with (Z.of_nat (S i)) by lia.
    destruct (IH (S i) (Z.min (delay * backoffMultiplier cfg) (maxDelay cfg))
                 e (setTimeout delay h1)
                 ((log ++ [Invoked (Throw e)]) ++ [Slept delay]))
      as (errs & c & Hinv & Hres & Hall & Hlen); [lia | lia |].
    exists (e :: errs), c. rewrite Hinv, Hres.
    rewrite !invocations_app. cbn [invocations flat_map app map List.length].
    rewrite app_nil_r, <- !app_assoc. cbn [app].
    repeat split; [constructor; assumption | lia].
Qed.

End RetryMore.

Section RetryMoreTheorems.

Context {Host T : Type}.
Variable setTimeout : Z -> Host -> Host.

Local Abbreviation observed := (Retry.observed (T:=T) setTimeout).

(** X9.  [withRetry] stops at the first invocation that returns, or that
    throws an error the policy refuses to retry, or that is the last one
    allowed: the invocations of a run are some throws, each of an error
    the policy accepts, followed by one last invocation whose completion
    is the completion of [withRetry].  The operation is never invoked
    again after it returned. *)
Theorem withRetry_ends_with_its_last_invocation
  (fn : M Host T) (config : PartialRetryConfig) (h : Host) :
  0 <= Retry.maxRetries (mergeConfig config) ->
  exists (errs : list Thrown) (c : Completion T),
    invocations (snd (snd (observed fn config h))) = map Throw errs ++ [c]
    /\ fst (observed fn config h) = c
    /\ Forall (fun e => refusesRetry (mergeConfig config) e = false) errs
    /\ Z.of_nat (List.length errs) <= Retry.maxRetries (mergeConfig config).
Proof.
  intros Hmax. unfold Retry.observed, withRetry.
  destruct (loop_shape setTimeout fn (mergeConfig config)
              (Z.to_nat (Retry.maxRetries (mergeConfig config) + 1))
              0%nat (initialDelay (mergeConfig config)) Undefined h [])
    as (errs & c & Hinv & Hres & Hall & Hlen);
    [cbn [Z.of_nat]; lia | cbn [Z.of_nat]; lia |].
  exists errs, c. cbn [Z.of_nat] in *. cbn [invocations flat_map app] in Hinv.
  repeat split; [exact Hinv | exact Hres | exact Hall | lia].
Qed.

(** X10.  With a negative [maxRetries] the loop body never runs: the
    operation is not invoked, no timer is set, the host is untouched and
    [withRetry] throws [undefined]. *)
Theorem withRetry_negative_budget_throws_undefined
  (fn : M Host T) (config : PartialRetryConfig) (h : Host) :
  Retry.maxRetries (mergeConfig config) < 0 ->
  observed fn config h = (Throw Undefined, (h, [])).
Proof.
  intros Hneg. unfold Retry.observed, withRetry.
  destruct (Z.to_nat (Retry.maxRetries (mergeConfig config) + 1)) eqn:Hfuel;
    [reflexivity |].
  cbn [retryLoop].
  destruct (Z.leb_spec 0 (Retry.maxRetries (mergeConfig config)));
    [lia | reflexivity].
Qed.

Lemma total_bounded (l : list Z) (bound : Z) :
  Forall (fun d => d <= bound) l ->
  Classify.total l <= Z.of_nat (List.length l) * bound.
Proof.
  induction 1 as [| d l Hd _ IH]; cbn [Classify.total fold_right List.length];
    [lia |].
  fold (Classify.total l). nia.
Qed.

(** X11.  The time [withRetry] spends sleeping is bounded: there are at
    most [maxRetries] sleeps and, when [initialDelay <= maxDelay], they
    add up to at most [maxRetries * maxDelay]. *)
Theorem withRetry_total_sleep_is_bounded
  (fn : M Host T) (config : PartialRetryConfig) (h : Host) :
  let cfg := mergeConfig config in
  let slept := sleeps (snd (snd (observed fn config h))) in
  0 <= Retry.maxRetries cfg ->
  initialDelay cfg <= maxDelay cfg ->
  0 <= maxDelay cfg ->
  Z.of_nat (List.length slept) <= Retry.maxRetries cfg
  /\ Classify.total slept <= Retry.maxRetries cfg * maxDelay cfg.
Proof.
  intros cfg slept Hmax Hinit Hpos. subst slept.
  unfold Retry.observed, withRetry. fold cfg.
  destruct (loop_journal setTimeout fn cfg
              (Z.to_nat (Retry.maxRetries cfg + 1)) 0%nat Undefined h [])
    as (evs & Hlog & Hil & Hsl & Hinv & _); [cbn [Z.of_nat]; lia |].
  cbn [Z.of_nat specDelay app] in Hlog. rewrite Hlog.
  pose proof (Interleaved_counts evs Hil) as Hcount.
  assert (Hn : Z.of_nat (List.length (sleeps evs)) <= Retry.maxRetries cfg)
    by lia.
  split; [exact Hn |].
  assert (Hall : Forall (fun d => d <= maxDelay cfg) (sleeps evs)).
  { rewrite Hsl. apply Forall_forall. intros d Hd.
    apply in_map_iff in Hd as (i & <- & _).
    now apply specDelay_bounded. }
  pose proof (total_bounded _ _ Hall). nia.
Qed.

End RetryMoreTheorems.

Section ClassifyFacts.

Import Classify.

Lemma toLowerCase_app (a b : string) :
  toLowerCase (a ++ b) = (toLowerCase a ++ toLowerCase b)%string.
Proof.
  induction a as [| c a IH]; cbn; [reflexivity | now rewrite IH].
Qed.

Lemma prefix_app (n post : string) : String.prefix n (n ++ post) = true.
Proof.
  induction n as [| c n IH]; cbn; [now destruct post |].
  destruct (ascii_dec c c); [exact IH | contradiction].
Qed.

Lemma includes_app_r (a b n : string) :
  includes b n = true -> includes (a ++ b) n = true.
Proof.
  intros H. induction a as [| c a IH]; [exact H |].
  cbn [append includes]. rewrite IH. apply orb_true_r.
Qed.

Lemma includes_middle (pre n post : string) :
  includes (pre ++ n ++ post) n = true.
Proof.
  apply includes_app_r. destruct (n ++ post)%string eqn:E; cbn [includes];
    rewrite <- E, prefix_app; reflexivity.
Qed.

Lemma marker_found (marker pre s post : string) :
  In marker markers ->
  toLowerCase s = marker ->
  isNetworkError (ErrorObject (pre ++ s ++ post)) = true.
Proof.
  intros Hin Hs. unfold isNetworkError.
  rewrite !toLowerCase_app, Hs.
  pose proof (includes_middle (toLowerCase pre) marker (toLowerCase post))
    as Hinc.
  cbn [markers In] in Hin.
  repeat (destruct Hin as [<- | Hin];
          [rewrite Hinc; repeat rewrite orb_true_r; reflexivity |]).
  contradiction.
Qed.

(** X12.  [isNetworkError] looks for its eight markers anywhere in the
    message and in any letter case: an [Error] whose message contains a
    spelling of a marker is retryable, whatever stands before and after
    it (so a message that merely contains the digits 503 is, too); a
    thrown value that is no [Error] object never is. *)
Theorem isNetworkError_finds_markers_anywhere :
  (forall marker pre s post : string,
      In marker markers ->
      toLowerCase s = marker ->
      isNetworkError (ErrorObject (pre ++ s ++ post)) = true)
  /\ isNetworkError Undefined = false.
Proof.
  split; [exact marker_found | reflexivity].
Qed.

(** X13.  The error a circuit breaker throws when its timer fires first
    is one [isNetworkError] accepts, for every breaker name and timeout:
    under the default predicate a timed-out call is retried. *)
Theorem breaker_timeout_is_retryable {Host T : Type}
  (cfg : @CircuitBreakerConfig Host T) :
  isNetworkError (timeoutError cfg) = true.
Proof.
  unfold timeoutError.
  change ("Circuit breaker timeout after "
          ++ numberToString (CB.timeout cfg) ++ "ms")%string
    with ("Circuit breaker "
          ++ "timeout"
          ++ (" after " ++ numberToString (CB.timeout cfg) ++ "ms"))%string.
  apply (marker_found "timeout"); [cbn; tauto | reflexivity].
Qed.

End ClassifyFacts.

(* ================================================================== *)
(** * More about the response cache *)

Section CacheMore.

Import CacheInv.

Lemma Map_get_None_iff (key : string) (m : Cache) :
  Map_get key m = None <-> ~ In key (map fst m).
Proof.
  induction m as [| [k v] rest IH]; cbn [Map_get map fst In]; [tauto |].
  destruct (String.eqb_spec k key) as [-> | Hne].
  - split; [discriminate | tauto].
  - rewrite IH. tauto.
Qed.

Lemma Map_set_absent (key : string) (v : CacheEntry) (m : Cache) :
  Map_get key m = None -> Map_set key v m = m ++ [(key, v)].
Proof.
  induction m as [| [k v0] rest IH]; cbn [Map_get Map_set app];
    [reflexivity |].
  destruct (String.eqb k key); [discriminate |].
  intros H. now rewrite IH.
Qed.

Lemma Map_set_present_keys (key : string) (v : CacheEntry) (m : Cache) :
  Map_get key m <> None -> map fst (Map_set key v m) = map fst m.
Proof.
  induction m as [| [k v0] rest IH]; cbn [Map_get Map_set map fst];
    [congruence |].
  destruct (String.eqb k key); [reflexivity |].
  intros H. cbn [map fst]. now rewrite IH.
Qed.

Lemma Map_set_keys (key : string) (v : CacheEntry) (m : Cache) :
  map fst (Map_set key v m)
  = match Map_get key m with
    | Some _ => map fst m
    | None => map fst m ++ [key]
    end.
Proof.
  destruct (Map_get key m) eqn:Hget.
  - apply Map_set_present_keys. congruence.
  - rewrite (Map_set_absent key v m Hget), map_app. reflexivity.
Qed.

Lemma Map_delete_keys_incl (k : string) (m : Cache) :
  incl (map fst (Map_delete k m)) (map fst m).
Proof.
  induction m as [| [k0 v0] rest IH]; cbn [Map_delete map fst];
    [apply incl_refl |].
  destruct (String.eqb k0 k).
  - apply incl_tl, incl_refl.
  - cbn [map fst]. apply incl_cons; [now left |]. now apply incl_tl.
Qed.

Lemma Map_delete_NoDup (k : string) (m : Cache) :
  NoDup (map fst m) -> NoDup (map fst (Map_delete k m)).
Proof.
  induction m as [| [k0 v0] rest IH]; cbn [Map_delete map fst]; [auto |].
  intros Hnd. inversion Hnd as [| x l Hnotin Hrest]; subst.
  destruct (String.eqb k0 k); [exact Hrest |].
  cbn [map fst]. constructor; [| now apply IH].
  intros Hin. apply Hnotin. eapply Map_delete_keys_incl; eauto.
Qed.

Lemma Map_delete_gone (key : string) (m : Cache) :
  NoDup (map fst m) -> Map_get key (Map_delete key m) = None.
Proof.
  induction m as [| [k0 v0] rest IH]; cbn [Map_delete map fst];
    [reflexivity |].
  intros Hnd. inversion Hnd as [| x l Hnotin Hrest]; subst.
  destruct (String.eqb_spec k0 key) as [-> | Hne].
  - now apply Map_get_None_iff.
  - cbn [Map_get]. destruct (String.eqb_spec k0 key); [contradiction |].
    now apply IH.
Qed.

Lemma Map_delete_size (k : string) (m : Cache) :
  Map_size (Map_delete k m)
  = match Map_get k m with
    | Some _ => Map_size m - 1
    | None => Map_size m
    end.
Proof.
  unfold Map_size.
  induction m as [| [k0 v0] rest IH]; cbn [Map_delete Map_get List.length];
    [reflexivity |].
  destruct (String.eqb k0 k); cbn [List.length]; [lia |].
  destruct (Map_get k rest); lia.
Qed.

Lemma cacheOk_delete (k : string) (c : Cache) :
  cacheOk c -> cacheOk (Map_delete k c).
Proof.
  intros (Hnd & Hne & Hsize). repeat split.
  - now apply Map_delete_NoDup.
  - apply Forall_forall. intros x Hx.
    rewrite Forall_forall in Hne. apply Hne.
    eapply Map_delete_keys_incl; eauto.
  - rewrite Map_delete_size. destruct (Map_get k c); lia.
Qed.

Lemma cacheOk_set (key : string) (v : CacheEntry) (c : Cache) :
  NoDup (map fst c) ->
  Forall (fun k => k <> EmptyString) (map fst c) ->
  key <> EmptyString ->
  NoDup (map fst (Map_set key v c))
  /\ Forall (fun k => k <> EmptyString) (map fst (Map_set key v c)).
Proof.
  intros Hnd Hne Hkey. rewrite Map_set_keys.
  destruct (Map_get key c) eqn:Hget; [now split |].
  split.
  - apply NoDup_app; [exact Hnd | repeat constructor; auto |].
    intros x Hx [<- | []]. now apply Map_get_None_iff in Hget.
  - apply Forall_app. split; [exact Hne | now repeat constructor].
Qed.

Section WithConfig.

Context {World : Type}.
Variable dateNow : World -> Z.
Variable timerFiresFirst : Z -> World -> World -> bool.
Variable JSON_stringify : list Message -> string.
Variable callOllama : string -> list Message -> World -> HttpOutcome * World.
Variable callOpenAI : string -> list Message -> World -> HttpOutcome * World.
Variable callAnthropic : string -> list Message -> World -> HttpOutcome * World.
Variable config : LiteLLMConfig.

Local Abbreviation callModel :=
  (LiteLLM.callModel callOllama callOpenAI callAnthropic).
Local Abbreviation tryModels :=
  (LiteLLM.tryModels dateNow callOllama callOpenAI callAnthropic config).
Local Abbreviation executeWithFallbacks :=
  (LiteLLM.executeWithFallbacks dateNow callOllama callOpenAI callAnthropic
                                config).
Local Abbreviation getFromCache := (LiteLLM.getFromCache dateNow config).
Local Abbreviation setCache := (LiteLLM.setCache dateNow).
Local Abbreviation getCacheKey := (LiteLLM.getCacheKey JSON_stringify).
Local Abbreviation chatSync :=
  (LiteLLM.chatSync dateNow timerFiresFirst JSON_stringify
                    callOllama callOpenAI callAnthropic config).

Lemma cacheOk_setCache (key resp : string) (c : Cache) (w : World) :
  cacheOk c -> key <> EmptyString -> cacheOk (setCache key resp (c, w)).
Proof.
  intros (Hnd & Hne & Hsize) Hkey. unfold LiteLLM.setCache.
  set (v := {| response := resp; timestamp := dateNow w |}).
  destruct (cacheOk_set key v c Hnd Hne Hkey) as [Hnd1 Hne1].
  pose proof (Map_size_set key v c) as Hs1.
  assert (Hs1' : Map_size (Map_set key v c) <= 1001)
    by (destruct (Map_get key c); lia).
  destruct (Z.gtb_spec (Map_size (Map_set key v c)) 1000) as [Hbig | Hok];
    [| repeat split; [exact Hnd1 | exact Hne1 | lia]].
  destruct (Map_set key v c) as [| [k0 v0] rest] eqn:Hset;
    [cbn in Hbig; lia |].
  cbn [Map_firstKey].
  assert (Hk0 : k0 <> EmptyString) by (inversion Hne1; assumption).
  destruct k0 as [| ch k0']; [congruence |].
  cbn [truthyString Map_delete]. rewrite String.eqb_refl.
  inversion Hnd1; inversion Hne1; subst.
  repeat split; [assumption | assumption |].
  unfold Map_size in *. cbn [List.length] in *. lia.
Qed.

Lemma cacheOk_getFromCache (key : string) (c : Cache) (w : World) :
  cacheOk c -> cacheOk (snd (getFromCache key (c, w))).
Proof.
  intros Hok. unfold LiteLLM.getFromCache.
  destruct (negb (cacheEnabled config)); [exact Hok |].
  destruct (Map_get key c) as [entry |]; [| exact Hok].
  destruct (expired config (dateNow w) entry); cbn [snd];
    [now apply cacheOk_delete | exact Hok].
Qed.

(** The cache a provider iteration leaves: as it was, or with the
    returned text written under the key. *)
Lemma tryModels_cache_cases (messages : list Message) (key : string)
  (models : list string) :
  forall (lastError : option Thrown) (c : Cache) (w : World),
    let R := tryModels messages key models lastError (c, w) in
    (isThrow (fst R) = true /\ fst (snd R) = c)
    \/ (exists r : string,
           fst R = Return r /\ cacheEnabled config = true
           /\ fst (snd R) = setCache key r (c, snd (snd R)))
    \/ (isReturn (fst R) = true /\ cacheEnabled config = false
        /\ fst (snd R) = c).
Proof.
  induction models as [| m rest IH]; intros lastError c w;
    cbn [LiteLLM.tryModels fst snd].
  - left. now split.
  - destruct (callModel m messages w) as [[r | e] w1].
    + cbn [fst snd]. destruct (cacheEnabled config).
      * right; left. exists r. repeat split.
      * right; right. repeat split.
    + apply IH.
Qed.

(** The cache after a request: the cache after the lookup, or that with
    the returned text written under the request's key. *)
Lemma chatSync_cache_cases (messages : list Message) (a : LiteLLMAdapter)
  (w : World) :
  let key := getCacheKey messages in
  let c := snd (getFromCache key (cache a, w)) in
  let R := chatSync messages (a, w) in
  cache (fst (snd R)) = c
  \/ exists (r : string) (w' : World),
       cacheEnabled config = true
       /\ cache (fst (snd R)) = setCache key r (c, w').
Proof.
  cbn zeta. unfold LiteLLM.chatSync.
  destruct (getFromCache (getCacheKey messages) (cache a, w)) as [cached c].
  cbn [snd]. destruct (truthyString cached); [now left |].
  pose proof (tryModels_cache_cases messages (getCacheKey messages)
                (primaryModel config :: fallbackModels config) None c w)
    as Hcases.
  fold (executeWithFallbacks messages (getCacheKey messages) (c, w)) in Hcases.
  cbn zeta in Hcases.
  pose proof (execute_host_cases (hostNow dateNow)
                (hostTimerFiresFirst timerFiresFirst) (breakerConfig config)
                (executeWithFallbacks messages (getCacheKey messages))
                (circuitBreaker a) (c, w) eq_refl) as Hhost.
  remember (executeWithFallbacks messages (getCacheKey messages) (c, w))
    as R eqn:HR.
  assert (Hfn : fst (snd R) = c
                \/ exists (r : string) (w' : World),
                     cacheEnabled config = true
                     /\ fst (snd R) = setCache (getCacheKey messages) r (c, w')).
  { destruct Hcases as [[_ H] | [(r & _ & Hon & H) | (_ & _ & H)]];
      [now left | right; eauto | now left]. }
  clear Hcases.
  destruct (circuitBreakerEnabled config).
  - destruct (CB.execute (hostNow dateNow)
                (hostTimerFiresFirst timerFiresFirst) (breakerConfig config)
                (executeWithFallbacks messages (getCacheKey messages))
                (circuitBreaker a, (c, w))) as [r0 [b' [c' w']]] eqn:Hexec.
    pose proof (f_equal (fun x => snd (snd x)) Hexec) as Hsnd.
    cbn [fst snd cache] in *.
    assert (Hhost' : (c', w') = snd R \/ (c', w') = (c, w)).
    { destruct Hhost as [Hh | Hh]; [left | right];
        (etransitivity; [symmetry; exact Hsnd | exact Hh]). }
    destruct Hhost' as [Hh | Hh].
    + replace c' with (fst (snd R)) by (now rewrite <- Hh). exact Hfn.
    + inversion Hh; subst. now left.
  - destruct R as [r0 [c' w']]. cbn [fst snd cache] in *. exact Hfn.
Qed.

(** X14.  The cache stays well formed over requests: if its keys are
    distinct and non-empty and it holds at most 1000 entries, the same is
    true after any [chatSync], whatever the outcome (the key of a request,
    a [JSON.stringify] of an array, is never empty). *)
Theorem chatSync_keeps_the_cache_bounded
  (messages : list Message) (a : LiteLLMAdapter) (w : World) :
  cacheOk (cache a) ->
  getCacheKey messages <> EmptyString ->
  cacheOk (cache (fst (snd (chatSync messages (a, w))))).
Proof.
  intros Hok Hkey.
  pose proof (cacheOk_getFromCache (getCacheKey messages) (cache a) w Hok)
    as Hc.
  destruct (chatSync_cache_cases messages a w) as [-> | (r & w' & _ & ->)];
    [exact Hc | now apply cacheOk_setCache].
Qed.

(** X15.  Eviction is by insertion order.  Writing a new key into a full
    cache (1000 entries) drops the oldest entry and appends the new one;
    writing a key that is present replaces its entry where it stands, so
    a refreshed entry keeps its old place in the eviction order. *)
Theorem setCache_evicts_the_oldest_entry
  (key resp : string) (c : Cache) (w : World) :
  let entry := {| response := resp; timestamp := dateNow w |} in
  (forall (k0 : string) (e0 : CacheEntry) (rest : Cache),
      c = (k0, e0) :: rest ->
      Map_size c = 1000 ->
      k0 <> EmptyString ->
      Map_get key c = None ->
      setCache key resp (c, w) = rest ++ [(key, entry)])
  /\ (Map_size c <= 1000 ->
      Map_get key c <> None ->
      setCache key resp (c, w) = Map_set key entry c
      /\ map fst (setCache key resp (c, w)) = map fst c).
Proof.
  intros entry. split.
  - intros k0 e0 rest Hc Hsize Hk0 Hget.
    unfold LiteLLM.setCache. fold entry.
    rewrite (Map_set_absent key entry c Hget).
    assert (Hbig : (Map_size (c ++ [(key, entry)]) >? 1000) = true).
    { apply Z.gtb_lt. unfold Map_size in *. rewrite length_app. cbn. lia. }
    rewrite Hbig. subst c. cbn [app Map_firstKey].
    destruct k0 as [| ch k0']; [congruence |].
    cbn [truthyString Map_delete]. now rewrite String.eqb_refl.
  - intros Hsize Hget. unfold LiteLLM.setCache. fold entry.
    pose proof (Map_size_set key entry c) as Hs.
    destruct (Map_get key c) eqn:Hg; [| congruence].
    destruct (Z.gtb_spec (Map_size (Map_set key entry c)) 1000); [lia |].
    split; [reflexivity |]. apply Map_set_present_keys. congruence.
Qed.

(** X16.  Expiry is strict and lazy.  With caching enabled, an entry is
    served as long as [Date.now()] is at most [cacheTTLSeconds] seconds
    past its timestamp, that very millisecond included; one millisecond
    later the lookup answers [null] and removes the entry, leaving every
    other key as it was. *)
Theorem getFromCache_serves_until_ttl_then_purges
  (key : string) (c : Cache) (w : World) (entry : CacheEntry) :
  cacheEnabled config = true ->
  NoDup (map fst c) ->
  Map_get key c = Some entry ->
  (dateNow w - timestamp entry <= cacheTTLSeconds config * 1000 ->
   getFromCache key (c, w) = (Some (response entry), c))
  /\ (cacheTTLSeconds config * 1000 < dateNow w - timestamp entry ->
      fst (getFromCache key (c, w)) = None
      /\ Map_get key (snd (getFromCache key (c, w))) = None
      /\ Map_size (snd (getFromCache key (c, w))) = Map_size c - 1
      /\ forall k : string,
           k <> key ->
           Map_get k (snd (getFromCache key (c, w))) = Map_get k c).
Proof.
  intros Hon Hnd Hget. unfold LiteLLM.getFromCache.
  rewrite Hon, Hget. cbn [negb]. split.
  - intros Hlive. now rewrite (not_expired config _ _ Hlive).
  - intros Hold.
    assert (Hexp : expired config (dateNow w) entry = true).
    { unfold expired. apply negb_true_iff.
      destruct (Qle_bool (age (dateNow w) entry)
                         (inject_Z (cacheTTLSeconds config))) eqn:Hq;
        [| reflexivity].
      apply Qle_bool_iff in Hq.
      unfold age, Qle, Qdiv, Qmult, Qinv, inject_Z in Hq. cbn in Hq. lia. }
    rewrite Hexp. cbn [fst snd]. repeat split.
    + now apply Map_delete_gone.
    + rewrite Map_delete_size, Hget. reflexivity.
    + intros k Hk. apply Map_get_delete_other. congruence.
Qed.

(** X17.  Errors are not cached.  When [chatSync] throws and the
    breaker's timer did not fire first (or the breaker is off), the cache
    is exactly what the lookup left: nothing was written. *)
Theorem failed_request_writes_no_cache_entry
  (messages : list Message) (a a' : LiteLLMAdapter) (w w' : World)
  (e : Thrown) :
  let key := getCacheKey messages in
  let h := (snd (getFromCache key (cache a, w)), w) in
  circuitBreakerEnabled config = false
  \/ hostTimerFiresFirst timerFiresFirst
       (CB.timeout (breakerConfig (World:=World) config)) h
       (snd (executeWithFallbacks messages key h)) = false ->
  chatSync messages (a, w) = (Throw e, (a', w')) ->
  cache a' = snd (getFromCache key (cache a, w)).
Proof.
  cbn zeta. unfold LiteLLM.chatSync.
  destruct (getFromCache (getCacheKey messages) (cache a, w)) as [cached c].
  cbn [snd]. intros Hgate Hrun.
  destruct (truthyString cached); [discriminate |].
  assert (Hfn : forall (c1 : Cache) (w1 : World),
             executeWithFallbacks messages (getCacheKey messages) (c, w)
             = (Throw e, (c1, w1)) -> c1 = c).
  { intros c1 w1 Hex.
    destruct (tryModels_cache_cases messages (getCacheKey messages)
                (primaryModel config :: fallbackModels config) None c w)
      as [[_ H] | [(r & Hr & _) | (Hr & _)]];
      fold (executeWithFallbacks messages (getCacheKey messages) (c, w)) in *;
      rewrite Hex in *; cbn [fst snd] in *; [auto | discriminate | discriminate]. }
  destruct (circuitBreakerEnabled config).
  - destruct Hgate as [Hoff | Htimer]; [discriminate |].
    destruct (CB.execute (hostNow dateNow)
                (hostTimerFiresFirst timerFiresFirst) (breakerConfig config)
                (executeWithFallbacks messages (getCacheKey messages))
                (circuitBreaker a, (c, w))) as [r0 [b' [c1 w1]]] eqn:Hexec.
    inversion Hrun; subst. cbn [cache].
    destruct (execute_throw_cases (hostNow dateNow)
                (hostTimerFiresFirst timerFiresFirst) (breakerConfig config)
                _ _ _ _ _ _ eq_refl Htimer Hexec) as [Hthrew | Hsame].
    + eapply Hfn; eauto.
    + now inversion Hsame.
  - destruct (executeWithFallbacks messages (getCacheKey messages) (c, w))
      as [r0 [c1 w1]] eqn:Hex.
    inversion Hrun; subst. cbn [cache]. eapply Hfn; eauto.
Qed.

(** X18.  Switches.  With [cacheEnabled = false] a request leaves the
    cache exactly as it found it, whatever its outcome; with
    [circuitBreakerEnabled = false] it leaves the breaker exactly as it
    found it. *)
Theorem disabled_cache_and_breaker_are_untouched
  (messages : list Message) (a : LiteLLMAdapter) (w : World) :
  (cacheEnabled config = false ->
   cache (fst (snd (chatSync messages (a, w)))) = cache a)
  /\ (circuitBreakerEnabled config = false ->
      circuitBreaker (fst (snd (chatSync messages (a, w)))) = circuitBreaker a).
Proof.
  split.
  - intros Hoff.
    assert (Hlook : snd (getFromCache (getCacheKey messages) (cache a, w))
                    = cache a)
      by (unfold LiteLLM.getFromCache; now rewrite Hoff).
    destruct (chatSync_cache_cases messages a w) as [H | (r & w' & Hon & _)];
      [now rewrite H | congruence].
  - intros Hoff. unfold LiteLLM.chatSync.
    destruct (getFromCache (getCacheKey messages) (cache a, w)) as [cached c].
    destruct (truthyString cached); [reflexivity |].
    rewrite Hoff.
    now destruct (executeWithFallbacks messages (getCacheKey messages) (c, w))
      as [r0 [c1 w1]].
Qed.

End WithConfig.

End CacheMore.

(* ================================================================== *)
(** * More about the provider gateway *)

Section DispatchFacts.

Context {World : Type}.
Variable callOllama : string -> list Message -> World -> HttpOutcome * World.
Variable callOpenAI : string -> list Message -> World -> HttpOutcome * World.
Variable callAnthropic : string -> list Message -> World -> HttpOutcome * World.

Local Abbreviation callModel :=
  (LiteLLM.callModel callOllama callOpenAI callAnthropic).

(** X19.  A model id is split at its first slash only: what follows a
    known provider prefix, further slashes included, is handed to that
    provider as the model name; an id that is just a provider name calls
    the provider with the empty model name; any other id throws
    "Unsupported provider" without calling a provider. *)
Theorem callModel_splits_at_the_first_slash
  (messages : list Message) (w : World) :
  (forall name : string,
      callModel ("ollama/" ++ name) messages w
      = settle (callOllama name messages w)
      /\ callModel ("openai/" ++ name) messages w
         = settle (callOpenAI name messages w)
      /\ callModel ("anthropic/" ++ name) messages w
         = settle (callAnthropic name messages w))
  /\ (callModel "ollama" messages w = settle (callOllama EmptyString messages w)
      /\ callModel "openai" messages w
         = settle (callOpenAI EmptyString messages w)
      /\ callModel "anthropic" messages w
         = settle (callAnthropic EmptyString messages w))
  /\ (forall model : string,
      providerOf model <> "ollama"%string ->
      providerOf model <> "openai"%string ->
      providerOf model <> "anthropic"%string ->
      callModel model messages w
      = (Throw (ErrorObject ("Unsupported provider: " ++ providerOf model)), w)).
Proof.
  split; [| split].
  - intros name. repeat split.
  - repeat split.
  - intros model H1 H2 H3. unfold LiteLLM.callModel.
    destruct (String.eqb_spec (providerOf model) "ollama"); [contradiction |].
    destruct (String.eqb_spec (providerOf model) "openai"); [contradiction |].
    destruct (String.eqb_spec (providerOf model) "anthropic"); [contradiction |].
    reflexivity.
Qed.

End DispatchFacts.

Section HttpFacts.

Import Http.

Context {World : Type}.
Variable fetch : Request -> World -> FetchOutcome * World.
Variable getenv : string -> World -> option string.
Variable http : HttpConfig.
Variable config : LiteLLMConfig.
Variable dateNow : World -> Z.
Variable timerFiresFirst : Z -> World -> World -> bool.
Variable JSON_stringify : list Message -> string.

Local Abbreviation callOllama := (Http.callOllama fetch http config).
Local Abbreviation callOpenAI := (Http.callOpenAI fetch getenv http config).
Local Abbreviation callAnthropic := (Http.callAnthropic fetch getenv http config).
Local Abbreviation callModel :=
  (LiteLLM.callModel callOllama callOpenAI callAnthropic).
Local Abbreviation tryModels :=
  (LiteLLM.tryModels dateNow callOllama callOpenAI callAnthropic config).
Local Abbreviation executeWithFallbacks :=
  (LiteLLM.executeWithFallbacks dateNow callOllama callOpenAI callAnthropic
                                config).
Local Abbreviation chatSync :=
  (Http.chatSync fetch getenv http config dateNow timerFiresFirst
                 JSON_stringify).
Local Abbreviation checkModelAvailability :=
  (Http.checkModelAvailability fetch getenv http).
Local Abbreviation anyAvailable := (Http.anyAvailable fetch getenv http).
Local Abbreviation isAvailable := (Http.isAvailable fetch getenv http config).
Local Abbreviation hasCredential := (Http.hasCredential getenv).
Local Abbreviation failsOffline := (Http.failsOffline getenv).

Lemma callModel_offline (model : string) (messages : list Message) (w : World) :
  failsOffline w model = true ->
  exists e : Thrown, callModel model messages w = (Throw e, w).
Proof.
  unfold Http.failsOffline, Http.hasCredential, LiteLLM.callModel.
  intros H. apply andb_prop in H as [Hno Hcred].
  apply negb_true_iff in Hno. apply negb_true_iff in Hcred. rewrite Hno.
  destruct (String.eqb (providerOf model) "openai").
  - unfold Http.callOpenAI. rewrite Hcred. cbn. eauto.
  - destruct (String.eqb (providerOf model) "anthropic"); [| eauto].
    unfold Http.callAnthropic. rewrite Hcred. cbn. eauto.
Qed.

Lemma tryModels_offline (messages : list Message) (key : string)
  (models : list string) (w : World) :
  Forall (fun m => failsOffline w m = true) models ->
  forall (lastError : option Thrown) (c : Cache),
  exists e : Thrown,
    tryModels messages key models lastError (c, w) = (Throw e, (c, w)).
Proof.
  induction 1 as [| m rest Hm _ IH]; intros lastError c;
    cbn [LiteLLM.tryModels fst snd]; [eauto |].
  destruct (callModel_offline m messages w Hm) as [e ->]. apply IH.
Qed.

(** X20.  A chain made only of cloud models whose API key is not set
    (and of unsupported models) never reaches the network: whatever the
    state of the adapter, [chatSync] leaves the world exactly as it found
    it, and it throws unless the answer is in the cache. *)
Theorem keyless_chain_sends_no_request
  (messages : list Message) (a : LiteLLMAdapter) (w : World) :
  Forall (fun m => failsOffline w m = true)
         (primaryModel config :: fallbackModels config) ->
  snd (snd (chatSync messages (a, w))) = w
  /\ (LiteLLM.cacheMiss dateNow JSON_stringify config messages a w ->
      isThrow (fst (chatSync messages (a, w))) = true).
Proof.
  intros Hoff. unfold Http.chatSync, LiteLLM.chatSync, LiteLLM.cacheMiss.
  destruct (LiteLLM.getFromCache dateNow config
              (LiteLLM.getCacheKey JSON_stringify messages) (cache a, w))
    as [cached c].
  cbn [fst snd].
  destruct (truthyString cached); [split; [reflexivity | discriminate] |].
  destruct (tryModels_offline messages
              (LiteLLM.getCacheKey JSON_stringify messages) _ w Hoff None c)
    as [e Hrun].
  fold (executeWithFallbacks messages
          (LiteLLM.getCacheKey JSON_stringify messages) (c, w)) in Hrun.
  destruct (circuitBreakerEnabled config).
  - pose proof (execute_host_cases (hostNow dateNow)
                  (hostTimerFiresFirst timerFiresFirst) (breakerConfig config)
                  (executeWithFallbacks messages
                     (LiteLLM.getCacheKey JSON_stringify messages))
                  (circuitBreaker a) (c, w) eq_refl) as Hhost.
    destruct (CB.execute (hostNow dateNow)
                (hostTimerFiresFirst timerFiresFirst) (breakerConfig config)
                (executeWithFallbacks messages
                   (LiteLLM.getCacheKey JSON_stringify messages))
                (circuitBreaker a, (c, w))) as [r0 [b' [c' w']]] eqn:Hexec.
    pose proof (f_equal (fun x => snd (snd x)) Hexec) as Hsnd.
    cbn [fst snd] in *.
    assert (Hw : (c', w') = (c, w)).
    { destruct Hhost as [Hh | Hh];
        (etransitivity; [symmetry; exact Hsnd |]); [| exact Hh].
      etransitivity; [exact Hh |]. now rewrite Hrun. }
    inversion Hw; subst. split; [reflexivity |]. intros _.
    destruct r0 as [v | e0]; [| reflexivity].
    pose proof (execute_return_is_operation (hostNow dateNow)
                  (hostTimerFiresFirst timerFiresFirst) (breakerConfig config)
                  _ _ _ _ _ _ eq_refl Hexec) as Hret.
    rewrite Hrun in Hret. discriminate.
  - rewrite Hrun. split; reflexivity.
Qed.

Lemma check_offline (model : string) (w : World) :
  String.eqb (providerOf model) "ollama" = false ->
  checkModelAvailability model w = (hasCredential w model, w).
Proof.
  unfold Http.checkModelAvailability, Http.hasCredential. intros ->.
  destruct (String.eqb (providerOf model) "openai"); [reflexivity |].
  now destruct (String.eqb (providerOf model) "anthropic").
Qed.

Lemma anyAvailable_offline (models : list string) (w : World) :
  Forall (fun m => String.eqb (providerOf m) "ollama" = false) models ->
  anyAvailable models w = (existsb (hasCredential w) models, w).
Proof.
  induction 1 as [| m rest Hm _ IH]; cbn [Http.anyAvailable existsb];
    [reflexivity |].
  rewrite (check_offline m w Hm).
  destruct (hasCredential w m); [reflexivity | exact IH].
Qed.

(** X21.  For a chain without Ollama models [isAvailable] is decided by
    the environment alone: it makes no request (the world is unchanged)
    and answers whether some cloud model of the chain has its API key
    set. *)
Theorem isAvailable_of_cloud_chain_is_offline (w : World) :
  Forall (fun m => String.eqb (providerOf m) "ollama" = false)
         (primaryModel config :: fallbackModels config) ->
  isAvailable w
  = (existsb (hasCredential w) (primaryModel config :: fallbackModels config),
     w).
Proof.
  intros Hchain. inversion Hchain as [| m rest Hm Hrest]; subst.
  unfold Http.isAvailable. rewrite (check_offline _ w Hm).
  cbn [existsb].
  destruct (hasCredential w (primaryModel config)); [reflexivity |].
  now apply anyAvailable_offline.
Qed.

Lemma check_keeps_env (model : string) (w : World) :
  (forall (req : Request) (w0 : World) (name : string),
      getenv name (snd (fetch req w0)) = getenv name w0) ->
  forall name : string,
    getenv name (snd (checkModelAvailability model w)) = getenv name w.
Proof.
  intros Hstable name. unfold Http.checkModelAvailability.
  destruct (String.eqb (providerOf model) "ollama").
  - pose proof (Hstable (Http.tagsRequest http) w name) as H.
    destruct (fetch (Http.tagsRequest http) w) as [[m | r] w']; exact H.
  - destruct (String.eqb (providerOf model) "openai"); [reflexivity |].
    now destruct (String.eqb (providerOf model) "anthropic").
Qed.

Lemma anyAvailable_credential (models : list string) :
  (forall (req : Request) (w0 : World) (name : string),
      getenv name (snd (fetch req w0)) = getenv name w0) ->
  forall (w0 w : World),
    (forall name : string, getenv name w = getenv name w0) ->
    (exists m : string, In m models /\ hasCredential w0 m = true) ->
    fst (anyAvailable models w) = true.
Proof.
  intros Hstable. induction models as [| m rest IH]; intros w0 w Henv Hex;
    [destruct Hex as (m & [] & _) |].
  cbn [Http.anyAvailable].
  pose proof (check_keeps_env m w Hstable) as Hkeep.
  destruct (checkModelAvailability m w) as [available w'] eqn:Hcheck.
  destruct available; [reflexivity |].
  cbn [snd] in Hkeep.
  apply (IH w0 w'); [intros name; now rewrite Hkeep |].
  destruct Hex as (m0 & [<- | Hin] & Hcred); [| eauto].
  exfalso.
  assert (Hsame : hasCredential w m = true).
  { unfold Http.hasCredential in *. now rewrite !Henv. }
  assert (Hnot : String.eqb (providerOf m) "ollama" = false).
  { unfold Http.hasCredential in Hsame.
    destruct (String.eqb_spec (providerOf m) "ollama") as [E | _];
      [| reflexivity].
    rewrite E in Hsame. discriminate. }
  rewrite (check_offline m w Hnot), Hsame in Hcheck. discriminate.
Qed.

(** X22.  One credential is enough.  If requests do not change the
    environment variables and some cloud model of the chain has its API
    key set, [isAvailable] answers [true], whether or not the Ollama
    models before it can be reached. *)
Theorem isAvailable_with_one_credential (w : World) :
  (forall (req : Request) (w0 : World) (name : string),
      getenv name (snd (fetch req w0)) = getenv name w0) ->
  (exists m : string,
      In m (primaryModel config :: fallbackModels config)
      /\ hasCredential w m = true) ->
  fst (isAvailable w) = true.
Proof.
  intros Hstable Hex.
  assert (Hall : fst (anyAvailable (primaryModel config :: fallbackModels config)
                                   w) = true)
    by (apply (anyAvailable_credential _ Hstable w w); auto).
  unfold Http.isAvailable. cbn [Http.anyAvailable] in Hall.
  destruct (checkModelAvailability (primaryModel config) w) as [available w'].
  now destruct available.
Qed.

(** X23.  What [callAnthropic] sends.  The request carries the content
    of the first system message as its [system] field (the empty string
    if there is none) and every non-system message, in order, under the
    roles [user] and [assistant] only; a system message after the first
    is in neither place. *)
Theorem anthropic_request_keeps_first_system_message_only
  (apiKey model : string) (messages : list Message) :
  body (Http.anthropicRequest http config apiKey model messages)
  = AnthropicMessages model (systemMessage messages) (userMessages messages)
                      4096 (temperature http)
  /\ (forall (pre post : list Message) (s : Message),
      messages = pre ++ s :: post ->
      Forall (fun m => isSystem m = false) pre ->
      isSystem s = true ->
      systemMessage messages = content s)
  /\ (Forall (fun m => isSystem m = false) messages ->
      systemMessage messages = EmptyString)
  /\ Forall (fun p => fst p = "user"%string \/ fst p = "assistant"%string)
            (userMessages messages)
  /\ map snd (userMessages messages)
     = map content (filter (fun m => negb (isSystem m)) messages)
  /\ (List.length (userMessages messages)
      + List.length (filter isSystem messages)
      = List.length messages)%nat.
Proof.
  split; [reflexivity |]. split; [| split; [| split; [| split]]].
  - intros pre post s -> Hpre Hs. unfold systemMessage.
    induction Hpre as [| m pre Hm _ IH]; cbn [app find].
    + now rewrite Hs.
    + rewrite Hm. exact IH.
  - intros Hnone. unfold systemMessage.
    induction Hnone as [| m rest Hm _ IH]; cbn [find]; [reflexivity |].
    now rewrite Hm.
  - unfold userMessages. apply Forall_forall. intros p Hp.
    apply in_map_iff in Hp as (m & <- & Hm).
    apply filter_In in Hm as [_ Hm]. unfold isSystem in Hm. cbn [fst].
    destruct (role m); [now left | now right | discriminate].
  - unfold userMessages. rewrite map_map. reflexivity.
  - unfold userMessages. rewrite length_map.
    induction messages as [| m rest IH]; [reflexivity |].
    cbn [filter]. destruct (isSystem m); cbn [negb List.length]; lia.
Qed.

End HttpFacts.

(* ================================================================== *)
(** * Grouping health data for the prompt *)

Section PromptFacts.

Import Prompt.

Lemma HealthDataType_eqb_eq (a b : HealthDataType) :
  HealthDataType_eqb a b = true <-> a = b.
Proof. split; [destruct a, b; (reflexivity || discriminate) | intros ->; now destruct b]. Qed.

Lemma HealthDataType_eqb_neq (a b : HealthDataType) :
  HealthDataType_eqb a b = false <-> a <> b.
Proof.
  split.
  - intros H E. apply HealthDataType_eqb_eq in E. congruence.
  - intros H. destruct (HealthDataType_eqb a b) eqn:E; [| reflexivity].
    apply HealthDataType_eqb_eq in E. contradiction.
Qed.

Lemma push_keys (d : HealthData) (acc : Grouped) (t : HealthDataType) :
  In t (map fst (push d acc)) <-> t = type d \/ In t (map fst acc).
Proof.
  induction acc as [| [t0 items0] rest IH]; cbn [push map fst In].
  - intuition congruence.
  - destruct (HealthDataType_eqb t0 (type d)) eqn:E; cbn [map fst In].
    + apply HealthDataType_eqb_eq in E. subst t0. intuition congruence.
    + rewrite IH. intuition.
Qed.

Lemma push_NoDup (d : HealthData) (acc : Grouped) :
  NoDup (map fst acc) -> NoDup (map fst (push d acc)).
Proof.
  induction acc as [| [t0 items0] rest IH]; cbn [push map fst]; intros Hnd.
  - constructor; [intros [] | constructor].
  - inversion Hnd as [| ? ? Hnotin Hrest]; subst.
    destruct (HealthDataType_eqb t0 (type d)) eqn:E; cbn [map fst].
    + now constructor.
    + constructor; [| now apply IH].
      rewrite push_keys. intros [-> | Hin]; [| contradiction].
      apply HealthDataType_eqb_neq in E. contradiction.
Qed.

Lemma push_groups (d : HealthData) (acc : Grouped) :
  NoDup (map fst acc) ->
  forall (t : HealthDataType) (items : list HealthData),
    In (t, items) (push d acc) ->
    (t <> type d /\ In (t, items) acc)
    \/ (t = type d
        /\ exists items0, In (t, items0) acc /\ items = items0 ++ [d])
    \/ (t = type d /\ ~ In t (map fst acc) /\ items = [d]).
Proof.
  induction acc as [| [t0 items0] rest IH]; cbn [push map fst];
    intros Hnd t items Hin.
  - destruct Hin as [E | []]. inversion E; subst. right; right. auto.
  - inversion Hnd as [| ? ? Hnotin Hrest]; subst.
    destruct (HealthDataType_eqb t0 (type d)) eqn:E.
    + apply HealthDataType_eqb_eq in E. subst t0.
      destruct Hin as [E | Hin].
      * inversion E; subst. right; left. split; [reflexivity |].
        exists items0. split; [now left | reflexivity].
      * left. split; [| now right].
        intros ->. apply Hnotin. apply in_map_iff. now exists (type d, items).
    + apply HealthDataType_eqb_neq in E.
      destruct Hin as [E' | Hin].
      * inversion E'; subst. left. split; [exact E | now left].
      * destruct (IH Hrest t items Hin)
          as [[Hne H] | [[-> (i0 & H & ->)] | [-> [Hno ->]]]].
        -- left. split; [exact Hne | now right].
        -- right; left. split; [reflexivity |]. exists i0.
           split; [now right | reflexivity].
        -- right; right. split; [reflexivity |]. split; [| reflexivity].
           cbn [In]. intros [E' | H]; [congruence | contradiction].
Qed.

Lemma filter_nil_when {A : Type} (f : A -> bool) (l : list A) :
  (forall x, In x l -> f x = false) -> filter f l = [].
Proof.
  induction l as [| x l IH]; intros H; cbn [filter]; [reflexivity |].
  rewrite (H x (or_introl eq_refl)). apply IH. intros y Hy. apply H. now right.
Qed.

Lemma push_grouped (d : HealthData) (acc : Grouped) (seen : list HealthData) :
  grouped acc seen -> grouped (push d acc) (seen ++ [d]).
Proof.
  intros (Hnd & Hgroups & Hcover). split; [| split].
  - now apply push_NoDup.
  - intros t items Hin. rewrite filter_app. cbn [filter].
    destruct (push_groups d acc Hnd t items Hin)
      as [[Hne H] | [[-> (i0 & H & ->)] | [-> [Hno ->]]]].
    + destruct (Hgroups t items H) as [Hne' Heq].
      assert (E : HealthDataType_eqb (type d) t = false)
        by (apply HealthDataType_eqb_neq; congruence).
      rewrite E, app_nil_r. auto.
    + destruct (Hgroups _ _ H) as [_ Heq].
      assert (E : HealthDataType_eqb (type d) (type d) = true)
        by now apply HealthDataType_eqb_eq.
      rewrite E, <- Heq. split; [now destruct i0 | reflexivity].
    + assert (E : HealthDataType_eqb (type d) (type d) = true)
        by now apply HealthDataType_eqb_eq.
      rewrite E. split; [discriminate |].
      rewrite filter_nil_when; [reflexivity |].
      intros x Hx. apply HealthDataType_eqb_neq. intros Ex.
      apply Hno. rewrite <- Ex. now apply Hcover.
  - intros x Hx. apply push_keys. apply in_app_or in Hx as [Hx | [-> | []]];
      [right; now apply Hcover | now left].
Qed.

Lemma fold_push_grouped (data : list HealthData) :
  forall (acc : Grouped) (seen : list HealthData),
    grouped acc seen ->
    grouped (fold_left (fun acc data => push data acc) data acc) (seen ++ data).
Proof.
  induction data as [| d data IH]; intros acc seen H; cbn [fold_left].
  - now rewrite app_nil_r.
  - replace (seen ++ d :: data) with ((seen ++ [d]) ++ data)
      by now rewrite <- app_assoc.
    apply IH. now apply push_grouped.
Qed.

(** X24.  The grouping that [formatHealthDataForPrompt] prints is a
    partition of its input by type: no type has two groups, every group
    is non-empty and holds exactly the data of its type in input order,
    and every datum's type has a group.  So each reading is printed once,
    on the line of its type. *)
Theorem groupByType_partitions_by_type (healthData : list HealthData) :
  NoDup (map fst (groupByType healthData))
  /\ (forall t items,
         In (t, items) (groupByType healthData) ->
         items <> []
         /\ items = filter (fun d => HealthDataType_eqb (type d) t) healthData)
  /\ (forall d, In d healthData ->
                In (type d) (map fst (groupByType healthData))).
Proof.
  apply (fold_push_grouped healthData [] []).
  split; [constructor | split]; [intros ? ? [] | intros ? []].
Qed.

End PromptFacts.

Section CacheRoundTrip.

Context {World : Type}.
Variable dateNow : World -> Z.
Variable config : LiteLLMConfig.

(** X25.  Write, then read.  With caching enabled, an answer written by
    [setCache] into a cache of at most 1000 entries is what
    [getFromCache] returns for the same key as long as [Date.now()] is at
    most [cacheTTLSeconds] seconds later, whatever the cache held before
    (eviction never removes the entry just written), and the lookup
    changes nothing. *)
Theorem setCache_then_getFromCache_round_trip
  (key resp : string) (c : Cache) (w1 w2 : World) :
  cacheEnabled config = true ->
  Map_size c <= 1000 ->
  dateNow w2 - dateNow w1 <= cacheTTLSeconds config * 1000 ->
  LiteLLM.getFromCache dateNow config key
                       (LiteLLM.setCache dateNow key resp (c, w1), w2)
  = (Some resp, LiteLLM.setCache dateNow key resp (c, w1)).
Proof.
  intros Hon Hsize Hlive. unfold LiteLLM.getFromCache. rewrite Hon.
  cbn [negb]. rewrite (setCache_stores dateNow key resp c w1 Hsize).
  rewrite not_expired by exact Hlive. reflexivity.
Qed.

End CacheRoundTrip.

(* ================================================================== *)
(** * Worked runs, continued *)

(** X1 on the test breaker after three failures, two seconds of rest and
    a successful probe. *)
Lemma breaker_shape_between_calls_witness :
  let b := fst (CB.run clockNow clockTimer testConfig tripAndProbe
                       (newBreaker, startOfRun)) in
  (state b = CLOSED ->
   successes b = 0 /\ 0 <= failures b < failureThreshold testConfig)
  /\ (state b = OPEN ->
      successes b = 0 /\ lastFailureTime b <> None
      /\ failureThreshold testConfig <= failures b)
  /\ (state b = HALF_OPEN ->
      1 <= successes b < successThreshold testConfig
      /\ lastFailureTime b <> None
      /\ failureThreshold testConfig <= failures b).
Proof.
  apply (breaker_shape_between_calls clockNow clockTimer testConfig
           tripAndProbe startOfRun).
  vm_compute; reflexivity.
Defined.

(** X2 on the test breaker: fail, fail, succeed, fail never reaches
    three failures in a row; the breaker ends CLOSED with one failure. *)
Lemma closed_breaker_counts_failures_in_a_row_witness :
  let b' := fst (snd (CB.executeAll clockNow clockTimer testConfig upsAndDowns
                                    (newBreaker, startOfRun))) in
  state b' = CLOSED
  /\ failures b' = 1
  /\ totalCalls b' = 4
  /\ totalFailures b' + totalSuccesses b' = 4.
Proof.
  apply (closed_breaker_counts_failures_in_a_row clockNow clockTimer testConfig
           upsAndDowns newBreaker startOfRun).
  - reflexivity.
  - vm_compute. repeat constructor.
Defined.

(** X3: a failing call through the new test breaker throws the
    operation's own error. *)
Lemma execute_passes_completion_through_witness :
  fst (CB.execute clockNow clockTimer testConfig failing
                  (newBreaker, startOfRun))
  = Throw (ErrorObject "fail")
  /\ snd (snd (CB.execute clockNow clockTimer testConfig failing
                          (newBreaker, startOfRun)))
     = startOfRun + 10.
Proof.
  apply (execute_passes_completion_through clockNow clockTimer testConfig
           failing newBreaker startOfRun).
  - left. vm_compute. discriminate.
  - vm_compute. reflexivity.
Defined.

(** X4: an operation that resolves after 6 s, under a 5 s timer. *)
Lemma late_call_is_a_failure_witness :
  let b' := fst (snd (CB.execute clockNow clockTimer testConfig lateSuccess
                                 (newBreaker, startOfRun))) in
  fst (CB.execute clockNow clockTimer testConfig lateSuccess
                  (newBreaker, startOfRun))
  = Throw (ErrorObject "Circuit breaker timeout after 5000ms")
  /\ failures b' = 1
  /\ totalFailures b' = 1
  /\ totalSuccesses b' = 0
  /\ lastFailureTime b' <> None.
Proof.
  apply (late_call_is_a_failure clockNow clockTimer testConfig lateSuccess
           newBreaker startOfRun).
  - left. vm_compute. discriminate.
  - vm_compute. reflexivity.
Defined.

(** X5: the tripped breaker with its failure recorded at clock reading 0
    lets a call through one millisecond later. *)
Lemma falsy_failure_time_opens_gate_witness :
  CB.execute clockNow clockTimer testConfig succeeding
             (set_lastFailureTime (Some 0) tripped, 1)
  = CB.attempt clockNow clockTimer testConfig succeeding
               (set_state HALF_OPEN
                  (counted (set_lastFailureTime (Some 0) tripped)), 1)
  /\ snd (snd (CB.execute clockNow clockTimer testConfig succeeding
                          (set_lastFailureTime (Some 0) tripped, 1)))
     = 11
  /\ stats_lastFailure (getStats (set_lastFailureTime (Some 0) tripped)) = None.
Proof.
  apply (falsy_failure_time_opens_gate clockNow clockTimer testConfig
           succeeding (set_lastFailureTime (Some 0) tripped) 1).
  - reflexivity.
  - right. reflexivity.
Defined.

(** X7: two calls, 100 ms apart, to the tripped test breaker. *)
Lemma open_breaker_fails_fast_witness :
  CB.executeAll clockNow clockTimer testConfig twoCallsInWindow
                (tripped, startOfRun + 30)
  = ([Throw (circuitOpenError testConfig); Throw (circuitOpenError testConfig)],
     (set_totalCalls (totalCalls tripped + 2) tripped, startOfRun + 230)).
Proof.
  apply (open_breaker_fails_fast clockNow clockTimer testConfig
           twoCallsInWindow tripped (startOfRun + 30)).
  - reflexivity.
  - reflexivity.
  - vm_compute. repeat split.
Defined.

(** X8: the tripped test breaker, probed after 2 s, closes on the second
    success. *)
Lemma open_breaker_recovers_witness :
  let b' := fst (snd (CB.executeAll clockNow clockTimer testConfig
                        [CB.mkCall (waiting 2000) succeeding;
                         CB.mkCall (waiting 0) succeeding]
                        (tripped, startOfRun))) in
  state b' = CLOSED /\ failures b' = 0 /\ successes b' = 0.
Proof.
  apply (open_breaker_recovers clockNow clockTimer testConfig
           (CB.mkCall (waiting 2000) succeeding)
           [CB.mkCall (waiting 0) succeeding] tripped startOfRun).
  - reflexivity.
  - vm_compute. discriminate.
  - vm_compute. reflexivity.
  - reflexivity.
  - reflexivity.
Defined.

(** X9 with the default policy and an operation that always rejects. *)
Lemma withRetry_ends_with_its_last_invocation_witness :
  exists (errs : list Thrown) (c : Completion unit),
    invocations (snd (snd (Retry.observed clockSetTimeout failing noOverrides 0)))
    = map Throw errs ++ [c]
    /\ fst (Retry.observed clockSetTimeout failing noOverrides 0) = c
    /\ Forall (fun e => refusesRetry (mergeConfig noOverrides) e = false) errs
    /\ Z.of_nat (List.length errs) <= Retry.maxRetries (mergeConfig noOverrides).
Proof.
  apply (withRetry_ends_with_its_last_invocation clockSetTimeout failing
           noOverrides 0).
  vm_compute. discriminate.
Defined.

(** X10 with [maxRetries = -1]. *)
Lemma withRetry_negative_budget_throws_undefined_witness :
  Retry.observed clockSetTimeout succeeding negativeBudget 0
  = (Throw Undefined, (0, [])).
Proof.
  apply (withRetry_negative_budget_throws_undefined clockSetTimeout succeeding
           negativeBudget 0).
  vm_compute. reflexivity.
Defined.

(** X11 with the default policy: at most 3 sleeps, at most 30 s. *)
Lemma withRetry_total_sleep_is_bounded_witness :
  Z.of_nat (List.length
              (sleeps (snd (snd (Retry.observed clockSetTimeout failing
                                                noOverrides 0)))))
  <= 3
  /\ Classify.total
       (sleeps (snd (snd (Retry.observed clockSetTimeout failing
                                         noOverrides 0))))
     <= 3 * 10000.
Proof.
  apply (withRetry_total_sleep_is_bounded clockSetTimeout failing noOverrides 0).
  - vm_compute. discriminate.
  - vm_compute. discriminate.
  - vm_compute. discriminate.
Defined.

(** X12: an upper-case marker inside a longer message, and a message
    that only mentions the number 503. *)
Lemma isNetworkError_finds_markers_anywhere_witness :
  Classify.isNetworkError (ErrorObject "connect ECONNREFUSED 127.0.0.1:11434")
  = true
  /\ Classify.isNetworkError (ErrorObject "Processed 1503 records, 2 invalid")
     = true.
Proof.
  split.
  - exact (proj1 isNetworkError_finds_markers_anywhere
             "econnrefused"%string "connect "%string "ECONNREFUSED"%string
             " 127.0.0.1:11434"%string
             (or_intror (or_intror (or_introl eq_refl))) eq_refl).
  - exact (proj1 isNetworkError_finds_markers_anywhere
             "503"%string "Processed 1"%string "503"%string
             " records, 2 invalid"%string
             (or_intror (or_intror (or_intror (or_intror (or_intror
                (or_introl eq_refl)))))) eq_refl).
Defined.

(** X14: the first request of a new adapter. *)
Lemma chatSync_keeps_the_cache_bounded_witness :
  CacheInv.cacheOk
    (cache (fst (snd (chat ollamaHello defaults hello (newAdapter, freshWorld))))).
Proof.
  apply (chatSync_keeps_the_cache_bounded clock worldTimer stringify
           ollamaHello openaiDown anthropicDown defaults hello newAdapter
           freshWorld).
  - split; [constructor | split; [constructor | vm_compute; discriminate]].
  - vm_compute. discriminate.
Defined.

(** X15: a new key written into a cache of 1000 entries pushes out the
    oldest, [k0]; a refreshed key stays where it is. *)
Lemma setCache_evicts_the_oldest_entry_witness :
  LiteLLM.setCache clock "Test" "Hello from AI" (fullCache, freshWorld)
  = tl fullCache ++ [("Test"%string, mkEntry "Hello from AI" startOfRun)]
  /\ LiteLLM.setCache clock "Test" "Hello again"
                      (oneEntry, worldAt (startOfRun + 5))
     = [("Test"%string, mkEntry "Hello again" (startOfRun + 5))].
Proof.
  split.
  - apply (proj1 (setCache_evicts_the_oldest_entry clock "Test" "Hello from AI"
                    fullCache freshWorld)
                 "k0"%string (mkEntry "cached" startOfRun) (tl fullCache)).
    + vm_compute. reflexivity.
    + vm_compute. reflexivity.
    + discriminate.
    + vm_compute. reflexivity.
  - apply (proj2 (setCache_evicts_the_oldest_entry clock "Test" "Hello again"
                    oneEntry (worldAt (startOfRun + 5)))).
    + vm_compute. discriminate.
    + vm_compute. discriminate.
Defined.

(** X16 with the default TTL of 300 s: served at 300000 ms, purged at
    300001 ms. *)
Lemma getFromCache_serves_until_ttl_then_purges_witness :
  LiteLLM.getFromCache clock defaults "Test"
                       (oneEntry, worldAt (startOfRun + 300000))
  = (Some "Hello from AI"%string, oneEntry)
  /\ fst (LiteLLM.getFromCache clock defaults "Test"
                               (oneEntry, worldAt (startOfRun + 300001)))
     = None
  /\ Map_size (snd (LiteLLM.getFromCache clock defaults "Test"
                      (oneEntry, worldAt (startOfRun + 300001))))
     = 0.
Proof.
  assert (Hnd : NoDup (map fst oneEntry))
    by (constructor; [intros [] | constructor]).
  split.
  - apply (proj1 (getFromCache_serves_until_ttl_then_purges clock defaults
                    "Test" oneEntry (worldAt (startOfRun + 300000))
                    (mkEntry "Hello from AI" startOfRun) eq_refl Hnd eq_refl)).
    vm_compute. discriminate.
  - destruct (proj2 (getFromCache_serves_until_ttl_then_purges clock defaults
                       "Test" oneEntry (worldAt (startOfRun + 300001))
                       (mkEntry "Hello from AI" startOfRun) eq_refl Hnd eq_refl))
      as (Hnone & _ & Hsize & _).
    + vm_compute. reflexivity.
    + split; [exact Hnone | exact Hsize].
Defined.

(** X17: Ollama down, no fallback: the request throws and the cache of
    the new adapter stays empty. *)
Lemma failed_request_writes_no_cache_entry_witness :
  cache (fst (snd (chat ollamaDown defaults hello (newAdapter, freshWorld))))
  = [].
Proof.
  exact (failed_request_writes_no_cache_entry clock worldTimer stringify
           ollamaDown openaiDown anthropicDown defaults hello newAdapter
           (fst (snd (chat ollamaDown defaults hello (newAdapter, freshWorld))))
           freshWorld
           (snd (snd (chat ollamaDown defaults hello (newAdapter, freshWorld))))
           (ErrorObject "Ollama request failed: Service Unavailable")
           (or_intror eq_refl) eq_refl).
Defined.

(** X18: an answered request with cache and breaker switched off. *)
Lemma disabled_cache_and_breaker_are_untouched_witness :
  cache (fst (snd (chat ollamaHello switchedOff hello (newAdapter, freshWorld))))
  = []
  /\ circuitBreaker
       (fst (snd (chat ollamaHello switchedOff hello (newAdapter, freshWorld))))
     = newBreaker.
Proof.
  destruct (disabled_cache_and_breaker_are_untouched clock worldTimer stringify
              ollamaHello openaiDown anthropicDown switchedOff hello newAdapter
              freshWorld) as [Hcache Hbreaker].
  split; [apply Hcache; reflexivity | apply Hbreaker; reflexivity].
Defined.

(** X19: a provider the adapter does not know. *)
Lemma callModel_splits_at_the_first_slash_witness :
  LiteLLM.callModel ollamaHello openaiHello anthropicDown "mistral/7b" hello
                    freshWorld
  = (Throw (ErrorObject "Unsupported provider: mistral"), freshWorld).
Proof.
  apply (proj2 (proj2 (callModel_splits_at_the_first_slash
                         ollamaHello openaiHello anthropicDown hello freshWorld))
               "mistral/7b"%string);
    vm_compute; discriminate.
Defined.

(** X20: OpenAI and Anthropic models, no key set: the request throws
    and nothing was sent. *)
Lemma keyless_chain_sends_no_request_witness :
  snd (snd (Http.chatSync netFetch netGetenv localhost cloudOnly netClock
                          netTimer stringify hello (newAdapter, noKeys)))
  = noKeys
  /\ isThrow (fst (Http.chatSync netFetch netGetenv localhost cloudOnly netClock
                                 netTimer stringify hello (newAdapter, noKeys)))
     = true.
Proof.
  destruct (keyless_chain_sends_no_request netFetch netGetenv localhost
              cloudOnly netClock netTimer stringify hello newAdapter noKeys)
    as [Hworld Hthrow].
  - vm_compute. repeat constructor.
  - split; [exact Hworld | apply Hthrow; reflexivity].
Defined.

(** X21: a cloud chain with the OpenAI key set. *)
Lemma isAvailable_of_cloud_chain_is_offline_witness :
  Http.isAvailable netFetch netGetenv localhost cloudOnly openaiKeyOnly
  = (true, openaiKeyOnly).
Proof.
  apply (isAvailable_of_cloud_chain_is_offline netFetch netGetenv localhost
           cloudOnly openaiKeyOnly).
  vm_compute. repeat constructor.
Defined.

(** X22: Ollama unreachable, the OpenAI fallback has its key. *)
Lemma isAvailable_with_one_credential_witness :
  fst (Http.isAvailable netFetch netGetenv localhost withFallback openaiKeyOnly)
  = true.
Proof.
  apply (isAvailable_with_one_credential netFetch netGetenv localhost
           withFallback openaiKeyOnly).
  - intros req w0 name. reflexivity.
  - exists "openai/gpt-4o-mini"%string.
    split; [right; left; reflexivity | reflexivity].
Defined.

(** X23: of two system messages the first is sent, the second is not. *)
Lemma anthropic_request_keeps_first_system_message_only_witness :
  Http.systemMessage briefing = "Be brief."%string
  /\ Forall (fun p => fst p = "user"%string \/ fst p = "assistant"%string)
            (Http.userMessages briefing).
Proof.
  destruct (anthropic_request_keeps_first_system_message_only localhost defaults
              "sk-test" "claude-3-haiku-20240307" briefing)
    as (_ & Hfirst & _ & Hroles & _).
  split; [| exact Hroles].
  apply (Hfirst [] (tl briefing) (mkMessage system "Be brief." None));
    [reflexivity | constructor | reflexivity].
Defined.

(** X24: three readings of two types. *)
Lemma groupByType_partitions_by_type_witness :
  In Prompt.steps (map fst (Prompt.groupByType readings))
  /\ In Prompt.heart_rate (map fst (Prompt.groupByType readings)).
Proof.
  destruct (groupByType_partitions_by_type readings) as (_ & _ & Hcover).
  split.
  - apply (Hcover (Prompt.mkHealthData "3" "u1" Prompt.manual Prompt.steps 9000
                                       "steps" startOfRun)).
    right; right; left; reflexivity.
  - apply (Hcover (Prompt.mkHealthData "2" "u1" Prompt.apple_watch
                                       Prompt.heart_rate 62 "bpm" startOfRun)).
    right; left; reflexivity.
Defined.

(** X25: an answer written at the start of the run is read back 1 s
    later. *)
Lemma setCache_then_getFromCache_round_trip_witness :
  LiteLLM.getFromCache clock defaults "Test"
    (LiteLLM.setCache clock "Test" "Hello from AI" ([], freshWorld),
     worldAt (startOfRun + 1000))
  = (Some "Hello from AI"%string, oneEntry).
Proof.
  apply (setCache_then_getFromCache_round_trip clock defaults "Test"
           "Hello from AI" [] freshWorld (worldAt (startOfRun + 1000))).
  - reflexivity.
  - vm_compute. discriminate.
  - vm_compute. discriminate.
Defined.
